(** * sower: the Trojan transport and the proxy dialer

    A shallow embedding of [transport/trojan/trojan.go] (the framed request
    codec [New], [Wrap], [Unwrap], [domain.Fulfill], and the addresses'
    [Network] and [String]) and of the dialer and the front-ends of
    [cmd/sower] ([GenProxyDial], [ServeHTTP], [ServeHTTPS], and of
    [loadRules] the dial of its HTTP client and the loop over the lines of
    a rule file), with the parts of the Go library they call
    ([io.ReadFull], [binary.Read], [errors.Wrap], [hex.Encode],
    [sha256.Sum224], [net.ParseIP], [IP.To4], [IP.String],
    [net.JoinHostPort], [net.SplitHostPort], [strconv.Itoa],
    [strconv.Atoi], [strings.TrimSpace]) written out after their Go
    sources.

    Go strings and byte slices are [list byte]; a nil slice is [[]]; a Go
    [error] value is [option error] with [None] for nil; [uint16] is a [Z]
    with its wrap-around written out.  A connection is a script of what its
    successive [Read] and [Write] calls meet. *)

From Stdlib Require Import ZArith Lia Strings.Byte String.
From stdpp Require Import base option list.

Local Open Scope Z_scope.

#[global] Instance byte_eq_dec : EqDecision byte := Byte.byte_eq_dec.

(** ** Bytes and fixed-width integers *)

(** [int(b)], [uint16(b)]: the value of a byte. *)
Definition u8 (b : byte) : Z := Z.of_N (Byte.to_N b).

(** [byte(x)]: Go's truncating conversion to [uint8]. *)
Definition byte_of (x : Z) : byte :=
  default x00 (Byte.of_N (Z.to_N (x mod 256))).

(** Wrap-around of [uint16] and [uint32] arithmetic. *)
Definition wrap16 (x : Z) : Z := x mod 65536.
Definition wrap32 (x : Z) : Z := x mod 4294967296.

(** [uint16(hi)<<8 + uint16(lo)]. *)
Definition port_of (hi lo : byte) : Z :=
  wrap16 (wrap16 (Z.shiftl (u8 hi) 8) + u8 lo).

(** A Go string literal as its bytes. *)
Definition str (s : string) : list byte := list_byte_of_string s.

(** [copy(dst, src)] for a read that stored [src] at the start of [dst]. *)
Definition fill (dst src : list byte) : list byte :=
  take (length dst) src ++ drop (length src) dst.

(** [make([]byte, n)]. *)
Definition make (n : nat) : list byte := replicate n x00.

(** ** Go errors *)

Inductive error : Type :=
| EOF                                         (* io.EOF *)
| ErrUnexpectedEOF                            (* io.ErrUnexpectedEOF *)
| ErrClosed                                   (* use of closed connection *)
| ErrNet (msg : string)                       (* any error of the network *)
| ErrNew (msg : string)                       (* errors.New(msg) *)
| ErrWrapped (cause : error) (msg : string)   (* errors.Wrap(cause, msg) *)
| ErrWrite (n : nat)                          (* Errorf("n: %d, msg: %s") *)
| ErrAddr (host : list byte) (port : Z)       (* Errorf("invalid addr(%s:%d)") *)
| ErrNoProgress.                              (* a reader that never delivers *)

Definition is_EOF (e : error) : bool :=
  match e with EOF => true | _ => false end.

Module errors.

Definition New (msg : string) : option error := Some (ErrNew msg).

(** [errors.Wrap] of github.com/pkg/errors: "If err is nil, Wrap returns
    nil." *)
Definition Wrap (err : option error) (msg : string) : option error :=
  match err with
  | None => None
  | Some e => Some (ErrWrapped e msg)
  end.

End errors.

(** ** Readers, writers and connections *)

Module io.

(** The result of [Read(p)]: the [n] bytes stored in [p] and [err]. *)
Definition result : Type := list byte * option error.

(** [io.Reader].  [backlog] bounds the number of [Read] calls that can
    still return without an error; it is the fuel of [ReadFull]. *)
Class Reader (R : Type) := {
  Read : R -> nat -> result * R;
  backlog : R -> nat
}.

(** [io.Writer]: [Write(p)] returns [n] and [err]. *)
Class Writer (W : Type) := {
  Write : W -> list byte -> (nat * option error) * W
}.

(** The loop of [io.ReadAtLeast(r, buf, min)] with [len(buf) = size]:
<<
    for n < min && err == nil { nn, err = r.Read(buf[n:]); n += nn }
    if n >= min { err = nil }
    else if n > 0 && err == EOF { err = ErrUnexpectedEOF }
>>
    [acc] holds the [n] bytes read so far. *)
Fixpoint ReadAtLeast_loop {R} `{Reader R} (fuel : nat) (r : R)
    (acc : list byte) (size min : nat) : result * R :=
  if decide (min <= length acc)%nat then ((acc, None), r)
  else
    match fuel with
    | O => ((acc, Some ErrNoProgress), r)
    | S fuel' =>
        let '((bs, err), r') := Read r (size - length acc) in
        let acc' := acc ++ bs in
        match err with
        | None => ReadAtLeast_loop fuel' r' acc' size min
        | Some e =>
            if decide (min <= length acc')%nat then ((acc', None), r')
            else if decide (0 < length acc')%nat
            then ((acc', Some (if is_EOF e
                               then ErrUnexpectedEOF else e)), r')
            else ((acc', Some e), r')
        end
    end.

(** [io.ReadFull(r, buf)] with [len(buf) = size]. *)
Definition ReadFull {R} `{Reader R} (r : R) (size : nat) : result * R :=
  ReadAtLeast_loop (S (backlog r)) r [] size size.

End io.

(** [b[i]] where the code has checked the length before. *)
Definition at_ (b : list byte) (i : nat) : byte := nth i b x00.

Module bytes.

(** [bytes.Buffer], read side: the unread bytes. *)
Record Buffer := NewBuffer { unread : list byte }.

Definition Buffer_Read (b : Buffer) (n : nat) : io.result * Buffer :=
  match unread b with
  | [] => (([], if decide (n = 0%nat) then None else Some EOF), b)
  | _ :: _ => ((take n (unread b), None), NewBuffer (drop n (unread b)))
  end.

#[global] Instance Buffer_Reader : io.Reader Buffer :=
  {| io.Read := Buffer_Read; io.backlog := fun b => length (unread b) |}.

(** [bytes.Equal]. *)
Definition Equal (a b : list byte) : bool := bool_decide (a = b).

End bytes.

Module binary.

(** [binary.BigEndian.Uint16(b)]: [uint16(b[1]) | uint16(b[0])<<8]. *)
Definition Uint16 (b : list byte) : Z :=
  Z.lor (u8 (at_ b 1)) (wrap16 (Z.shiftl (u8 (at_ b 0)) 8)).

(** A struct of fixed-size fields: its encoded size and the decoding of
    that many bytes, field after field, in big-endian order. *)
Class Fixed (A : Type) := {
  dataSize : nat;
  decode : list byte -> A
}.

(** [binary.Read(r, binary.BigEndian, data)] for such a struct:
<<
    d := &decoder{order: order, buf: make([]byte, size)}
    if _, err := io.ReadFull(r, d.buf); err != nil { return err }
    d.value(v)
>>
    [inl] is the struct filled in, [inr] the error. *)
Definition Read {R} `{io.Reader R} (A : Type) `{Fixed A} (r : R)
    : (A + error) * R :=
  let '((buf, err), r') := io.ReadFull r dataSize in
  match err with
  | Some e => (inr e, r')
  | None => (inl (decode buf), r')
  end.

End binary.

Module hex.

Definition hextable : list byte := str "0123456789abcdef".

(** [hex.Encode(dst, src)]: two characters per byte,
    [hextable[v>>4]] then [hextable[v&0x0f]]. *)
Definition Encode (src : list byte) : list byte :=
  flat_map (fun v => [at_ hextable (Z.to_nat (Z.shiftr (u8 v) 4));
                      at_ hextable (Z.to_nat (Z.land (u8 v) 0x0f))]) src.

End hex.

(** ** crypto/sha256: [Sum224] *)

Module sha256.

Definition rotr (x n : Z) : Z :=
  Z.lor (Z.shiftr x n) (wrap32 (Z.shiftl x (32 - n))).

Definition not32 (x : Z) : Z := Z.lxor x 0xffffffff.

(** [_K], four words to a line as in [sha256block.go]. *)
Definition _K : list Z :=
     [0x428a2f98; 0x71374491; 0xb5c0fbcf; 0xe9b5dba5]
  ++ [0x3956c25b; 0x59f111f1; 0x923f82a4; 0xab1c5ed5]
  ++ [0xd807aa98; 0x12835b01; 0x243185be; 0x550c7dc3]
  ++ [0x72be5d74; 0x80deb1fe; 0x9bdc06a7; 0xc19bf174]
  ++ [0xe49b69c1; 0xefbe4786; 0x0fc19dc6; 0x240ca1cc]
  ++ [0x2de92c6f; 0x4a7484aa; 0x5cb0a9dc; 0x76f988da]
  ++ [0x983e5152; 0xa831c66d; 0xb00327c8; 0xbf597fc7]
  ++ [0xc6e00bf3; 0xd5a79147; 0x06ca6351; 0x14292967]
  ++ [0x27b70a85; 0x2e1b2138; 0x4d2c6dfc; 0x53380d13]
  ++ [0x650a7354; 0x766a0abb; 0x81c2c92e; 0x92722c85]
  ++ [0xa2bfe8a1; 0xa81a664b; 0xc24b8b70; 0xc76c51a3]
  ++ [0xd192e819; 0xd6990624; 0xf40e3585; 0x106aa070]
  ++ [0x19a4c116; 0x1e376c08; 0x2748774c; 0x34b0bcb5]
  ++ [0x391c0cb3; 0x4ed8aa4a; 0x5b9cca4f; 0x682e6ff3]
  ++ [0x748f82ee; 0x78a5636f; 0x84c87814; 0x8cc70208]
  ++ [0x90befffa; 0xa4506ceb; 0xbef9a3f7; 0xc67178f2].

(** The eight chaining words [h[0..7]]. *)
Record digest := Digest {
  h0 : Z; h1 : Z; h2 : Z; h3 : Z; h4 : Z; h5 : Z; h6 : Z; h7 : Z
}.

(** [init0_224 .. init7_224]. *)
Definition init224 : digest :=
  Digest 0xC1059ED8 0x367CD507 0x3070DD17 0xF70E5939
         0xFFC00B31 0x68581511 0x64F98FA7 0xBEFA4FA4.

(** [w[i] = uint32(p[j])<<24 | uint32(p[j+1])<<16 | uint32(p[j+2])<<8
    | uint32(p[j+3])] for the sixteen words of a chunk. *)
Fixpoint words (p : list byte) : list Z :=
  match p with
  | b0 :: b1 :: b2 :: b3 :: p' =>
      Z.lor (Z.lor (Z.lor (Z.shiftl (u8 b0) 24) (Z.shiftl (u8 b1) 16))
                   (Z.shiftl (u8 b2) 8)) (u8 b3) :: words p'
  | _ => []
  end.

(** [w[i] = t1 + w[i-7] + t2 + w[i-16]] for [i] from [len(w)] on, [k]
    times. *)
Fixpoint schedule (k : nat) (w : list Z) : list Z :=
  match k with
  | O => w
  | S k' =>
      let i := length w in
      let v1 := nth (i - 2) w 0 in
      let t1 := Z.lxor (Z.lxor (rotr v1 17) (rotr v1 19)) (Z.shiftr v1 10) in
      let v2 := nth (i - 15) w 0 in
      let t2 := Z.lxor (Z.lxor (rotr v2 7) (rotr v2 18)) (Z.shiftr v2 3) in
      schedule k' (w ++ [wrap32 (t1 + nth (i - 7) w 0 + t2 + nth (i - 16) w 0)])
  end.

(** One of the 64 rounds on [a..h], with [kw = (_K[i], w[i])]. *)
Definition round (s : digest) (kw : Z * Z) : digest :=
  let '(Digest a b c d e f g h) := s in
  let t1 := wrap32 (h + Z.lxor (Z.lxor (rotr e 6) (rotr e 11)) (rotr e 25)
                      + Z.lxor (Z.land e f) (Z.land (not32 e) g)
                      + kw.1 + kw.2) in
  let t2 := wrap32 (Z.lxor (Z.lxor (rotr a 2) (rotr a 13)) (rotr a 22)
                    + Z.lxor (Z.lxor (Z.land a b) (Z.land a c)) (Z.land b c)) in
  Digest (wrap32 (t1 + t2)) a b c (wrap32 (d + t1)) e f g.

(** The body of [blockGeneric] for one 64-byte chunk. *)
Definition block (dig : digest) (chunk : list byte) : digest :=
  let w := schedule 48 (words chunk) in
  let '(Digest a b c d e f g h) := fold_left round (combine _K w) dig in
  Digest (wrap32 (h0 dig + a)) (wrap32 (h1 dig + b)) (wrap32 (h2 dig + c))
         (wrap32 (h3 dig + d)) (wrap32 (h4 dig + e)) (wrap32 (h5 dig + f))
         (wrap32 (h6 dig + g)) (wrap32 (h7 dig + h)).

(** [for len(p) >= chunk { ...; p = p[chunk:] }]; [fuel] counts the bytes
    of [p], more than the chunks it holds. *)
Fixpoint blockGeneric (fuel : nat) (dig : digest) (p : list byte) : digest :=
  match fuel with
  | O => dig
  | S fuel' =>
      if decide (64 <= length p)%nat
      then blockGeneric fuel' (block dig (take 64 p)) (drop 64 p)
      else dig
  end.

(** [binary.BigEndian.PutUint32] and [PutUint64]. *)
Definition be32 (x : Z) : list byte :=
  [byte_of (Z.shiftr x 24); byte_of (Z.shiftr x 16);
   byte_of (Z.shiftr x 8); byte_of x].
Definition be64 (x : Z) : list byte :=
  be32 (Z.shiftr x 32) ++ be32 x.

(** The padding of [checkSum]: a 1 bit, 0 bits up to 56 bytes mod 64, the
    length in bits. *)
Definition padding (len : nat) : list byte :=
  let r := (len mod 64)%nat in
  let t := if decide (r < 56)%nat then (56 - r)%nat else (64 + 56 - r)%nat in
  x80 :: replicate (t - 1) x00 ++ be64 (Z.shiftl (Z.of_nat len) 3).

(** [sha256.Sum224(data)]: the first seven words of the final state. *)
Definition Sum224 (data : list byte) : list byte :=
  let p := data ++ padding (length data) in
  let d := blockGeneric (length p) init224 p in
  be32 (h0 d) ++ be32 (h1 d) ++ be32 (h2 d) ++ be32 (h3 d) ++
  be32 (h4 d) ++ be32 (h5 d) ++ be32 (h6 d).

End sha256.

(** ** net: IP addresses and connections *)

Module net.

Definition IPv4len : nat := 4.
Definition IPv6len : nat := 16.

(** [type IP []byte]; the nil IP is [[]]. *)
Abbreviation IP := (list byte).

Definition v4InV6Prefix : list byte :=
  [x00; x00; x00; x00; x00; x00; x00; x00; x00; x00; xff; xff].

(** [IPv4(a, b, c, d)]: the 16-byte form of an IPv4 address. *)
Definition IPv4 (a b c d : byte) : IP :=
  let p := fill (make IPv6len) v4InV6Prefix in
  <[15%nat := d]> (<[14%nat := c]> (<[13%nat := b]> (<[12%nat := a]> p))).

Definition isZeros (p : list byte) : bool :=
  forallb (fun b => bool_decide (b = x00)) p.

(** [ip.To4()]. *)
Definition To4 (ip : IP) : IP :=
  if decide (length ip = IPv4len) then ip
  else if bool_decide (length ip = IPv6len)
          && isZeros (take 10 ip)
          && bool_decide (at_ ip 10 = xff)
          && bool_decide (at_ ip 11 = xff)
  then take 4 (drop 12 ip)
  else [].

Definition between (lo c hi : byte) : bool :=
  (u8 lo <=? u8 c) && (u8 c <=? u8 hi).

Definition big : Z := 0xFFFFFF.

(** [dtoi(s)]: a decimal number at the start of [s], the number of
    characters it takes, and whether there is one. *)
Fixpoint dtoi_loop (s : list byte) (n : Z) (i : nat) : Z * nat * bool :=
  match s with
  | c :: s' =>
      if between "0" c "9" then
        let n := n * 10 + (u8 c - u8 "0") in
        if big <=? n then (big, i, false) else dtoi_loop s' n (S i)
      else if decide (i = 0%nat) then (0, 0%nat, false) else (n, i, true)
  | [] => if decide (i = 0%nat) then (0, 0%nat, false) else (n, i, true)
  end.
Definition dtoi (s : list byte) : Z * nat * bool := dtoi_loop s 0 0.

(** [xtoi(s)]: the same for a hexadecimal number. *)
Fixpoint xtoi_loop (s : list byte) (n : Z) (i : nat) : Z * nat * bool :=
  let stop := if decide (i = 0%nat) then (0, i, false) else (n, i, true) in
  match s with
  | c :: s' =>
      let digit :=
        if between "0" c "9" then Some (u8 c - u8 "0")
        else if between "a" c "f" then Some (u8 c - u8 "a" + 10)
        else if between "A" c "F" then Some (u8 c - u8 "A" + 10)
        else None in
      match digit with
      | Some v =>
          let n := n * 16 + v in
          if big <=? n then (0, i, false) else xtoi_loop s' n (S i)
      | None => stop
      end
  | [] => stop
  end.
Definition xtoi (s : list byte) : Z * nat * bool := xtoi_loop s 0 0.

(** The loop of [parseIPv4] over the octets [i = 4 - todo, ..., 3]; the
    result is the rest of [s] and the octets [p], [None] is [return nil]. *)
Fixpoint parseIPv4_loop (todo : nat) (s p : list byte)
    : option (list byte * list byte) :=
  match todo with
  | O => Some (s, p)
  | S todo' =>
      let i := (IPv4len - todo)%nat in
      if decide (length s = 0%nat) then None           (* missing octets *)
      else
        let dot := bool_decide (at_ s 0 = "."%byte) in
        if bool_decide (0 < i)%nat && negb dot then None
        else
          let s := if decide (0 < i)%nat then drop 1 s else s in
          let '(n, c, ok) := dtoi s in
          if negb ok || (0xFF <? n) then None
          else if bool_decide (1 < c)%nat && bool_decide (at_ s 0 = "0"%byte)
          then None                (* a component with leading zeroes *)
          else parseIPv4_loop todo' (drop c s) (<[i := byte_of n]> p)
  end.

Definition parseIPv4 (s : list byte) : IP :=
  match parseIPv4_loop IPv4len s (make IPv4len) with
  | None => []
  | Some (s, p) =>
      if decide (length s = 0%nat)
      then IPv4 (at_ p 0) (at_ p 1) (at_ p 2) (at_ p 3)
      else []
  end.

(** The state of [parseIPv6] when its loop is left: the rest of [s], the
    index [i], the position of the ellipsis ([-1] is [None]) and [ip]. *)
Definition v6state : Type := list byte * nat * option nat * IP.

(** The loop [for i < IPv6len] of [parseIPv6].  Every turn that does not
    leave the loop adds 2 to [i], so [i = IPv6len - 2 * left] where [left]
    counts the 16-bit groups still free.  [None] is [return nil]. *)
Fixpoint parseIPv6_loop (left : nat) (s : list byte) (ellipsis : option nat)
    (ip : IP) : option v6state :=
  match left with
  | O => Some (s, IPv6len, ellipsis, ip)
  | S left' =>
      let i := (IPv6len - 2 * left)%nat in
      let '(n, c, ok) := xtoi s in
      if negb ok || (0xFFFF <? n) then None
      else if bool_decide (c < length s)%nat
              && bool_decide (at_ s c = "."%byte)
      then
        (* followed by a dot: a trailing IPv4 address *)
        if bool_decide (ellipsis = None)
           && negb (bool_decide (i = IPv6len - IPv4len)%nat) then None
        else if decide (IPv6len < i + IPv4len)%nat then None
        else
          let ip4 := parseIPv4 s in
          if decide (length ip4 = 0%nat) then None
          else
            let ip := <[i := at_ ip4 12]> ip in
            let ip := <[S i := at_ ip4 13]> ip in
            let ip := <[S (S i) := at_ ip4 14]> ip in
            let ip := <[S (S (S i)) := at_ ip4 15]> ip in
            Some ([], (i + IPv4len)%nat, ellipsis, ip)
      else
        let ip := <[i := byte_of (Z.shiftr n 8)]> ip in
        let ip := <[S i := byte_of n]> ip in
        let i := (i + 2)%nat in
        let s := drop c s in
        if decide (length s = 0%nat) then Some (s, i, ellipsis, ip)
        else if negb (bool_decide (at_ s 0 = ":"%byte))
                || bool_decide (length s = 1%nat) then None
        else
          let s := drop 1 s in
          if decide (at_ s 0 = ":"%byte) then
            match ellipsis with
            | Some _ => None                       (* already have one *)
            | None =>
                let s := drop 1 s in
                if decide (length s = 0%nat) then Some (s, i, Some i, ip)
                else parseIPv6_loop left' s (Some i) ip
            end
          else parseIPv6_loop left' s ellipsis ip
  end.

(** The expansion of the ellipsis:
<<
    n := IPv6len - i
    for j := i - 1; j >= ellipsis; j-- { ip[j+n] = ip[j] }
    for j := ellipsis + n - 1; j >= ellipsis; j-- { ip[j] = 0 }
>> *)
Definition expand (i e : nat) (ip : IP) : IP :=
  let n := (IPv6len - i)%nat in
  let ip := foldl (fun ip j => <[(j + n)%nat := at_ ip j]> ip) ip
                  (reverse (seq e (i - e))) in
  foldl (fun ip j => <[j := x00]> ip) ip (reverse (seq e n)).

Definition parseIPv6 (s : list byte) : IP :=
  let ip := make IPv6len in
  let lead := bool_decide (2 <= length s)%nat
              && bool_decide (at_ s 0 = ":"%byte)
              && bool_decide (at_ s 1 = ":"%byte) in
  let ellipsis := if lead then Some 0%nat else None in
  let s := if lead then drop 2 s else s in
  if lead && bool_decide (length s = 0%nat) then ip   (* only the ellipsis *)
  else
    match parseIPv6_loop 8 s ellipsis ip with
    | None => []
    | Some (s, i, ellipsis, ip) =>
        if negb (bool_decide (length s = 0%nat)) then []
        else if decide (i < IPv6len)%nat then
          match ellipsis with
          | None => []
          | Some e => expand i e ip
          end
        else
          match ellipsis with
          | Some _ => []       (* the ellipsis must stand for a group *)
          | None => ip
          end
    end.

(** [net.ParseIP(s)], after [net/ip.go]: dotted decimal, IPv6, or
    IPv4-mapped IPv6; the nil IP when [s] is none of them. *)
Fixpoint ParseIP_scan (s rest : list byte) : IP :=
  match rest with
  | [] => []
  | c :: rest' =>
      if decide (c = "."%byte) then parseIPv4 s
      else if decide (c = ":"%byte) then parseIPv6 s
      else ParseIP_scan s rest'
  end.
Definition ParseIP (s : list byte) : IP := ParseIP_scan s s.

(** [ubtoa(dst, start, v)]: the decimal digits of a byte, as the bytes it
    stores from [dst[start]] on. *)
Definition ubtoa (v : byte) : list byte :=
  let n := u8 v in
  if n <? 10 then [byte_of (n + u8 "0")]
  else if n <? 100
  then [byte_of (n / 10 + u8 "0"); byte_of (n mod 10 + u8 "0")]
  else [byte_of (n / 100 + u8 "0"); byte_of ((n / 10) mod 10 + u8 "0");
        byte_of (n mod 10 + u8 "0")].

Definition hexDigit : list byte := str "0123456789abcdef".

(** [appendHex(dst, i)]: [i] in hexadecimal without leading zeros,
<<
    if i == 0 { return append(dst, '0') }
    for j := 7; j >= 0; j-- {
      v := i >> uint(j*4)
      if v > 0 { dst = append(dst, hexDigit[v&0xf]) }
    }
>> *)
Definition appendHex (dst : list byte) (i : Z) : list byte :=
  if decide (i = 0) then dst ++ ["0"%byte]
  else
    foldl (fun dst j =>
             let v := Z.shiftr i (Z.of_nat j * 4) in
             if 0 <? v then dst ++ [at_ hexDigit (Z.to_nat (Z.land v 0xf))]
             else dst)
          dst (reverse (seq 0 8)).

(** [hexString(b)]. *)
Definition hexString (b : list byte) : list byte :=
  flat_map (fun tn => [at_ hexDigit (Z.to_nat (Z.shiftr (u8 tn) 4));
                       at_ hexDigit (Z.to_nat (Z.land (u8 tn) 0xf))]) b.

(** [for j < IPv6len && p[j] == 0 && p[j+1] == 0 { j += 2 }]: the end of
    the run of zero groups that starts at [j]; at most 8 turns. *)
Fixpoint zero_run (turns : nat) (p : IP) (j : nat) : nat :=
  match turns with
  | O => j
  | S turns' =>
      if bool_decide (j < IPv6len)%nat && bool_decide (at_ p j = x00)
         && bool_decide (at_ p (S j) = x00)
      then zero_run turns' p (j + 2) else j
  end.

(** The search for the longest run of zero groups,
<<
    for i := 0; i < IPv6len; i += 2 {
      j := i
      for j < IPv6len && p[j] == 0 && p[j+1] == 0 { j += 2 }
      if j > i && j-i > e1-e0 { e0 = i; e1 = j; i = j }
    }
>>
    at most 8 turns, each adding 2 or more to [i]. *)
Fixpoint longest_run (turns : nat) (p : IP) (i : nat) (e0 e1 : Z) : Z * Z :=
  match turns with
  | O => (e0, e1)
  | S turns' =>
      if decide (i < IPv6len)%nat then
        let j := zero_run 8 p i in
        if bool_decide (i < j)%nat && (e1 - e0 <? Z.of_nat j - Z.of_nat i)
        then longest_run turns' p (j + 2) (Z.of_nat i) (Z.of_nat j)
        else longest_run turns' p (i + 2) e0 e1
      else (e0, e1)
  end.

(** The loop that prints the groups, with "::" in place of the run
    [e0, e1). *)
Fixpoint print_groups (turns : nat) (p : IP) (e0 e1 : Z) (i : nat)
    (b : list byte) : list byte :=
  match turns with
  | O => b
  | S turns' =>
      if decide (i < IPv6len)%nat then
        let group i :=
          Z.lor (Z.shiftl (u8 (at_ p i)) 8) (u8 (at_ p (S i))) in
        if decide (Z.of_nat i = e0) then
          let b := b ++ [":"%byte; ":"%byte] in
          let i := Z.to_nat e1 in
          if decide (IPv6len <= i)%nat then b
          else print_groups turns' p e0 e1 (i + 2) (appendHex b (group i))
        else
          let b := if decide (0 < i)%nat then b ++ [":"%byte] else b in
          print_groups turns' p e0 e1 (i + 2) (appendHex b (group i))
      else b
  end.

(** [func (ip IP) String() string], after [net/ip.go]: dotted decimal for
    an IPv4 address in either form, else the groups of an IPv6 address
    with the longest run of two or more zero groups as "::". *)
Definition IP_String (ip : IP) : list byte :=
  if decide (length ip = 0%nat) then str "<nil>"
  else
    let p4 := To4 ip in
    if decide (length p4 = IPv4len) then
      ubtoa (at_ p4 0) ++ ["."%byte] ++ ubtoa (at_ p4 1) ++ ["."%byte]
      ++ ubtoa (at_ p4 2) ++ ["."%byte] ++ ubtoa (at_ p4 3)
    else if decide (length ip ≠ IPv6len) then "?"%byte :: hexString ip
    else
      let '(e0, e1) := longest_run 8 ip 0 (-1) (-1) in
      (* "::" is not used to shorten just one 16 bit 0 field *)
      let '(e0, e1) := if e1 - e0 <=? 2 then (-1, -1) else (e0, e1) in
      print_groups 8 ip e0 e1 0 [].

(** [bytealg.IndexByteString(s, c)]: the first index of [c] in [s], or
    -1. *)
Fixpoint IndexByteString_from (s : list byte) (c : byte) (i : Z) : Z :=
  match s with
  | [] => -1
  | b :: s' => if decide (b = c) then i else IndexByteString_from s' c (i + 1)
  end.
Definition IndexByteString (s : list byte) (c : byte) : Z :=
  IndexByteString_from s c 0.

(** [last(s, b)]: the index of the last [b] in [s], or -1. *)
Fixpoint last_from (s : list byte) (b : byte) (i : Z) : Z :=
  match s with
  | [] => -1
  | c :: s' =>
      let r := last_from s' b (i + 1) in
      if 0 <=? r then r else if decide (c = b) then i else -1
  end.
Definition last (s : list byte) (b : byte) : Z := last_from s b 0.

(** [net.SplitHostPort(hostport)], after [net/ipsock.go]: the host, the
    port and the error; the error is an [*AddrError] with its reason. *)
Definition SplitHostPort (hostport : list byte)
    : list byte * list byte * option error :=
  let missingPort := "missing port in address"%string in
  let tooManyColons := "too many colons in address"%string in
  let addrErr (why : string) : list byte * list byte * option error :=
    ([], [], Some (ErrNet why)) in
  (* The port starts after the last colon. *)
  let i := last hostport ":" in
  if i <? 0 then addrErr missingPort
  else
    let rest (host : list byte) (j k : nat) :=
      if 0 <=? IndexByteString (drop j hostport) "["
      then addrErr "unexpected '[' in address"%string
      else if 0 <=? IndexByteString (drop k hostport) "]"
      then addrErr "unexpected ']' in address"%string
      else (host, drop (Z.to_nat (i + 1)) hostport, None) in
    if decide (at_ hostport 0 = "["%byte) then
      (* Expect the first ']' just before the last ':'. *)
      let end_ := IndexByteString hostport "]" in
      if end_ <? 0 then addrErr "missing ']' in address"%string
      else if end_ + 1 =? Z.of_nat (length hostport)
      then addrErr missingPort   (* there can't be a ':' behind the ']' now *)
      else if end_ + 1 =? i
      then rest (take (Z.to_nat end_ - 1) (drop 1 hostport)) 1%nat
                (Z.to_nat (end_ + 1))
      else if decide (at_ hostport (Z.to_nat (end_ + 1)) = ":"%byte)
      then addrErr tooManyColons
      else addrErr missingPort
    else
      let host := take (Z.to_nat i) hostport in
      if 0 <=? IndexByteString host ":" then addrErr tooManyColons
      else rest host 0%nat 0%nat.

(** *** Connections

    What one [Read] call meets on the wire: the bytes that have arrived
    and the error that follows them (none while the peer is still
    there).  A call with a buffer shorter than the arrived bytes takes
    what fits and leaves the rest for the next call. *)
Inductive arrival := Ev (bs : list byte) (err : option error).

(** What one [Write] call meets: how many bytes the connection takes at
    most, and the error it reports. *)
Definition outcome : Type := nat * option error.

(** A [net.Conn]: the arrivals still to be read, the outcomes of the
    coming writes (every write succeeds in full once they are used up),
    the bytes sent so far, and whether [Close] has been called. *)
Record Conn := MkConn {
  rx : list arrival;
  wx : list outcome;
  tx : list byte;
  closed : bool
}.

Definition Conn_Read (c : Conn) (n : nat) : io.result * Conn :=
  if closed c then (([], Some ErrClosed), c)
  else
    match rx c with
    | [] => (([], Some EOF), c)
    | Ev bs err :: evs =>
        if decide (length bs <= n)%nat
        then ((bs, err), MkConn evs (wx c) (tx c) (closed c))
        else ((take n bs, None),
              MkConn (Ev (drop n bs) err :: evs) (wx c) (tx c) (closed c))
    end.

Definition Conn_Write (c : Conn) (p : list byte)
    : (nat * option error) * Conn :=
  if closed c then ((0%nat, Some ErrClosed), c)
  else
    match wx c with
    | [] => ((length p, None), MkConn (rx c) [] (tx c ++ p) (closed c))
    | (k, err) :: ws =>
        let n := (k `min` length p)%nat in
        ((n, err), MkConn (rx c) ws (tx c ++ take n p) (closed c))
    end.

Definition Close (c : Conn) : Conn := MkConn (rx c) (wx c) (tx c) true.

(** A connection just accepted or dialed, with these arrivals ahead and
    these outcomes for its writes. *)
Definition fresh (arrivals : list arrival) (outcomes : list outcome) : Conn :=
  MkConn arrivals outcomes [] false.

#[global] Instance Conn_Reader : io.Reader Conn :=
  {| io.Read := Conn_Read; io.backlog := fun c => length (rx c) |}.

#[global] Instance Conn_Writer : io.Writer Conn :=
  {| io.Write := Conn_Write |}.

(** The bytes that have arrived and are not read yet, in order. *)
Definition pending (c : Conn) : list byte :=
  flat_map (fun ev => match ev with Ev bs _ => bs end) (rx c).

End net.

Abbreviation Data bs := (net.Ev bs None).

(** ** strconv *)

Module strconv.

Definition digits : list byte := str "0123456789abcdefghijklmnopqrstuvwxyz".

(** [smallsString]: the two digits of every number below 100, "00" to
    "99", one pair after the other. *)
Definition smallsString : list byte :=
  flat_map (fun n => [at_ digits (n / 10); at_ digits (n mod 10)]) (seq 0 100).

(** [small(i)] for [0 <= i < nSmalls = 100]. *)
Definition small (i : Z) : list byte :=
  if i <? 10 then [at_ digits (Z.to_nat i)]
  else [at_ smallsString (Z.to_nat (i * 2));
        at_ smallsString (Z.to_nat (i * 2 + 1))].

(** The loop of [formatBits] in base 10, two digits at a time from the
    end of its buffer of 65 bytes:
<<
    for us >= 100 {
      is := us % 100 * 2; us /= 100; i -= 2
      a[i+1] = smallsString[is+1]; a[i+0] = smallsString[is+0]
    }
>> *)
Fixpoint formatBits_loop (room : nat) (us : Z) (a : list byte)
    : Z * list byte :=
  match room with
  | O => (us, a)
  | S room' =>
      if 100 <=? us then
        let is_ := Z.to_nat (us mod 100 * 2) in
        formatBits_loop room' (us / 100)
          (at_ smallsString is_ :: at_ smallsString (S is_) :: a)
      else (us, a)
  end.

(** [strconv.Itoa(i)], that is [FormatInt(int64(i), 10)]: [small] below
    100, else [formatBits]. *)
Definition Itoa (i : Z) : list byte :=
  if (0 <=? i) && (i <? 100) then small i
  else
    let neg := i <? 0 in
    let u := if neg then - i else i in
    let '(us, a) := formatBits_loop 32 u [] in
    let is_ := Z.to_nat (us * 2) in
    let a := at_ smallsString (S is_) :: a in
    let a := if 10 <=? us then at_ smallsString is_ :: a else a in
    if neg then "-"%byte :: a else a.

(** The reason of a [*NumError]. *)
Inductive NumError := ErrSyntax | ErrRange.

Definition maxUint64 : Z := 2 ^ 64 - 1.

(** [lower(c)]: [c | ('x' - 'X')]. *)
Definition lower (c : byte) : byte := byte_of (Z.lor (u8 c) 0x20).

(** The loop of [ParseUint(s, 10, 64)] over the bytes of [s]: [inl] is
    [n] at its end, [inr] what the loop returns. *)
Fixpoint ParseUint_loop (s : list byte) (n : Z)
    : Z + Z * NumError :=
  match s with
  | [] => inl n
  | c :: s' =>
      let d :=
        if net.between "0" c "9" then Some (u8 c - u8 "0")
        else if net.between "a" (lower c) "z"
        then Some (u8 (lower c) - u8 "a" + 10)
        else None in
      match d with
      | None => inr (0, ErrSyntax)
      | Some d =>
          if 10 <=? d then inr (0, ErrSyntax)
          else if maxUint64 / 10 + 1 <=? n        (* n*base overflows *)
          then inr (maxUint64, ErrRange)
          else
            let n1 := n * 10 + d in
            if maxUint64 <? n1 then inr (maxUint64, ErrRange)  (* n+d overflows *)
            else ParseUint_loop s' n1
      end
  end.

(** [ParseUint(s, 10, 64)]. *)
Definition ParseUint (s : list byte) : Z * option NumError :=
  if decide (s = []) then (0, Some ErrSyntax)
  else
    match ParseUint_loop s 0 with
    | inl n => (n, None)
    | inr (n, err) => (n, Some err)
    end.

(** [ParseInt(s, 10, 0)] where [int] has 64 bits. *)
Definition ParseInt (s : list byte) : Z * option NumError :=
  if decide (s = []) then (0, Some ErrSyntax)
  else
    (* Pick off leading sign. *)
    let neg := bool_decide (at_ s 0 = "-"%byte) in
    let s := if bool_decide (at_ s 0 = "+"%byte) || neg then drop 1 s else s in
    (* Convert unsigned and check range. *)
    let '(un, err) := ParseUint s in
    match err with
    | Some ErrSyntax => (0, err)             (* an error that is not ErrRange *)
    | _ =>
        let cutoff := 2 ^ 63 in
        if negb neg && (cutoff <=? un) then (cutoff - 1, Some ErrRange)
        else if neg && (cutoff <? un) then (- cutoff, Some ErrRange)
        else (if neg then - un else un, None)
    end.

(** The fast path of [Atoi] over the bytes after the sign: [ch -= '0'] in
    [uint8], [None] for a byte that is no digit. *)
Fixpoint Atoi_loop (s : list byte) (n : Z) : option Z :=
  match s with
  | [] => Some n
  | ch :: s' =>
      let ch := (u8 ch - u8 "0") mod 256 in
      if 9 <? ch then None else Atoi_loop s' (n * 10 + ch)
  end.

(** [strconv.Atoi(s)] where [int] has 64 bits: the value and the
    error. *)
Definition Atoi (s : list byte) : Z * option NumError :=
  let sLen := length s in
  if bool_decide (0 < sLen)%nat && bool_decide (sLen < 19)%nat then
    (* Fast path for small integers that fit int type. *)
    let s0 := s in
    let signed :=
      bool_decide (at_ s 0 = "-"%byte) || bool_decide (at_ s 0 = "+"%byte) in
    let s := if signed then drop 1 s else s in
    if signed && bool_decide (length s < 1)%nat then (0, Some ErrSyntax)
    else
      match Atoi_loop s 0 with
      | None => (0, Some ErrSyntax)
      | Some n => (if bool_decide (at_ s0 0 = "-"%byte) then - n else n, None)
      end
  else
    (* Slow path for invalid, big, or underscored integers. *)
    ParseInt s.

End strconv.


(** ** strings *)

Module strings.

(** [asciiSpace]: tab, line feed, vertical tab, form feed, carriage
    return, space. *)
Definition asciiSpace (c : byte) : bool :=
  bool_decide (c ∈ [x09; x0a; x0b; x0c; x0d; x20]).

(** [strings.TrimSpace(s) == ""]: every character of [s] is white space
    for [unicode.IsSpace].  Past ASCII these are, in UTF-8, U+0085 and
    U+00A0 (C2 85, C2 A0), U+1680 (E1 9A 80), U+2000 to U+200A, U+2028,
    U+2029 and U+202F (E2 80 80 to 8A, A8, A9, AF), U+205F (E2 81 9F) and
    U+3000 (E3 80 80); a byte that starts no valid encoding decodes to
    U+FFFD, which is no space. *)
Fixpoint TrimSpace_empty (s : list byte) : bool :=
  match s with
  | [] => true
  | c :: s1 =>
      if asciiSpace c then TrimSpace_empty s1
      else
        match s1 with
        | [] => false
        | c1 :: s2 =>
            if bool_decide (c = xc2)
            then (bool_decide (c1 = x85) || bool_decide (c1 = xa0))
                 && TrimSpace_empty s2
            else
              match s2 with
              | [] => false
              | c2 :: s3 =>
                  (bool_decide (c = xe1) && bool_decide (c1 = x9a)
                   && bool_decide (c2 = x80)
                   || bool_decide (c = xe2) && bool_decide (c1 = x80)
                      && ((0x80 <=? u8 c2) && (u8 c2 <=? 0x8a)
                          || bool_decide (c2 ∈ [xa8; xa9; xaf]))
                   || bool_decide (c = xe2) && bool_decide (c1 = x81)
                      && bool_decide (c2 = x9f)
                   || bool_decide (c = xe3) && bool_decide (c1 = x80)
                      && bool_decide (c2 = x80))
                  && TrimSpace_empty s3
              end
        end
  end.

End strings.

(** ** pkg/teeconn *)

Module teeconn.

(** Modelled from the spec: the repository's [pkg/teeconn] is not among
    the sources.  The spec's PeekReplayConnection "records bytes read
    from the underlying connection into a buffer while peek mode is
    active" (the default from construction); [Stop] freezes the buffer;
    [Reread] "resets the read cursor so that the next read calls are
    served from the buffer first, then transparently fall through to the
    underlying connection once the buffer is exhausted".  [replay] holds
    the buffered bytes still to be served again. *)
Record Conn := MkConn {
  under : net.Conn;
  buf : list byte;
  peeking : bool;
  replay : list byte
}.

Definition New (c : net.Conn) : Conn := MkConn c [] true [].

Definition Read (t : Conn) (n : nat) : io.result * Conn :=
  match replay t with
  | _ :: _ =>
      ((take n (replay t), None),
       MkConn (under t) (buf t) (peeking t) (drop n (replay t)))
  | [] =>
      let '((bs, err), c') := io.Read (under t) n in
      ((bs, err),
       MkConn c' (if peeking t then buf t ++ bs else buf t) (peeking t) [])
  end.

Definition Stop (t : Conn) : Conn :=
  MkConn (under t) (buf t) false (replay t).

Definition Reread (t : Conn) : Conn :=
  MkConn (under t) (buf t) (peeking t) (buf t).

Definition Close (t : Conn) : Conn :=
  MkConn (net.Close (under t)) (buf t) (peeking t) (replay t).

#[global] Instance Conn_Reader : io.Reader Conn :=
  {| io.Read := Read;
     io.backlog := fun t => (length (replay t) + io.backlog (under t))%nat |}.

(** The server's view of a connection just accepted, with these arrivals
    ahead. *)
Definition accept (arrivals : list net.arrival) : Conn :=
  New (net.fresh arrivals []).

(** [t] is open, replays nothing, and has exactly these arrivals ahead. *)
Definition ahead (t : Conn) (arrivals : list net.arrival) : Prop :=
  replay t = [] /\ net.closed (under t) = false /\ net.rx (under t) = arrivals.

(** Two connections that will deliver the same bytes and errors from now
    on, whatever they have recorded or sent. *)
Definition same_wire (a b : Conn) : Prop :=
  replay a = replay b /\ net.closed (under a) = net.closed (under b)
  /\ net.rx (under a) = net.rx (under b).

(** From [t] to [t'] nothing was written and nothing closed, and while
    [t] peeks and replays nothing, no byte was lost: what [t'] has
    recorded, then what is still to be read, is what it was for [t]. *)
Definition only_read (t t' : Conn) : Prop :=
  net.tx (under t') = net.tx (under t)
  /\ net.wx (under t') = net.wx (under t)
  /\ net.closed (under t') = net.closed (under t)
  /\ peeking t' = peeking t
  /\ (peeking t = true -> replay t = [] ->
      replay t' = []
      /\ buf t' ++ net.pending (under t') = buf t ++ net.pending (under t)).

End teeconn.

(** ** transport/trojan *)

Module trojan.

Definition headLen : nat := 56 + 2 + 1 + 1.

Module staticHead.
Record t := Mk { Passwd : list byte; CRLF : list byte; CMD : byte; ATYP : byte }.
End staticHead.

Module ipv4Addr.
Record t := Mk { ADDR : list byte; PORT : Z; CRLF : list byte }.
End ipv4Addr.

Module ipv6Addr.
Record t := Mk { ADDR : list byte; PORT : Z; CRLF : list byte }.
End ipv6Addr.

Module domain.
Record t := Mk { ADDR : list byte; PORT : Z; CRLF : list byte }.
(** [&domain{}]. *)
Definition zero : t := Mk [] 0 (make 2).
End domain.

(** The layout of the three fixed-size structs under [binary.Read]. *)
#[global] Instance staticHead_Fixed : binary.Fixed staticHead.t :=
  {| binary.dataSize := 56 + 2 + 1 + 1;
     binary.decode b :=
       staticHead.Mk (take 56 b) (take 2 (drop 56 b)) (at_ b 58) (at_ b 59) |}.

#[global] Instance ipv4Addr_Fixed : binary.Fixed ipv4Addr.t :=
  {| binary.dataSize := 4 + 2 + 2;
     binary.decode b :=
       ipv4Addr.Mk (take 4 b) (binary.Uint16 (drop 4 b)) (take 2 (drop 6 b)) |}.

#[global] Instance ipv6Addr_Fixed : binary.Fixed ipv6Addr.t :=
  {| binary.dataSize := 16 + 2 + 2;
     binary.decode b :=
       ipv6Addr.Mk (take 16 b) (binary.Uint16 (drop 16 b)) (take 2 (drop 18 b)) |}.

(** The [net.Addr] that [Unwrap] returns: one of the three structs. *)
Inductive Addr :=
| IPv4 (a : ipv4Addr.t)
| IPv6 (a : ipv6Addr.t)
| Domain (a : domain.t).

(** [func (a *domain) Fulfill(r io.Reader) error]: the error and [*a]
    after the call. *)
Definition Fulfill {R} `{io.Reader R} (a : domain.t) (r : R)
    : (option error * domain.t) * R :=
  let '((buf, err), r) := io.Read r 1 in
  if bool_decide (err ≠ None) || bool_decide (length buf ≠ 1%nat)
  then ((errors.New "read domain length failed", a), r)
  else
    let addrLen := Z.to_nat (u8 (at_ buf 0)) in
    let '((got, err), r) := io.Read r (addrLen + 4) in
    let buf := fill (make (addrLen + 4)) got in
    if bool_decide (err ≠ None) || bool_decide (length got ≠ (addrLen + 4)%nat)
    then ((errors.Wrap err "read doamin failed", a), r)
    else
      ((None,
        domain.Mk (take addrLen buf)
                  (port_of (at_ buf addrLen) (at_ buf (addrLen + 1)))
                  (domain.CRLF a)), r).

Record Trojan := MkTrojan {
  headPasswd : list byte;
  headIPv4 : list byte;
  headIPv6 : list byte;
  headDomain : list byte
}.

(** [New(password)].  [headPasswd] has length and capacity 56, so each
    [append] to it allocates: the three heads are separate slices. *)
Definition New (password : list byte) : Trojan :=
  let passSum := sha256.Sum224 password in
  let headPasswd := fill (make 56) (hex.Encode passSum) in
  MkTrojan headPasswd
           (headPasswd ++ [x0d; x0a; x01; x01])
           (headPasswd ++ [x0d; x0a; x01; x04])
           (headPasswd ++ [x0d; x0a; x01; x03]).

(** [func (t *Trojan) Unwrap(conn *teeconn.Conn) net.Addr]: the address
    ([None] for nil) and the connection after the call. *)
Definition Unwrap (t : Trojan) (conn : teeconn.Conn)
    : option Addr * teeconn.Conn :=
  (* do not use io.ReadFull to avoid hang *)
  let '((got, err), conn) := io.Read conn headLen in
  let buf := fill (make headLen) got in
  if bool_decide (err ≠ None) || bool_decide (length got ≠ headLen)
  then (None, conn)
  else
    match binary.Read staticHead.t (bytes.NewBuffer buf) with
    | (inr _, _) => (None, conn)
    | (inl head, _) =>
        if negb (bytes.Equal (staticHead.Passwd head) (headPasswd t))
        then (None, conn)
        else
          let head := staticHead.Mk (staticHead.Passwd head)
                        (staticHead.CRLF head) (at_ buf 58) (at_ buf 59) in
          if decide (staticHead.ATYP head = x01) then          (* ipv4 *)
            match binary.Read ipv4Addr.t conn with
            | (inr _, conn) => (None, conn)
            | (inl addr, conn) => (Some (IPv4 addr), conn)
            end
          else if decide (staticHead.ATYP head = x04) then     (* ipv6 *)
            match binary.Read ipv6Addr.t conn with
            | (inr _, conn) => (None, conn)
            | (inl addr, conn) => (Some (IPv6 addr), conn)
            end
          else if decide (staticHead.ATYP head = x03) then     (* domain *)
            match Fulfill domain.zero conn with
            | ((Some _, _), conn) => (None, conn)
            | ((None, addr), conn) => (Some (Domain addr), conn)
            end
          else (None, conn)
    end.

(** The frame that [Wrap] builds in [buf].  The slices [make] allocates
    are dropped at once for the result of [append]; [append] writes past
    the 60 bytes of a precomputed head and leaves those bytes as they
    are. *)
Definition frame (t : Trojan) (tgtHost : list byte) (tgtPort : Z)
    : list byte :=
  let ip := net.ParseIP tgtHost in
  let buf :=
    if decide (length (net.To4 ip) ≠ 0%nat)
    then headIPv4 t ++ net.To4 ip
    else if decide (length ip ≠ 0%nat)
    then headIPv6 t ++ ip
    else (headDomain t ++ [byte_of (Z.of_nat (length tgtHost))]) ++ tgtHost in
  buf ++ [byte_of (Z.shiftr tgtPort 8); byte_of tgtPort; x0d; x0a].

(** [func (t *Trojan) Wrap(conn net.Conn, tgtHost string, tgtPort uint16)
    error]. *)
Definition Wrap (t : Trojan) (conn : net.Conn) (tgtHost : list byte)
    (tgtPort : Z) : option error * net.Conn :=
  let buf := frame t tgtHost tgtPort in
  let '((n, err), conn) := io.Write conn buf in
  if bool_decide (err ≠ None) || bool_decide (n ≠ length buf)
  then (Some (ErrWrite n), conn)
  else (None, conn).

End trojan.

(** ** transport: the interface of the backends *)

Module transport.

(** A value of the interface [transport.Transport], as the dialer uses
    it: its [Wrap] method. *)
Record Transport := MkTransport {
  Wrap : net.Conn -> list byte -> Z -> option error * net.Conn
}.

Definition of_trojan (t : trojan.Trojan) : Transport :=
  MkTransport (trojan.Wrap t).

End transport.

(** ** cmd/sower: the dialer and the HTTP front-end *)

Module main.

(** The connections the process has opened so far; a connection is known
    by its position. *)
Abbreviation world := (list net.Conn).
Abbreviation fd := nat.

(** The connections of the world that have not been closed. *)
Definition open_conns (w : world) : list net.Conn :=
  filter (fun c => net.closed c = false) w.

(** [router.ProxyDialFn]. *)
Definition ProxyDialFn : Type :=
  list byte -> list byte -> Z -> world -> (fd + error) * world.

(** [net.JoinHostPort]. *)
Definition JoinHostPort (host port : list byte) : list byte :=
  if bool_decide (":"%byte ∈ host)
  then str "[" ++ host ++ str "]:" ++ port
  else host ++ str ":" ++ port.

(** The closure that [GenProxyDial] returns, over the [proxy] and the
    [dialFn] it has chosen. *)
Definition ProxyDial (proxy : transport.Transport)
    (dialFn : list byte -> Z -> net.Conn + error) : ProxyDialFn :=
  fun network host port w =>
    if bool_decide (host = []) || bool_decide (port = 0)
    then (inr (ErrAddr host port), w)
    else
      match dialFn host port with
      | inr err => (inr err, w)
      | inl conn =>
          let '(err, conn) := transport.Wrap proxy conn host port in
          match err with
          | Some err => (inr err, w ++ [net.Close conn])
          | None => (inl (length w), w ++ [conn])
          end
      end.

(** [conf.Remote]. *)
Record Remote := MkRemote {
  Type_ : list byte;
  Addr : list byte;
  User : list byte;
  Password : list byte
}.

Section GenProxyDial.

(** The other backends and the dialers of the Go library, which are not
    part of these sources. *)
Variable conf_Remote : Remote.
Variable sower_New : list byte -> transport.Transport.
Variable socks5_New : transport.Transport.
Variable ssh_New : transport.Transport.
Variable tls_Dial : list byte -> net.Conn + error.
Variable net_Dial : list byte -> net.Conn + error.
Variable ssh_Dial : list byte -> option (list byte -> Z -> net.Conn + error).

(** [GenProxyDial(proxyType, proxyHost, proxyPassword)]; [None] is
    [log.Fatal].  The switch is on [conf.Remote.Type], and the password
    is [conf.Remote.Password].  The dialer of the SSH client takes the
    host and the port that the code joins into one address. *)
Definition GenProxyDial (proxyType proxyHost proxyPassword : list byte)
    : option ProxyDialFn :=
  let ty := Type_ conf_Remote in
  if decide (ty = str "sower") then
    Some (ProxyDial (sower_New (Password conf_Remote))
            (fun host port => tls_Dial (JoinHostPort proxyHost (str "443"))))
  else if decide (ty = str "trojan") then
    Some (ProxyDial (transport.of_trojan (trojan.New (Password conf_Remote)))
            (fun host port => tls_Dial (JoinHostPort proxyHost (str "443"))))
  else if decide (ty = str "socks5") then
    Some (ProxyDial socks5_New (fun host port => net_Dial proxyHost))
  else if decide (ty = str "sshd") then
    match ssh_Dial proxyHost with
    | None => None                        (* connect to sshd failed *)
    | Some sshClient_Dial => Some (ProxyDial ssh_New sshClient_Dial)
    end
  else None.                                    (* unknown proxy type *)

End GenProxyDial.

(** What [ServeHTTP] asks of its collaborators, in order. *)
Inductive event :=
| CallProxyDial (network host : list byte) (port : Z)
| CallRelay (rc : fd)
| LogError (msg : string)
| LogDebug (msg : string)
| LogFatal (msg : string).

Definition is_dial (ev : event) : Prop :=
  match ev with CallProxyDial _ _ _ => True | _ => False end.

(** [http.Request], the field that [ServeHTTP] reads. *)
Record Request := MkRequest { Host : list byte }.

Section ServeHTTP.

(** [http.ReadRequest] over the buffered connection, the router's
    [ProxyDial] and [relay.Relay]: not part of these sources. *)
Variable ReadRequest : teeconn.Conn -> (Request + error) * teeconn.Conn.
Variable r_ProxyDial : ProxyDialFn.
Variable Relay : teeconn.Conn -> fd -> world -> teeconn.Conn * world.

Definition close_fd (rc : fd) (w : world) : world :=
  match w !! rc with
  | Some c => <[rc := net.Close c]> w
  | None => w
  end.

(** The body of [ServeHTTP] for one accepted connection: the events,
    the client connection and the world at its end. *)
Definition serve (conn : net.Conn) (w : world)
    : list event * teeconn.Conn * world :=
  let tee := teeconn.New conn in
  match ReadRequest tee with
  | (inr err, tee) =>
      ([LogError "read http request"], teeconn.Close tee, w)
  | (inl req, tee) =>
      match r_ProxyDial (str "tcp") (Host req) 80 w with
      | (inr err, w) =>
          ([CallProxyDial (str "tcp") (Host req) 80; LogError "dial proxy"],
           teeconn.Close tee, w)
      | (inl rc, w) =>
          let tee := teeconn.Reread (teeconn.Stop tee) in
          let '(tee, w) := Relay tee rc w in
          ([CallProxyDial (str "tcp") (Host req) 80; CallRelay rc;
            LogDebug "serve http"],
           teeconn.Close tee, close_fd rc w)
      end
  end.

(** [ServeHTTP(ln, r)] over what the listener's [Accept] calls return.
    The goroutine started for the next connection is run after the
    present one; an empty list is an [Accept] that never returns. *)
Fixpoint ServeHTTP (ln : list (net.Conn + error)) (w : world)
    : list event * world :=
  match ln with
  | [] => ([], w)
  | inr err :: _ => ([LogFatal "serve socks5"], w)
  | inl conn :: ln' =>
      let '(evs, _, w) := serve conn w in
      let '(evs', w) := ServeHTTP ln' w in
      (evs ++ evs', w)
  end.

End ServeHTTP.

(** [tls.ClientHelloInfo], the field that [ServeHTTPS] reads. *)
Record ClientHelloInfo := MkClientHelloInfo { ServerName : list byte }.

Section ServeHTTPS.

(** [tls.Server(teeconn, cfg).Handshake()], not part of these sources:
    the ClientHello it hands to [cfg.GetConfigForClient], when it gets
    that far, its error, and the connection after it. *)
Variable Handshake :
  teeconn.Conn -> (option ClientHelloInfo * option error) * teeconn.Conn.
Variable r_ProxyDial : ProxyDialFn.
Variable Relay : teeconn.Conn -> fd -> world -> teeconn.Conn * world.

(** The body of [ServeHTTPS] for one accepted connection.  [domain] is
    the empty string until the callback stores the server name; the
    error of [Handshake] is dropped. *)
Definition serveHTTPS (conn : net.Conn) (w : world)
    : list event * teeconn.Conn * world :=
  let tee := teeconn.New conn in
  let '((hello, _), tee) := Handshake tee in
  let domain :=
    match hello with Some hello => ServerName hello | None => [] end in
  match r_ProxyDial (str "tcp") domain 443 w with
  | (inr err, w) =>
      ([CallProxyDial (str "tcp") domain 443; LogError "dial proxy"],
       teeconn.Close tee, w)
  | (inl rc, w) =>
      let tee := teeconn.Reread (teeconn.Stop tee) in
      let '(tee, w) := Relay tee rc w in
      ([CallProxyDial (str "tcp") domain 443; CallRelay rc;
        LogDebug "serve http"],
       teeconn.Close tee, close_fd rc w)
  end.

(** [ServeHTTPS(ln, r)], like [ServeHTTP]. *)
Fixpoint ServeHTTPS (ln : list (net.Conn + error)) (w : world)
    : list event * world :=
  match ln with
  | [] => ([], w)
  | inr err :: _ => ([LogFatal "serve socks5"], w)
  | inl conn :: ln' =>
      let '(evs, _, w) := serveHTTPS conn w in
      let '(evs', w) := ServeHTTPS ln' w in
      (evs ++ evs', w)
  end.

End ServeHTTPS.

(** The loading of a rule file by [loadRules], with its retries:
<<
    rc, err := loadFn()
    for i := time.Duration(1); i < 10; i++ {
      if err == nil { break }
      time.Sleep(i * i * 100 * time.Millisecond)
      rc, err = loadFn()
    }
>>
    [loadFn k] is what the call number [k] of [loadFn] returns, counted
    from 0.  The result is the last [rc] and [err], the time slept in
    milliseconds and the number of calls made; [log.Fatal] follows when
    the result is an error. *)
Fixpoint loadRules_retry {RC} (loadFn : nat -> RC + error) (turns : nat)
    (i : Z) (r : RC + error) (slept : Z) (calls : nat)
    : (RC + error) * Z * nat :=
  match turns with
  | O => (r, slept, calls)
  | S turns' =>
      if i <? 10 then
        match r with
        | inl _ => (r, slept, calls)
        | inr _ =>
            loadRules_retry loadFn turns' (i + 1) (loadFn calls)
              (slept + i * i * 100) (S calls)
        end
      else (r, slept, calls)
  end.

Definition loadRules_load {RC} (loadFn : nat -> RC + error)
    : (RC + error) * Z * nat :=
  loadRules_retry loadFn 9 1 (loadFn 0%nat) 0 1.

(** The loop of [loadRules] over what the successive calls of
    [br.ReadLine()] return, each a line and an error:
<<
    line, _, err := br.ReadLine()
    if err == io.EOF { break } else if err != nil { ...; return nil }
    if strings.TrimSpace(string(line)) == "" { continue }
    lines = append(lines, linePrefix+string(line))
>>
    A reader that has nothing more to return is at the end of its
    file. *)
Fixpoint loadRules_lines (reads : list (list byte * option error))
    (linePrefix : list byte) (lines : list (list byte)) : list (list byte) :=
  match reads with
  | [] => lines
  | (line, err) :: reads' =>
      match err with
      | Some err => if is_EOF err then lines else []
      | None =>
          if strings.TrimSpace_empty line
          then loadRules_lines reads' linePrefix lines
          else loadRules_lines reads' linePrefix (lines ++ [linePrefix ++ line])
      end
  end.

(** The [Dial] of the HTTP client that [loadRules] fetches a rule file
    with:
<<
    domain, port, _ := net.SplitHostPort(addr)
    p, _ := strconv.Atoi(port)
    return proxyDial("tcp", domain, uint16(p))
>> *)
Definition loadRules_Dial (proxyDial : ProxyDialFn) (network addr : list byte)
    : world -> (fd + error) * world :=
  let '(domain, port, _) := net.SplitHostPort addr in
  let '(p, _) := strconv.Atoi port in
  proxyDial (str "tcp") domain (wrap16 p).

End main.

(** ** transport/trojan: the addresses as [net.Addr] *)

Module addr.

(** [Network()] and [String()] of the three structs; they stand here
    because of [net.JoinHostPort]. *)
Definition ipv4Addr_String (a : trojan.ipv4Addr.t) : list byte :=
  main.JoinHostPort (net.IP_String (trojan.ipv4Addr.ADDR a))
                    (strconv.Itoa (trojan.ipv4Addr.PORT a)).

Definition ipv6Addr_String (a : trojan.ipv6Addr.t) : list byte :=
  main.JoinHostPort (net.IP_String (trojan.ipv6Addr.ADDR a))
                    (strconv.Itoa (trojan.ipv6Addr.PORT a)).

Definition domain_String (a : trojan.domain.t) : list byte :=
  main.JoinHostPort (trojan.domain.ADDR a)
                    (strconv.Itoa (trojan.domain.PORT a)).

Definition Network (a : trojan.Addr) : list byte := str "tcp".

Definition String (a : trojan.Addr) : list byte :=
  match a with
  | trojan.IPv4 a => ipv4Addr_String a
  | trojan.IPv6 a => ipv6Addr_String a
  | trojan.Domain a => domain_String a
  end.

End addr.


(** ** Decimal numerals *)

Module numeral.

(** The number that a string of decimal digits stands for. *)
Definition decimal (digits : list byte) : Z :=
  foldl (fun n c => n * 10 + (u8 c - u8 "0")) 0 digits.

(** [digits] is the decimal numeral of [p], of one to five digits: only
    digits, of that value, without a leading zero. *)
Definition canonical (p : Z) (digits : list byte) : bool :=
  forallb (fun c => net.between "0" c "9") digits
  && (decimal digits =? p)
  && Nat.leb 1 (length digits) && Nat.leb (length digits) 5
  && (Nat.leb (length digits) 1
      || negb (bool_decide (head digits = Some "0"%byte))).

(** [f] holds of the [n] numbers from [p] on. *)
Fixpoint all_from (n : nat) (p : Z) (f : Z -> bool) : bool :=
  match n with
  | O => true
  | S n' => f p && all_from n' (p + 1) f
  end.

End numeral.

(** ** Sample inputs *)

Module sample.

Definition t : trojan.Trojan := trojan.New (str "password").

(** The frames for the two scenarios of the spec. *)
Definition frame_ipv4 : list byte := trojan.frame t (str "93.184.216.34") 443.
Definition frame_domain : list byte := trojan.frame t (str "example.com") 8080.

(** [frame_ipv4] with other bytes in place of the first CRLF, and with
    another command byte. *)
Definition frame_bad_crlf : list byte :=
  <[56%nat := "X"%byte]> (<[57%nat := "Y"%byte]> frame_ipv4).
Definition frame_cmd (cmd : byte) : list byte := <[58%nat := cmd]> frame_ipv4.

(** A name of 256 bytes. *)
Definition long_name : list byte := replicate 256 "a"%byte.

(** A dialer whose connections take 10 bytes and then fail, and one
    whose connections take everything. *)
Definition dial_flaky (host : list byte) (port : Z) : net.Conn + error :=
  inl (net.fresh [] [(10%nat, Some (ErrNet "connection reset"))]).
Definition dial_good (host : list byte) (port : Z) : net.Conn + error :=
  inl (net.fresh [] []).

(** A request parser that finds the Host "example.com:8080", and a relay
    that returns at once. *)
Definition read_request (tee : teeconn.Conn)
    : (main.Request + error) * teeconn.Conn :=
  (inl (main.MkRequest (str "example.com:8080")), tee).
Definition relay (tee : teeconn.Conn) (rc : nat) (w : list net.Conn)
    : teeconn.Conn * list net.Conn := (tee, w).

(** A handshake that gets the server name "example.com" and then fails
    for want of a certificate. *)
Definition handshake (tee : teeconn.Conn)
    : (option main.ClientHelloInfo * option error) * teeconn.Conn :=
  ((Some (main.MkClientHelloInfo (str "example.com")),
    Some (ErrNet "no certificates configured")), tee).

(** A request parser that takes the first segment on the connection for
    the Host, and fails at the end of the stream. *)
Definition read_host (tee : teeconn.Conn)
    : (main.Request + error) * teeconn.Conn :=
  match net.rx (teeconn.under tee) with
  | net.Ev host _ :: _ => (inl (main.MkRequest host), tee)
  | [] => (inr EOF, tee)
  end.

(** A handshake that takes the first segment for the server name, and
    fails before the ClientHello at the end of the stream. *)
Definition read_hello (tee : teeconn.Conn)
    : (option main.ClientHelloInfo * option error) * teeconn.Conn :=
  match net.rx (teeconn.under tee) with
  | net.Ev name _ :: _ =>
      ((Some (main.MkClientHelloInfo name),
        Some (ErrNet "no certificates configured")), tee)
  | [] => ((None, Some EOF), tee)
  end.

(** A dialer that keeps a record of what it is asked: the connection it
    opens has "network host port" as the bytes sent. *)
Definition dial_record : main.ProxyDialFn :=
  fun network host port w =>
    (inl (length w),
     w ++ [net.MkConn [] []
             (network ++ str " " ++ host ++ str " " ++ strconv.Itoa port)
             false]).

(** [conf.Remote] for a Trojan server. *)
Definition remote : main.Remote :=
  main.MkRemote (str "trojan") (str "proxy.example.org") [] (str "password").

End sample.

(** * Properties *)

(** ** Bytes *)

Lemma u8_range (b : byte) : 0 <= u8 b < 256.
Proof.
  unfold u8. pose proof (Byte.to_N_bounded b) as Hb. lia.
Qed.

Lemma u8_byte_of (x : Z) : u8 (byte_of x) = x mod 256.
Proof.
  unfold u8, byte_of.
  assert (Hr : 0 <= x mod 256 < 256) by (apply Z.mod_pos_bound; lia).
  destruct (Byte.of_N (Z.to_N (x mod 256))) as [b|] eqn:E.
  - apply Byte.to_of_N in E. simpl. rewrite E. lia.
  - apply Byte.of_N_None_iff in E. lia.
Qed.

Lemma byte_of_u8 (b : byte) : byte_of (u8 b) = b.
Proof.
  unfold byte_of, u8.
  pose proof (Byte.to_N_bounded b) as Hb.
  rewrite Z.mod_small by lia.
  rewrite N2Z.id, Byte.of_to_N. reflexivity.
Qed.

Lemma u8_inj (a b : byte) : u8 a = u8 b -> a = b.
Proof.
  intros H. rewrite <- (byte_of_u8 a), <- (byte_of_u8 b). now rewrite H.
Qed.

Lemma length_make (n : nat) : length (make n) = n.
Proof. apply length_replicate. Qed.

Lemma fill_full (dst src : list byte) :
  length src = length dst -> fill dst src = src.
Proof.
  intros H. unfold fill.
  rewrite <- H, firstn_all, drop_ge by lia. apply app_nil_r.
Qed.

Lemma fill_make (n : nat) (src : list byte) :
  length src = n -> fill (make n) src = src.
Proof. intros H. apply fill_full. now rewrite length_make. Qed.

(** The 16-bit port survives its two big-endian bytes. *)
Lemma port_bytes (p : Z) :
  0 <= p < 65536 ->
  port_of (byte_of (Z.shiftr p 8)) (byte_of p) = p.
Proof.
  intros Hp. unfold port_of, wrap16.
  rewrite !u8_byte_of, Z.shiftl_mul_pow2, Z.shiftr_div_pow2 by lia.
  change (2 ^ 8) with 256.
  assert (0 <= p / 256 < 256) by (split; [apply Z.div_pos | apply Z.div_lt_upper_bound]; lia).
  rewrite (Z.mod_small (p / 256)) by lia.
  pose proof (Z.mod_pos_bound p 256 ltac:(lia)).
  rewrite (Z.mod_small (p / 256 * 256)) by lia.
  rewrite Z.mod_small by lia.
  pose proof (Z.div_mod p 256 ltac:(lia)). lia.
Qed.

Lemma Uint16_port (p : Z) (rest : list byte) :
  0 <= p < 65536 ->
  binary.Uint16 (byte_of (Z.shiftr p 8) :: byte_of p :: rest) = p.
Proof.
  intros Hp. unfold binary.Uint16, at_, wrap16. simpl nth.
  rewrite !u8_byte_of, Z.shiftl_mul_pow2, Z.shiftr_div_pow2 by lia.
  change (2 ^ 8) with 256.
  assert (0 <= p / 256 < 256) by (split; [apply Z.div_pos | apply Z.div_lt_upper_bound]; lia).
  rewrite (Z.mod_small (p / 256)) by lia.
  pose proof (Z.mod_pos_bound p 256 ltac:(lia)).
  rewrite (Z.mod_small (p / 256 * 256)) by lia.
  rewrite Z.lor_comm, <- Z.add_nocarry_lor.
  - pose proof (Z.div_mod p 256 ltac:(lia)). lia.
  - apply Z.bits_inj'. intros n Hn. rewrite Z.land_spec, Z.bits_0.
    destruct (Z.lt_ge_cases n 8) as [Hlt|Hge].
    + replace (p / 256 * 256) with (Z.shiftl (p / 256) 8)
        by (rewrite Z.shiftl_mul_pow2 by lia; reflexivity).
      rewrite Z.shiftl_spec_low by lia. reflexivity.
    + change (p mod 256) with (p mod 2 ^ 8).
      rewrite (Z.mod_pow2_bits_high p 8 n) by lia. apply andb_false_r.
Qed.

(** ** The secret *)

(** The model of [sha256.Sum224] on the test vectors of FIPS 180-4. *)
Example Sum224_empty :
  hex.Encode (sha256.Sum224 []) =
  str "d14a028c2a3a2bc9476102bb288234c415a2b01f828ea62ac5b3e42f".
Proof. vm_compute. reflexivity. Qed.

Example Sum224_abc :
  hex.Encode (sha256.Sum224 (str "abc")) =
  str "23097d223405d8228642a477bda255b32aadbce4bda0b3f7e36c9da7".
Proof. vm_compute. reflexivity. Qed.

Example Sum224_two_blocks :
  hex.Encode (sha256.Sum224
    (str "abcdbcdecdefdefgefghfghighijhijkijkljklmklmnlmnomnopnopq")) =
  str "75388b16512776cc5dba5da1fd890150b0c6455cb4f58b1952522525".
Proof. vm_compute. reflexivity. Qed.

Lemma length_Encode (src : list byte) :
  length (hex.Encode src) = (2 * length src)%nat.
Proof.
  unfold hex.Encode. induction src as [|v src IH]; simpl; [reflexivity|].
  rewrite IH. lia.
Qed.

Lemma length_Sum224 (data : list byte) : length (sha256.Sum224 data) = 28%nat.
Proof.
  unfold sha256.Sum224. cbv zeta. rewrite !length_app. reflexivity.
Qed.

Lemma headPasswd_New (password : list byte) :
  trojan.headPasswd (trojan.New password) = hex.Encode (sha256.Sum224 password).
Proof.
  unfold trojan.New. cbv zeta. simpl trojan.headPasswd.
  apply fill_make. rewrite length_Encode, length_Sum224. reflexivity.
Qed.

Lemma length_headPasswd (password : list byte) :
  length (trojan.headPasswd (trojan.New password)) = 56%nat.
Proof. rewrite headPasswd_New, length_Encode, length_Sum224. reflexivity. Qed.

Lemma heads_New (password : list byte) :
  let t := trojan.New password in
  trojan.headIPv4 t = trojan.headPasswd t ++ [x0d; x0a; x01; x01]
  /\ trojan.headIPv6 t = trojan.headPasswd t ++ [x0d; x0a; x01; x04]
  /\ trojan.headDomain t = trojan.headPasswd t ++ [x0d; x0a; x01; x03].
Proof. repeat split. Qed.

(** ** Reading from a connection *)

Section Reading.

Import teeconn.

(** One [Read] of [n] bytes when an arrival is ahead: it takes what fits
    in the buffer; the error of the arrival comes with its last byte. *)
Lemma Read_arrival (c : Conn) (n : nat) bs e evs :
  ahead c (net.Ev bs e :: evs) ->
  exists c',
    io.Read c n =
      ((take n bs, if decide (length bs <= n)%nat then e else None), c')
    /\ ahead c' (if decide (length bs <= n)%nat then evs
                 else net.Ev (drop n bs) e :: evs).
Proof.
  intros (Hr & Hc & Hx). destruct c as [[rx wx tx cl] buf pk rp].
  simpl in *. subst. unfold Read. cbn.
  destruct (decide (length bs <= n)%nat) as [Hle|Hgt].
  - rewrite firstn_all2 by lia. eexists. split; [reflexivity|].
    repeat split.
  - eexists. split; [reflexivity|]. repeat split.
Qed.


Lemma ahead_backlog (c : Conn) evs : ahead c evs -> io.backlog c = length evs.
Proof. intros (Hr & Hc & Hx). simpl. rewrite Hr, Hx. reflexivity. Qed.

Lemma ahead_accept evs : ahead (accept evs) evs.
Proof. repeat split. Qed.

(** [ReadAtLeast] is done as soon as it holds [min] bytes. *)
Lemma ReadAtLeast_done {R} `{io.Reader R} fuel (r : R) acc size min :
  (min <= length acc)%nat ->
  io.ReadAtLeast_loop fuel r acc size min = ((acc, None), r).
Proof.
  intros Hle. destruct fuel; simpl; destruct (decide _); try reflexivity; lia.
Qed.

(** One turn of the loop of [ReadAtLeast]. *)
Lemma ReadAtLeast_step {R} `{io.Reader R} fuel (r : R) acc size min bs err r' :
  ~ (min <= length acc)%nat ->
  io.Read r (size - length acc) = ((bs, err), r') ->
  io.ReadAtLeast_loop (S fuel) r acc size min =
    match err with
    | None => io.ReadAtLeast_loop fuel r' (acc ++ bs) size min
    | Some e =>
        if decide (min <= length (acc ++ bs))%nat then ((acc ++ bs, None), r')
        else if decide (0 < length (acc ++ bs))%nat
        then ((acc ++ bs, Some (if is_EOF e then ErrUnexpectedEOF else e)), r')
        else ((acc ++ bs, Some e), r')
    end.
Proof.
  intros Hn Hrd. simpl. destruct (decide _) as [?|_]; [lia|].
  rewrite Hrd. reflexivity.
Qed.

(** [io.ReadFull] keeps reading: when the bytes arrive in fragments, it
    returns the first [size] of them, over as many reads as it takes. *)
Lemma ReadAtLeast_fragments frags : forall fuel (c : Conn) acc size evs,
  ahead c (map (fun f => Data f) frags ++ evs) ->
  (length frags < fuel)%nat ->
  (length acc <= size <= length acc + length (concat frags))%nat ->
  exists c',
    io.ReadAtLeast_loop fuel c acc size size
      = ((take size (acc ++ concat frags), None), c').
Proof.
  induction frags as [|f fs IH]; intros fuel c acc size evs Hc Hfuel Hsz.
  - simpl in Hsz. rewrite ReadAtLeast_done by lia.
    exists c. rewrite app_nil_r, firstn_all2 by lia. reflexivity.
  - destruct (decide (size <= length acc)%nat) as [Hd|Hd].
    { rewrite ReadAtLeast_done by lia. exists c.
      rewrite take_app_le, firstn_all2 by lia. reflexivity. }
    destruct fuel as [|fuel]; [simpl in Hfuel; lia|].
    simpl in Hc.
    destruct (Read_arrival c (size - length acc) _ _ _ Hc) as (c1 & Hrd & Hc1).
    rewrite (ReadAtLeast_step _ _ _ _ _ _ _ _ Hd Hrd).
    simpl in Hsz. rewrite length_app in Hsz.
    destruct (decide (length f <= size - length acc)%nat) as [Hf|Hf].
    + rewrite firstn_all2 by lia.
      destruct (IH fuel c1 (acc ++ f) size evs Hc1) as (c' & Hl).
      { simpl in Hfuel. lia. }
      { rewrite length_app. lia. }
      exists c'. simpl concat. rewrite app_assoc. exact Hl.
    + rewrite ReadAtLeast_done by (rewrite length_app, length_take; lia).
      exists c1. f_equal. f_equal. simpl concat.
      rewrite (take_app_ge acc) by lia.
      rewrite take_app_le by lia. reflexivity.
Qed.

Lemma ReadFull_fragments frags (c : Conn) size evs :
  ahead c (map (fun f => Data f) frags ++ evs) ->
  (size <= length (concat frags))%nat ->
  exists c', io.ReadFull c size = ((take size (concat frags), None), c').
Proof.
  intros Hc Hsz. unfold io.ReadFull.
  apply (ReadAtLeast_fragments frags (S (io.backlog c)) c [] size evs Hc).
  - rewrite (ahead_backlog _ _ Hc), length_app, length_map. lia.
  - simpl. lia.
Qed.



End Reading.

(** ** What [Unwrap] looks at *)

Section Wire.

Import teeconn.

Lemma same_wire_refl (a : Conn) : same_wire a a.
Proof. repeat split. Qed.

Lemma ahead_same_wire (a b : Conn) evs : ahead a evs -> ahead b evs -> same_wire a b.
Proof.
  intros (Ha1 & Ha2 & Ha3) (Hb1 & Hb2 & Hb3). unfold same_wire.
  rewrite Ha1, Ha2, Ha3, Hb1, Hb2, Hb3. auto.
Qed.

(** A [Read] returns the same on two connections with the same wire, and
    leaves them with the same wire. *)
Lemma Read_same_wire (a b : Conn) (n : nat) :
  same_wire a b ->
  (io.Read a n).1 = (io.Read b n).1
  /\ same_wire (io.Read a n).2 (io.Read b n).2.
Proof.
  destruct a as [[rxa wxa txa cla] bufa pka rpa].
  destruct b as [[rxb wxb txb clb] bufb pkb rpb].
  intros (Hr & Hc & Hx). simpl in *. subst.
  unfold Read. cbn. destruct rpb as [|r rp]; cbn.
  - destruct clb; cbn; [repeat split|].
    destruct rxb as [|[bs e] evs]; cbn; [repeat split|].
    destruct (decide _); repeat split.
  - repeat split.
Qed.

Lemma same_wire_backlog (a b : Conn) : same_wire a b -> io.backlog a = io.backlog b.
Proof. intros (Hr & Hc & Hx). simpl. now rewrite Hr, Hx. Qed.

Lemma ReadAtLeast_same_wire fuel : forall (a b : Conn) acc size min,
  same_wire a b ->
  (io.ReadAtLeast_loop fuel a acc size min).1
    = (io.ReadAtLeast_loop fuel b acc size min).1
  /\ same_wire (io.ReadAtLeast_loop fuel a acc size min).2
               (io.ReadAtLeast_loop fuel b acc size min).2.
Proof.
  induction fuel as [|fuel IH]; intros a b acc size min Hab.
  { simpl. destruct (decide _); auto. }
  destruct (decide (min <= length acc)%nat) as [Hd|Hd].
  { rewrite !ReadAtLeast_done by exact Hd. auto. }
  destruct (Read_same_wire a b (size - length acc) Hab) as [H1 H2].
  destruct (io.Read a (size - length acc)) as [[bsa ea] a'] eqn:Ea.
  destruct (io.Read b (size - length acc)) as [[bsb eb] b'] eqn:Eb.
  simpl in H1, H2. injection H1 as -> ->.
  rewrite (ReadAtLeast_step fuel a acc size min _ _ _ Hd Ea).
  rewrite (ReadAtLeast_step fuel b acc size min _ _ _ Hd Eb).
  destruct eb as [e|]; [|apply IH; exact H2].
  repeat destruct (decide _); auto.
Qed.

Lemma ReadFull_same_wire (a b : Conn) size :
  same_wire a b ->
  (io.ReadFull a size).1 = (io.ReadFull b size).1
  /\ same_wire (io.ReadFull a size).2 (io.ReadFull b size).2.
Proof.
  intros Hab. unfold io.ReadFull. rewrite (same_wire_backlog a b Hab).
  apply ReadAtLeast_same_wire, Hab.
Qed.

Lemma binary_Read_same_wire A `{binary.Fixed A} (a b : Conn) :
  same_wire a b ->
  (binary.Read A a).1 = (binary.Read A b).1.
Proof.
  intros Hab. unfold binary.Read.
  destruct (ReadFull_same_wire a b binary.dataSize Hab) as [H1 _].
  destruct (io.ReadFull a binary.dataSize) as [[bsa ea] a'].
  destruct (io.ReadFull b binary.dataSize) as [[bsb eb] b'].
  simpl in H1. injection H1 as -> ->. destruct eb; reflexivity.
Qed.

Lemma Fulfill_same_wire d (a b : Conn) :
  same_wire a b ->
  (trojan.Fulfill d a).1 = (trojan.Fulfill d b).1.
Proof.
  intros Hab. unfold trojan.Fulfill.
  destruct (Read_same_wire a b 1 Hab) as [H1 H2].
  destruct (io.Read a 1) as [[bsa ea] a'].
  destruct (io.Read b 1) as [[bsb eb] b'].
  simpl in H1, H2. injection H1 as -> ->.
  destruct (_ || _); [reflexivity|].
  set (n := (Z.to_nat (u8 (at_ bsb 0)) + 4)%nat).
  destruct (Read_same_wire a' b' n H2) as [H3 H4].
  destruct (io.Read a' n) as [[bsa2 ea2] a2].
  destruct (io.Read b' n) as [[bsb2 eb2] b2].
  simpl in H3. injection H3 as -> ->.
  destruct (_ || _); reflexivity.
Qed.

(** The structured read of the 60 bytes of the head from the buffer. *)
Lemma Read_staticHead (got : list byte) :
  length got = trojan.headLen ->
  (binary.Read trojan.staticHead.t (bytes.NewBuffer got)).1
    = inl (trojan.staticHead.Mk (take 56 got) (take 2 (drop 56 got))
                                (at_ got 58) (at_ got 59)).
Proof.
  intros Hlen. unfold binary.Read, io.ReadFull.
  assert (Hrd : io.Read (bytes.NewBuffer got) (trojan.headLen - length (@nil byte))
                = ((got, None), bytes.NewBuffer (drop trojan.headLen got))).
  { destruct got as [|g0 got]; [discriminate|].
    cbn -[take drop trojan.headLen]. unfold bytes.Buffer_Read.
    cbn -[take drop trojan.headLen].
    rewrite Nat.sub_0_r, firstn_all2 by lia. reflexivity. }
  change (@binary.dataSize trojan.staticHead.t _) with trojan.headLen.
  rewrite (ReadAtLeast_step (io.backlog (bytes.NewBuffer got))
             (bytes.NewBuffer got) [] trojan.headLen trojan.headLen _ _ _
             ltac:(simpl; unfold trojan.headLen; lia) Hrd).
  rewrite ReadAtLeast_done by (simpl; lia). reflexivity.
Qed.

(** After its single read of the head, [Unwrap] gives up, or reads the
    address of the announced type from the connection as that read has
    left it. *)
Lemma Unwrap_head t (c : Conn) got err c' :
  io.Read c trojan.headLen = ((got, err), c') ->
  trojan.Unwrap t c =
    if bool_decide (err ≠ None) || bool_decide (length got ≠ trojan.headLen)
    then (None, c')
    else if negb (bytes.Equal (take 56 got) (trojan.headPasswd t))
    then (None, c')
    else if decide (at_ got 59 = x01) then
      match binary.Read trojan.ipv4Addr.t c' with
      | (inr _, conn) => (None, conn)
      | (inl addr, conn) => (Some (trojan.IPv4 addr), conn)
      end
    else if decide (at_ got 59 = x04) then
      match binary.Read trojan.ipv6Addr.t c' with
      | (inr _, conn) => (None, conn)
      | (inl addr, conn) => (Some (trojan.IPv6 addr), conn)
      end
    else if decide (at_ got 59 = x03) then
      match trojan.Fulfill trojan.domain.zero c' with
      | ((Some _, _), conn) => (None, conn)
      | ((None, addr), conn) => (Some (trojan.Domain addr), conn)
      end
    else (None, c').
Proof.
  intros Hrd. unfold trojan.Unwrap. rewrite Hrd.
  destruct (bool_decide (err ≠ None)); [reflexivity|]. simpl orb.
  destruct (bool_decide_reflect (length got ≠ trojan.headLen)) as [|Hlen];
    [reflexivity|].
  assert (Hl : length got = trojan.headLen)
    by (destruct (decide (length got = trojan.headLen)); tauto).
  rewrite (fill_make _ _ Hl).
  pose proof (Read_staticHead got Hl) as Hh.
  destruct (binary.Read trojan.staticHead.t (bytes.NewBuffer got)) as [r b].
  simpl in Hh. subst r. reflexivity.
Qed.

End Wire.

(** ** The head: short reads, the secret, the bytes that are not checked *)

Lemma at_lookup (b : list byte) (i : nat) : at_ b i = default x00 (b !! i).
Proof. unfold at_. apply nth_lookup. Qed.

(** The result of [Unwrap] depends on the head only through its first 56
    bytes and its last one. *)
Lemma Unwrap_head_relevant t (c1 c2 : teeconn.Conn) got1 got2 err c1' c2' :
  io.Read c1 trojan.headLen = ((got1, err), c1') ->
  io.Read c2 trojan.headLen = ((got2, err), c2') ->
  length got1 = length got2 ->
  take 56 got1 = take 56 got2 ->
  at_ got1 59 = at_ got2 59 ->
  teeconn.same_wire c1' c2' ->
  (trojan.Unwrap t c1).1 = (trojan.Unwrap t c2).1.
Proof.
  intros H1 H2 Hlen Hpw Hty Hw.
  rewrite (Unwrap_head t c1 _ _ _ H1), (Unwrap_head t c2 _ _ _ H2).
  rewrite Hlen, Hpw, Hty.
  destruct (_ || _); [reflexivity|].
  destruct (negb _); [reflexivity|].
  destruct (decide (at_ got2 59 = x01)).
  { pose proof (binary_Read_same_wire trojan.ipv4Addr.t c1' c2' Hw) as E.
    destruct (binary.Read _ c1') as [[?|?] ?], (binary.Read _ c2') as [[?|?] ?];
      simpl in *; congruence. }
  destruct (decide (at_ got2 59 = x04)).
  { pose proof (binary_Read_same_wire trojan.ipv6Addr.t c1' c2' Hw) as E.
    destruct (binary.Read _ c1') as [[?|?] ?], (binary.Read _ c2') as [[?|?] ?];
      simpl in *; congruence. }
  destruct (decide (at_ got2 59 = x03)); [|reflexivity].
  pose proof (Fulfill_same_wire trojan.domain.zero c1' c2' Hw) as E.
  destruct (trojan.Fulfill _ c1') as [[[?|] ?] ?],
           (trojan.Fulfill _ c2') as [[[?|] ?] ?]; simpl in *; congruence.
Qed.

(** C4: [Unwrap] reads the head with one [Read] and wants all of its 60
    bytes from it: when that read delivers fewer than 60 bytes, or a head
    whose address-type byte (offset 59) is none of 0x01, 0x03, 0x04,
    [Unwrap] returns nil, and the connection is as that one read left it:
    nothing more has been read. *)
Theorem Unwrap_single_head_read t (c : teeconn.Conn) got err c' :
  io.Read c trojan.headLen = ((got, err), c') ->
  (length got < trojan.headLen)%nat
  \/ (at_ got 59 <> x01 /\ at_ got 59 <> x03 /\ at_ got 59 <> x04) ->
  trojan.Unwrap t c = (None, c').
Proof.
  intros Hrd Hbad. rewrite (Unwrap_head t c _ _ _ Hrd).
  destruct (bool_decide (err ≠ None)); [reflexivity|]. simpl orb.
  destruct (bool_decide_reflect (length got ≠ trojan.headLen)) as [|Hlen];
    [reflexivity|].
  destruct Hbad as [Hshort|(H1 & H3 & H4)].
  { destruct (decide (length got = trojan.headLen)); [lia|tauto]. }
  destruct (negb _); [reflexivity|].
  repeat (destruct (decide _); [contradiction|]). reflexivity.
Qed.

(** A head that arrives as 59 bytes and then the rest is refused, and the
    rest is still ahead. *)
Lemma Unwrap_single_head_read_witness :
  let c := teeconn.accept [Data (take 59 sample.frame_ipv4);
                           Data (drop 59 sample.frame_ipv4)] in
  (length (take 59 sample.frame_ipv4) < trojan.headLen)%nat
  /\ (trojan.Unwrap sample.t c).1 = None
  /\ net.rx (teeconn.under (trojan.Unwrap sample.t c).2)
     = [Data (drop 59 sample.frame_ipv4)].
Proof.
  intros c.
  assert (Hlt : (length (take 59 sample.frame_ipv4) < trojan.headLen)%nat)
    by (vm_compute; lia).
  split; [exact Hlt|].
  assert (Hrd : io.Read c trojan.headLen
                = ((take 59 sample.frame_ipv4, None), (io.Read c trojan.headLen).2))
    by (vm_compute; reflexivity).
  rewrite (Unwrap_single_head_read sample.t c _ _ _ Hrd (or_introl Hlt)).
  split; [reflexivity | vm_compute; reflexivity].
Defined.

(** C3: when the first 56 bytes that arrive differ from the configured
    secret in at least one place, [Unwrap] returns nil, whatever the
    address type and the bytes after it. *)
Theorem Unwrap_rejects_wrong_secret t (c : teeconn.Conn) got err c' :
  io.Read c trojan.headLen = ((got, err), c') ->
  (exists i, (i < 56)%nat /\ got !! i <> trojan.headPasswd t !! i) ->
  trojan.Unwrap t c = (None, c').
Proof.
  intros Hrd (i & Hi & Hne). rewrite (Unwrap_head t c _ _ _ Hrd).
  destruct (_ || _); [reflexivity|].
  unfold bytes.Equal.
  destruct (bool_decide_reflect (take 56 got = trojan.headPasswd t)) as [E|];
    [|reflexivity].
  exfalso. apply Hne. rewrite <- E. symmetry. apply lookup_take_lt. exact Hi.
Qed.

(** A frame that is right but for the first byte of its secret. *)
Lemma Unwrap_rejects_wrong_secret_witness :
  let c := teeconn.accept [Data ("X"%byte :: drop 1 sample.frame_ipv4)] in
  (exists i, (i < 56)%nat
     /\ take 60 ("X"%byte :: drop 1 sample.frame_ipv4) !! i
        <> trojan.headPasswd sample.t !! i)
  /\ (trojan.Unwrap sample.t c).1 = None.
Proof.
  intros c.
  assert (Hne : exists i, (i < 56)%nat
     /\ take 60 ("X"%byte :: drop 1 sample.frame_ipv4) !! i
        <> trojan.headPasswd sample.t !! i).
  { exists 0%nat. split; [lia|]. vm_compute. discriminate. }
  split; [exact Hne|].
  assert (Hrd : io.Read c trojan.headLen
                = ((take 60 ("X"%byte :: drop 1 sample.frame_ipv4), None),
                   (io.Read c trojan.headLen).2))
    by (vm_compute; reflexivity).
  rewrite (Unwrap_rejects_wrong_secret sample.t c _ _ _ Hrd Hne). reflexivity.
Defined.

(** C9: [Unwrap] never looks at the command byte (offset 58): two
    connections whose heads agree everywhere but there, and that deliver
    the same bytes after the head, get the same result, whether that byte
    is CONNECT, UDP-ASSOCIATE or anything else. *)
Theorem Unwrap_ignores_command t (c1 c2 : teeconn.Conn) got1 got2 err c1' c2' :
  io.Read c1 trojan.headLen = ((got1, err), c1') ->
  io.Read c2 trojan.headLen = ((got2, err), c2') ->
  length got1 = length got2 ->
  (forall i, i <> 58%nat -> got1 !! i = got2 !! i) ->
  teeconn.same_wire c1' c2' ->
  (trojan.Unwrap t c1).1 = (trojan.Unwrap t c2).1.
Proof.
  intros H1 H2 Hlen Hagree Hw.
  apply (Unwrap_head_relevant t c1 c2 got1 got2 err c1' c2'); auto.
  - apply list_eq. intros i. destruct (decide (i < 56)%nat).
    + rewrite !lookup_take_lt by lia. apply Hagree. lia.
    + rewrite !lookup_take_ge by lia. reflexivity.
  - rewrite !at_lookup, Hagree by lia. reflexivity.
Qed.

(** The IPv4 frame of the spec with command byte 0x7f decodes as it does
    with CONNECT: to 93.184.216.34, port 443. *)
Lemma Unwrap_ignores_command_witness :
  let c1 := teeconn.accept [Data (sample.frame_cmd x7f)] in
  let c2 := teeconn.accept [Data sample.frame_ipv4] in
  (trojan.Unwrap sample.t c1).1 = (trojan.Unwrap sample.t c2).1
  /\ (trojan.Unwrap sample.t c1).1
     = Some (trojan.IPv4 (trojan.ipv4Addr.Mk
               [byte_of 93; byte_of 184; byte_of 216; byte_of 34] 443
               [x0d; x0a])).
Proof.
  intros c1 c2.
  assert (E : (trojan.Unwrap sample.t c1).1 = (trojan.Unwrap sample.t c2).1).
  { apply (Unwrap_ignores_command sample.t c1 c2
             (take 60 (sample.frame_cmd x7f)) (take 60 sample.frame_ipv4) None
             (io.Read c1 trojan.headLen).2 (io.Read c2 trojan.headLen).2).
    - vm_compute; reflexivity.
    - vm_compute; reflexivity.
    - vm_compute; reflexivity.
    - intros i Hi. unfold sample.frame_cmd.
      rewrite !lookup_take. destruct (decide (i < 60)%nat); [|reflexivity].
      apply list_lookup_insert_ne. congruence.
    - vm_compute. repeat split. }
  split; [exact E|]. rewrite E. vm_compute. reflexivity.
Defined.

(** C7, as stated, fails: the frame of the spec's IPv4 scenario with "XY"
    in place of the CRLF at offsets 56 and 57 is decoded, to the same
    address. *)
Lemma Unwrap_accepts_bad_crlf :
  take 2 (drop 56 sample.frame_bad_crlf) = ["X"%byte; "Y"%byte]
  /\ take 56 sample.frame_bad_crlf = trojan.headPasswd sample.t
  /\ (trojan.Unwrap sample.t (teeconn.accept [Data sample.frame_bad_crlf])).1
     = Some (trojan.IPv4 (trojan.ipv4Addr.Mk
               [byte_of 93; byte_of 184; byte_of 216; byte_of 34] 443
               [x0d; x0a])).
Proof. vm_compute. repeat split. Qed.

(** C7, amended: [Unwrap] never looks at the two bytes at offsets 56 and
    57: two connections whose heads agree everywhere but there, and that
    deliver the same bytes after the head, get the same result. *)
Theorem Unwrap_ignores_head_crlf t (c1 c2 : teeconn.Conn) got1 got2 err c1' c2' :
  io.Read c1 trojan.headLen = ((got1, err), c1') ->
  io.Read c2 trojan.headLen = ((got2, err), c2') ->
  length got1 = length got2 ->
  (forall i, i <> 56%nat -> i <> 57%nat -> got1 !! i = got2 !! i) ->
  teeconn.same_wire c1' c2' ->
  (trojan.Unwrap t c1).1 = (trojan.Unwrap t c2).1.
Proof.
  intros H1 H2 Hlen Hagree Hw.
  apply (Unwrap_head_relevant t c1 c2 got1 got2 err c1' c2'); auto.
  - apply list_eq. intros i. destruct (decide (i < 56)%nat).
    + rewrite !lookup_take_lt by lia. apply Hagree; lia.
    + rewrite !lookup_take_ge by lia. reflexivity.
  - rewrite !at_lookup, Hagree by lia. reflexivity.
Qed.

Lemma Unwrap_ignores_head_crlf_witness :
  let c1 := teeconn.accept [Data sample.frame_bad_crlf] in
  let c2 := teeconn.accept [Data sample.frame_ipv4] in
  (trojan.Unwrap sample.t c1).1 = (trojan.Unwrap sample.t c2).1.
Proof.
  intros c1 c2.
  apply (Unwrap_ignores_head_crlf sample.t c1 c2
           (take 60 sample.frame_bad_crlf) (take 60 sample.frame_ipv4) None
           (io.Read c1 trojan.headLen).2 (io.Read c2 trojan.headLen).2).
  - vm_compute; reflexivity.
  - vm_compute; reflexivity.
  - vm_compute; reflexivity.
  - intros i H56 H57. unfold sample.frame_bad_crlf.
    rewrite !lookup_take. destruct (decide (i < 60)%nat); [|reflexivity].
    rewrite !list_lookup_insert_ne by congruence. reflexivity.
  - vm_compute. repeat split.
Defined.

(** ** The address of the target *)

Lemma length_IPv4 a b c d : length (net.IPv4 a b c d) = 16%nat.
Proof. reflexivity. Qed.

Lemma length_parseIPv4 (s : list byte) :
  net.parseIPv4 s = [] \/ length (net.parseIPv4 s) = 16%nat.
Proof.
  unfold net.parseIPv4.
  destruct (net.parseIPv4_loop _ _ _) as [[s' p]|]; [|left; reflexivity].
  destruct (decide _); [right; apply length_IPv4 | left; reflexivity].
Qed.

Lemma length_expand i e (ip : net.IP) : length (net.expand i e ip) = length ip.
Proof.
  unfold net.expand.
  assert (H1 : forall (js : list nat) (f : net.IP -> nat -> nat) (g : net.IP -> nat -> byte) ip0,
             length (foldl (fun ip j => <[f ip j := g ip j]> ip) ip0 js) = length ip0).
  { induction js as [|j js IH]; intros f g ip0; simpl; [reflexivity|].
    rewrite IH. apply length_insert. }
  rewrite (H1 _ (fun _ j => j) (fun _ _ => x00)).
  apply (H1 _ (fun _ j => (j + (net.IPv6len - i))%nat) (fun ip j => at_ ip j)).
Qed.

(** Every way out of the loop of [parseIPv6] leaves the 16 bytes of [ip]
    in place. *)
Lemma length_parseIPv6_loop left : forall s e ip s' i' e' ip',
  net.parseIPv6_loop left s e ip = Some (s', i', e', ip') ->
  length ip' = length ip.
Proof.
  induction left as [|left IH]; intros s e ip s' i' e' ip' H; simpl in H.
  - injection H as <- <- <- <-. reflexivity.
  - destruct (net.xtoi s) as [[n c] ok].
    repeat match type of H with
           | (if ?b then _ else _) = _ => destruct b
           | match ?o with Some _ => _ | None => _ end = _ => destruct o
           | None = Some _ => discriminate H
           | Some _ = Some _ => injection H as <- <- <- <-
           end;
      try (apply IH in H; rewrite H);
      rewrite ?length_insert; reflexivity.
Qed.

Lemma length_parseIPv6 (s : list byte) :
  net.parseIPv6 s = [] \/ length (net.parseIPv6 s) = 16%nat.
Proof.
  unfold net.parseIPv6.
  destruct (_ && bool_decide (length _ = 0%nat)); [right; reflexivity|].
  destruct (net.parseIPv6_loop _ _ _ _) as [[[[s' i'] e'] ip']|] eqn:E;
    [|left; reflexivity].
  apply length_parseIPv6_loop in E.
  destruct (negb _); [left; reflexivity|].
  destruct (decide _), e'; auto.
  right. rewrite length_expand. exact E.
Qed.

(** [net.ParseIP] returns nil or the 16-byte form. *)
Lemma length_ParseIP (s : list byte) :
  net.ParseIP s = [] \/ length (net.ParseIP s) = 16%nat.
Proof.
  unfold net.ParseIP. generalize s at 1 3 as s0. intros s0.
  induction s as [|c s IH]; simpl; [left; reflexivity|].
  destruct (decide _); [apply length_parseIPv4|].
  destruct (decide _); [apply length_parseIPv6|]. exact IH.
Qed.

(** [To4] of it is nil or 4 bytes. *)
Lemma length_To4 (ip : net.IP) :
  ip = [] \/ length ip = 16%nat ->
  net.To4 ip = [] \/ length (net.To4 ip) = 4%nat.
Proof.
  intros [->|H]; [left; reflexivity|].
  unfold net.To4. destruct (decide _) as [E|_]; [unfold net.IPv4len in E; lia|].
  destruct (_ && _); [right|left; reflexivity].
  rewrite length_take, length_drop. lia.
Qed.

(** ** The frame *)

(** The address part of a frame: its type and the bytes after it. *)
Lemma frame_layout password tgtHost tgtPort :
  let ip := net.ParseIP tgtHost in
  trojan.frame (trojan.New password) tgtHost tgtPort =
    hex.Encode (sha256.Sum224 password) ++ [x0d; x0a] ++ [x01]
    ++ (if decide (length (net.To4 ip) ≠ 0%nat) then x01 :: net.To4 ip
        else if decide (length ip ≠ 0%nat) then x04 :: ip
        else x03 :: byte_of (Z.of_nat (length tgtHost)) :: tgtHost)
    ++ [byte_of (Z.shiftr tgtPort 8); byte_of tgtPort] ++ [x0d; x0a].
Proof.
  intros ip. unfold trojan.frame. fold ip.
  destruct (heads_New password) as (H4 & H6 & Hd).
  rewrite H4, H6, Hd, headPasswd_New.
  repeat destruct (decide _); rewrite <- ?app_assoc; reflexivity.
Qed.

(** ** Decoding the address after the head *)

Section Decoding.

Import teeconn.

Variable t : trojan.Trojan.

(** The head as the first 60 bytes of an arrival; what follows it in
    that arrival stays ahead. *)
Lemma Unwrap_head_arrival (c : Conn) bs evs :
  ahead c (Data bs :: evs) ->
  (60 <= length bs)%nat ->
  take 56 bs = trojan.headPasswd t ->
  exists c',
    ahead c' (if decide (length bs <= 60)%nat then evs
              else Data (drop 60 bs) :: evs)
    /\ trojan.Unwrap t c =
       if decide (at_ bs 59 = x01) then
         match binary.Read trojan.ipv4Addr.t c' with
         | (inr _, conn) => (None, conn)
         | (inl addr, conn) => (Some (trojan.IPv4 addr), conn)
         end
       else if decide (at_ bs 59 = x04) then
         match binary.Read trojan.ipv6Addr.t c' with
         | (inr _, conn) => (None, conn)
         | (inl addr, conn) => (Some (trojan.IPv6 addr), conn)
         end
       else if decide (at_ bs 59 = x03) then
         match trojan.Fulfill trojan.domain.zero c' with
         | ((Some _, _), conn) => (None, conn)
         | ((None, addr), conn) => (Some (trojan.Domain addr), conn)
         end
       else (None, c').
Proof.
  intros Hc Hlen Hpw.
  destruct (Read_arrival c trojan.headLen _ _ _ Hc) as (c' & Hrd & Hc').
  exists c'. split; [exact Hc'|].
  assert (Hrd' : io.Read c trojan.headLen = ((take 60 bs, None), c')).
  { rewrite Hrd. destruct (decide _); reflexivity. }
  rewrite (Unwrap_head t c _ _ _ Hrd').
  rewrite length_take, Nat.min_l by lia.
  rewrite take_take. change (56 `min` 60)%nat with 56%nat.
  rewrite Hpw. unfold bytes.Equal.
  rewrite (bool_decide_eq_true_2
             (trojan.headPasswd t = trojan.headPasswd t)) by reflexivity.
  assert (E : at_ (take 60 bs) 59 = at_ bs 59).
  { rewrite !at_lookup, lookup_take_lt by lia. reflexivity. }
  rewrite E.
  rewrite (bool_decide_eq_false_2 (None ≠ None))
    by (intros H; apply H; reflexivity).
  rewrite (bool_decide_eq_false_2 (60%nat ≠ trojan.headLen))
    by (intros H; apply H; reflexivity).
  reflexivity.
Qed.

(** The arrivals after the head, as fragments. *)
Lemma after_head_fragments bs (frags : list (list byte)) (evs : list net.arrival) :
  (if decide (length bs <= 60)%nat
   then map (fun f => Data f) frags ++ evs
   else Data (drop 60 bs) :: map (fun f => Data f) frags ++ evs)
  = map (fun f => Data f)
        (if decide (length bs <= 60)%nat then frags else drop 60 bs :: frags)
    ++ evs
  /\ concat (if decide (length bs <= 60)%nat then frags else drop 60 bs :: frags)
     = drop 60 bs ++ concat frags.
Proof.
  destruct (decide _); simpl; split; try reflexivity.
  rewrite drop_ge by lia. reflexivity.
Qed.

(** IPv4 and IPv6: the address is decoded from the first 8, or 20, bytes
    after the head, however they are cut into arrivals. *)
Lemma Unwrap_ipv4_stream bs frags evs :
  (60 <= length bs)%nat ->
  take 56 bs = trojan.headPasswd t ->
  at_ bs 59 = x01 ->
  (8 <= length (drop 60 bs ++ concat frags))%nat ->
  (trojan.Unwrap t (accept (Data bs :: map (fun f => Data f) frags ++ evs))).1
    = Some (trojan.IPv4 (binary.decode (take 8 (drop 60 bs ++ concat frags)))).
Proof.
  intros Hlen Hpw Hty Hsz.
  destruct (Unwrap_head_arrival _ bs (map (fun f => Data f) frags ++ evs)
              (ahead_accept _) Hlen Hpw) as (c' & Hc' & ->).
  rewrite Hty. destruct (decide (x01 = x01)) as [_|]; [|congruence].
  destruct (after_head_fragments bs frags evs) as [E1 E2].
  rewrite E1 in Hc'.
  destruct (ReadFull_fragments _ c' 8 evs Hc') as (c2 & Hrf).
  { rewrite E2. exact Hsz. }
  unfold binary.Read. change (@binary.dataSize trojan.ipv4Addr.t _) with 8%nat.
  rewrite Hrf, E2. reflexivity.
Qed.

Lemma Unwrap_ipv6_stream bs frags evs :
  (60 <= length bs)%nat ->
  take 56 bs = trojan.headPasswd t ->
  at_ bs 59 = x04 ->
  (20 <= length (drop 60 bs ++ concat frags))%nat ->
  (trojan.Unwrap t (accept (Data bs :: map (fun f => Data f) frags ++ evs))).1
    = Some (trojan.IPv6 (binary.decode (take 20 (drop 60 bs ++ concat frags)))).
Proof.
  intros Hlen Hpw Hty Hsz.
  destruct (Unwrap_head_arrival _ bs (map (fun f => Data f) frags ++ evs)
              (ahead_accept _) Hlen Hpw) as (c' & Hc' & ->).
  rewrite Hty. destruct (decide (x04 = x01)) as [|_]; [discriminate|].
  destruct (decide (x04 = x04)) as [_|]; [|congruence].
  destruct (after_head_fragments bs frags evs) as [E1 E2].
  rewrite E1 in Hc'.
  destruct (ReadFull_fragments _ c' 20 evs Hc') as (c2 & Hrf).
  { rewrite E2. exact Hsz. }
  unfold binary.Read. change (@binary.dataSize trojan.ipv6Addr.t _) with 20%nat.
  rewrite Hrf, E2. reflexivity.
Qed.


End Decoding.

Section DecodingDomain.

Import teeconn.

(** [Fulfill] after its read of the length byte [l]: one more read, of
    [l + 4] bytes, of the arrival [bs] that is ahead. *)
Lemma Fulfill_reads (c c1 : Conn) (l : byte) bs e evs :
  io.Read c 1 = (([l], None), c1) ->
  ahead c1 (net.Ev bs e :: evs) ->
  let len := Z.to_nat (u8 l) in
  exists c2,
    ahead c2 (if decide (length bs <= len + 4)%nat then evs
              else net.Ev (drop (len + 4) bs) e :: evs)
    /\ trojan.Fulfill trojan.domain.zero c =
       if decide (len + 4 <= length bs)%nat then
         if decide (length bs = len + 4 /\ e <> None)%nat
         then ((errors.Wrap e "read doamin failed", trojan.domain.zero), c2)
         else ((None, trojan.domain.Mk (take len bs)
                        (port_of (at_ bs len) (at_ bs (len + 1))) (make 2)), c2)
       else ((errors.Wrap e "read doamin failed", trojan.domain.zero), c2).
Proof.
  intros Hrd1 Hc1 len.
  destruct (Read_arrival c1 (len + 4) _ _ _ Hc1) as (c2 & Hrd2 & Hc2).
  exists c2. split; [exact Hc2|].
  unfold trojan.Fulfill. rewrite Hrd1. cbn [length at_ nth].
  rewrite (bool_decide_eq_false_2 (None ≠ None))
    by (intros H; apply H; reflexivity).
  rewrite (bool_decide_eq_false_2 (1%nat ≠ 1%nat))
    by (intros H; apply H; reflexivity).
  cbn [orb]. fold len. rewrite Hrd2. rewrite length_take.
  destruct (decide (len + 4 <= length bs)%nat) as [Hge|Hlt].
  - destruct (decide (length bs <= len + 4)%nat) as [Hle|Hgt].
    + assert (Hl : length bs = (len + 4)%nat) by lia.
      rewrite (take_ge bs (len + 4)) by lia.
      destruct e as [e|].
      * rewrite (bool_decide_eq_true_2 (Some e ≠ None)) by discriminate.
        cbn [orb]. destruct (decide _) as [_|H]; [reflexivity|].
        exfalso. apply H. split; [exact Hl|discriminate].
      * rewrite (bool_decide_eq_false_2 (None ≠ None))
          by (intros H; apply H; reflexivity).
        rewrite bool_decide_eq_false_2 by lia. cbn [orb].
        destruct (decide _) as [[_ H]|_]; [exfalso; apply H; reflexivity|].
        rewrite fill_make by exact Hl. reflexivity.
    + rewrite (bool_decide_eq_false_2 (None ≠ None))
        by (intros H; apply H; reflexivity).
      rewrite bool_decide_eq_false_2 by lia. cbn [orb].
      destruct (decide _) as [[H _]|_]; [lia|].
      rewrite fill_make by (rewrite length_take; lia).
      rewrite take_take, Nat.min_l by lia.
      unfold port_of. rewrite !at_lookup, !lookup_take_lt by lia. reflexivity.
  - destruct (decide (length bs <= len + 4)%nat) as [Hle|Hgt]; [|lia].
    rewrite (bool_decide_eq_true_2 (_ `min` _ ≠ _)%nat) by lia.
    rewrite orb_true_r. reflexivity.
Qed.

Variable t : trojan.Trojan.

(** Domain: the length byte, then the name, the port and two more bytes
    in the same arrival. *)
Lemma Unwrap_domain_stream bs (l : byte) body more evs :
  (60 <= length bs)%nat ->
  take 56 bs = trojan.headPasswd t ->
  at_ bs 59 = x03 ->
  drop 60 bs = l :: body ++ more ->
  length body = (Z.to_nat (u8 l) + 4)%nat ->
  (trojan.Unwrap t (accept (Data bs :: evs))).1
    = Some (trojan.Domain
              (trojan.domain.Mk (take (Z.to_nat (u8 l)) body)
                 (port_of (at_ body (Z.to_nat (u8 l)))
                          (at_ body (Z.to_nat (u8 l) + 1))) (make 2))).
Proof.
  intros Hlen Hpw Hty Hdrop Hbody.
  destruct (Unwrap_head_arrival t _ bs evs (ahead_accept _) Hlen Hpw)
    as (c' & Hc' & ->).
  rewrite Hty. destruct (decide (x03 = x01)) as [|_]; [discriminate|].
  destruct (decide (x03 = x04)) as [|_]; [discriminate|].
  destruct (decide (x03 = x03)) as [_|]; [|congruence].
  assert (Hgt : ~ (length bs <= 60)%nat).
  { intros H. rewrite drop_ge in Hdrop by lia. discriminate. }
  destruct (decide (length bs <= 60)%nat); [contradiction|].
  rewrite Hdrop in Hc'.
  destruct (Read_arrival c' 1 _ _ _ Hc') as (c1 & Hrd1 & Hc1).
  assert (Hb : ~ (length (l :: body ++ more) <= 1)%nat)
    by (simpl; rewrite length_app; lia).
  destruct (decide (length (l :: body ++ more) <= 1)%nat); [contradiction|].
  simpl in Hrd1, Hc1. rewrite drop_0 in Hc1.
  destruct (Fulfill_reads c' c1 l _ _ _ Hrd1 Hc1) as (c2 & _ & ->).
  rewrite length_app.
  destruct (decide (_ <= _)%nat) as [_|]; [|lia].
  destruct (decide (_ /\ _)) as [[_ H]|_]; [exfalso; apply H; reflexivity|].
  simpl. unfold port_of.
  rewrite take_app_le, !at_lookup, !lookup_app_l by lia. reflexivity.
Qed.

End DecodingDomain.

(** ** Round trip *)

Lemma head_split (hp : list byte) (b56 b57 b58 b59 : byte) rest :
  length hp = 56%nat ->
  let bs := hp ++ b56 :: b57 :: b58 :: b59 :: rest in
  (60 <= length bs)%nat /\ take 56 bs = hp /\ at_ bs 59 = b59
  /\ drop 60 bs = rest.
Proof.
  intros Hhp bs. subst bs. repeat split.
  - rewrite length_app. simpl. lia.
  - apply take_app_length'. symmetry. exact Hhp.
  - rewrite at_lookup, lookup_app_r by lia. rewrite Hhp. reflexivity.
  - change (hp ++ b56 :: b57 :: b58 :: b59 :: rest)
      with (hp ++ [b56; b57; b58; b59] ++ rest).
    rewrite app_assoc. apply drop_app_length'. rewrite length_app, Hhp. reflexivity.
Qed.

Lemma u8_length (host : list byte) :
  (length host <= 255)%nat ->
  Z.to_nat (u8 (byte_of (Z.of_nat (length host)))) = length host.
Proof. intros H. rewrite u8_byte_of, Z.mod_small by lia. apply Nat2Z.id. Qed.

(** What [Unwrap] makes of the frame that [Wrap] builds for a target, when
    the frame arrives in one piece, with or without payload behind it. *)
Lemma Unwrap_frame password host port payload evs :
  0 <= port < 65536 ->
  (length host <= 255)%nat ->
  let t := trojan.New password in
  let ip := net.ParseIP host in
  (trojan.Unwrap t
     (teeconn.accept (Data (trojan.frame t host port ++ payload) :: evs))).1
  = Some (if decide (length (net.To4 ip) ≠ 0%nat)
          then trojan.IPv4 (trojan.ipv4Addr.Mk (net.To4 ip) port [x0d; x0a])
          else if decide (length ip ≠ 0%nat)
          then trojan.IPv6 (trojan.ipv6Addr.Mk ip port [x0d; x0a])
          else trojan.Domain (trojan.domain.Mk host port (make 2))).
Proof.
  intros Hport Hhost t ip. subst t.
  rewrite frame_layout. fold ip. rewrite <- headPasswd_New.
  pose proof (length_headPasswd password) as Hhp.
  set (t := trojan.New password). fold t in Hhp.
  set (hp := trojan.headPasswd t). fold hp in Hhp.
  set (ph := byte_of (Z.shiftr port 8)). set (pl := byte_of port).
  pose proof (length_ParseIP host) as Hip. fold ip in Hip.
  pose proof (length_To4 ip Hip) as H4.
  destruct (decide (length (net.To4 ip) ≠ 0%nat)) as [Hv4|Hv4].
  - (* IPv4 *)
    destruct H4 as [E|H4]; [rewrite E in Hv4; contradiction|].
    destruct (net.To4 ip) as [|a0 [|a1 [|a2 [|a3 [|? ?]]]]]; try discriminate.
    destruct (head_split hp x0d x0a x01 x01
                ([a0; a1; a2; a3; ph; pl; x0d; x0a] ++ payload) Hhp)
      as (L & T & A & D).
    assert (E : (hp ++ [x0d; x0a] ++ [x01] ++ [x01; a0; a1; a2; a3]
                 ++ [ph; pl] ++ [x0d; x0a]) ++ payload
                = hp ++ x0d :: x0a :: x01 :: x01
                     :: [a0; a1; a2; a3; ph; pl; x0d; x0a] ++ payload).
    { rewrite <- app_assoc. reflexivity. }
    rewrite E. change evs with (map (fun f => Data f) [] ++ evs).
    rewrite (Unwrap_ipv4_stream t _ [] evs L T A); rewrite D.
    + simpl. unfold ph, pl. rewrite Uint16_port by exact Hport. reflexivity.
    + simpl. lia.
  - destruct (decide (length ip ≠ 0%nat)) as [Hv6|Hdom].
    + (* IPv6 *)
      destruct Hip as [E|Hip]; [rewrite E in Hv6; contradiction|].
      do 16 (destruct ip as [|? ip]; [discriminate|]).
      destruct ip; [|discriminate].
      match goal with
      | |- context [x04 :: ?addr] =>
          destruct (head_split hp x0d x0a x01 x04
                      (addr ++ [ph; pl; x0d; x0a] ++ payload) Hhp)
            as (L & T & A & D);
          assert (E : (hp ++ [x0d; x0a] ++ [x01] ++ (x04 :: addr)
                       ++ [ph; pl] ++ [x0d; x0a]) ++ payload
                      = hp ++ x0d :: x0a :: x01 :: x04
                           :: addr ++ [ph; pl; x0d; x0a] ++ payload)
            by (rewrite <- app_assoc; reflexivity)
      end.
      rewrite E. change evs with (map (fun f => Data f) [] ++ evs).
      rewrite (Unwrap_ipv6_stream t _ [] evs L T A); rewrite D.
      * simpl. unfold ph, pl. rewrite Uint16_port by exact Hport. reflexivity.
      * simpl. lia.
    + (* domain *)
      set (l := byte_of (Z.of_nat (length host))).
      destruct (head_split hp x0d x0a x01 x03
                  (l :: (host ++ [ph; pl; x0d; x0a]) ++ payload) Hhp)
        as (L & T & A & D).
      assert (E : (hp ++ [x0d; x0a] ++ [x01] ++ (x03 :: l :: host)
                   ++ [ph; pl] ++ [x0d; x0a]) ++ payload
                  = hp ++ x0d :: x0a :: x01 :: x03
                       :: l :: (host ++ [ph; pl; x0d; x0a]) ++ payload).
      { rewrite <- !app_assoc. reflexivity. }
      rewrite E.
      pose proof (u8_length host Hhost) as Hl. fold l in Hl.
      rewrite (Unwrap_domain_stream t _ l (host ++ [ph; pl; x0d; x0a]) payload
                 evs L T A D)
        by (rewrite Hl, length_app; reflexivity).
      rewrite Hl, take_app_length.
      rewrite !at_lookup, !lookup_app_r by lia.
      rewrite Nat.sub_diag.
      replace (length host + 1 - length host)%nat with 1%nat by lia.
      simpl. unfold ph, pl. rewrite port_bytes by exact Hport. reflexivity.
Qed.

(** On a connection that takes what is written, [Wrap] sends the frame
    with one write and returns nil. *)
Lemma Wrap_fresh t arrivals host port :
  trojan.Wrap t (net.fresh arrivals []) host port
  = (None, net.MkConn arrivals [] (trojan.frame t host port) false).
Proof.
  unfold trojan.Wrap. cbn.
  repeat (rewrite bool_decide_eq_false_2 by (intros H; apply H; reflexivity)).
  reflexivity.
Qed.

(** C1, as stated, fails: "::ffff:1.2.3.4" is an IPv6 literal that
    [net.ParseIP] accepts, and the frame [Wrap] sends for it comes out of
    [Unwrap] as an IPv4 address, 1.2.3.4. *)
Lemma roundtrip_mapped_ipv6_becomes_ipv4 :
  let host := str "::ffff:1.2.3.4" in
  In ":"%byte host
  /\ length (net.ParseIP host) = 16%nat
  /\ exists sent,
       trojan.Wrap sample.t (net.fresh [] []) host 443
       = (None, net.MkConn [] [] sent false)
       /\ (trojan.Unwrap sample.t (teeconn.accept [Data sent])).1
          = Some (trojan.IPv4 (trojan.ipv4Addr.Mk [x01; x02; x03; x04] 443
                                 [x0d; x0a])).
Proof.
  split; [simpl; auto|]. split; [vm_compute; reflexivity|].
  eexists. split; [apply Wrap_fresh|]. vm_compute. reflexivity.
Qed.

(** C1, amended: for a port in [1,65535] and a host of at most 255 bytes,
    the frame that [Wrap] sends, fed to [Unwrap], yields: an IPv4 address
    with the 4 bytes of [To4] when [net.ParseIP] accepts the host and [To4]
    of it is not nil (an IPv4 literal, or an IPv4-mapped IPv6 literal); an
    IPv6 address with the 16 bytes of [net.ParseIP] for every other host it
    accepts; a domain address with the same name for every other host;
    each with the input port. *)
Theorem Unwrap_Wrap_roundtrip password host port arrivals payload evs :
  1 <= port <= 65535 ->
  (length host <= 255)%nat ->
  let t := trojan.New password in
  let ip := net.ParseIP host in
  exists sent,
    trojan.Wrap t (net.fresh arrivals []) host port
    = (None, net.MkConn arrivals [] sent false)
    /\ (trojan.Unwrap t (teeconn.accept (Data (sent ++ payload) :: evs))).1
       = Some (if decide (length (net.To4 ip) ≠ 0%nat)
               then trojan.IPv4 (trojan.ipv4Addr.Mk (net.To4 ip) port [x0d; x0a])
               else if decide (length ip ≠ 0%nat)
               then trojan.IPv6 (trojan.ipv6Addr.Mk ip port [x0d; x0a])
               else trojan.Domain (trojan.domain.Mk host port (make 2))).
Proof.
  intros Hport Hhost t ip. eexists. split; [apply Wrap_fresh|].
  apply Unwrap_frame; [lia|exact Hhost].
Qed.

(** The three families at work: 93.184.216.34, 2001:db8::68 and
    example.com come back as they went in. *)
Lemma Unwrap_Wrap_roundtrip_witness :
  (exists sent,
     trojan.Wrap sample.t (net.fresh [] []) (str "93.184.216.34") 443
     = (None, net.MkConn [] [] sent false)
     /\ (trojan.Unwrap sample.t (teeconn.accept [Data (sent ++ str "GET /")])).1
        = Some (trojan.IPv4 (trojan.ipv4Addr.Mk
                  [byte_of 93; byte_of 184; byte_of 216; byte_of 34] 443
                  [x0d; x0a])))
  /\ (exists sent,
     trojan.Wrap sample.t (net.fresh [] []) (str "2001:db8::68") 65535
     = (None, net.MkConn [] [] sent false)
     /\ (trojan.Unwrap sample.t (teeconn.accept [Data (sent ++ [])])).1
        = Some (trojan.IPv6 (trojan.ipv6Addr.Mk
                  (net.ParseIP (str "2001:db8::68")) 65535 [x0d; x0a])))
  /\ (exists sent,
     trojan.Wrap sample.t (net.fresh [] []) (str "example.com") 1
     = (None, net.MkConn [] [] sent false)
     /\ (trojan.Unwrap sample.t (teeconn.accept [Data (sent ++ [])])).1
        = Some (trojan.Domain (trojan.domain.Mk (str "example.com") 1 (make 2)))).
Proof.
  split; [|split].
  - exact (Unwrap_Wrap_roundtrip (str "password") (str "93.184.216.34") 443
             [] (str "GET /") [] ltac:(lia) ltac:(vm_compute; lia)).
  - exact (Unwrap_Wrap_roundtrip (str "password") (str "2001:db8::68") 65535
             [] [] [] ltac:(lia) ltac:(vm_compute; lia)).
  - exact (Unwrap_Wrap_roundtrip (str "password") (str "example.com") 1
             [] [] [] ltac:(lia) ltac:(vm_compute; lia)).
Defined.

(** C2: [Wrap] makes one write, of one frame: the 56 bytes of the
    hex-encoded SHA-224 digest of the password, CRLF, the command byte
    0x01, the address type and the address, the port as two big-endian
    bytes, CRLF.  For 93.184.216.34 and port 443 the address type is 0x01
    and the address is the 4 bytes 93, 184, 216, 34; for example.com and
    port 8080 the type is 0x03, followed by the length 11, the name, and
    the port bytes 0x1F, 0x90. *)
Theorem Wrap_frame_layout password :
  let t := trojan.New password in
  let digest := hex.Encode (sha256.Sum224 password) in
  length digest = 56%nat
  /\ (forall tgtHost tgtPort,
        let ip := net.ParseIP tgtHost in
        trojan.frame t tgtHost tgtPort =
          digest ++ [x0d; x0a] ++ [x01]
          ++ (if decide (length (net.To4 ip) ≠ 0%nat) then x01 :: net.To4 ip
              else if decide (length ip ≠ 0%nat) then x04 :: ip
              else x03 :: byte_of (Z.of_nat (length tgtHost)) :: tgtHost)
          ++ [byte_of (Z.shiftr tgtPort 8); byte_of tgtPort] ++ [x0d; x0a])
  /\ (forall conn tgtHost tgtPort,
        let buf := trojan.frame t tgtHost tgtPort in
        trojan.Wrap t conn tgtHost tgtPort =
          (if bool_decide ((io.Write conn buf).1.2 ≠ None)
              || bool_decide ((io.Write conn buf).1.1 ≠ length buf)
           then Some (ErrWrite (io.Write conn buf).1.1) else None,
           (io.Write conn buf).2))
  /\ (forall arrivals tgtHost tgtPort,
        trojan.Wrap t (net.fresh arrivals []) tgtHost tgtPort
        = (None, net.MkConn arrivals [] (trojan.frame t tgtHost tgtPort) false))
  /\ drop 59 (trojan.frame t (str "93.184.216.34") 443)
     = [x01; byte_of 93; byte_of 184; byte_of 216; byte_of 34;
        x01; xbb; x0d; x0a]
  /\ drop 59 (trojan.frame t (str "example.com") 8080)
     = [x03; byte_of 11] ++ str "example.com" ++ [x1f; x90; x0d; x0a].
Proof.
  intros t digest.
  assert (Hd : length digest = 56%nat)
    by (unfold digest; rewrite length_Encode, length_Sum224; reflexivity).
  assert (Hdrop : forall rest, drop 59 (digest ++ [x0d; x0a] ++ [x01] ++ rest) = rest).
  { intros rest.
    change (digest ++ [x0d; x0a] ++ [x01] ++ rest)
      with (digest ++ [x0d; x0a; x01] ++ rest).
    rewrite app_assoc. apply drop_app_length'. rewrite length_app, Hd. reflexivity. }
  split; [exact Hd|]. split; [intros; apply frame_layout|].
  split.
  { intros conn tgtHost tgtPort buf. unfold trojan.Wrap. fold buf.
    destruct (io.Write conn buf) as [[n err] conn']. simpl.
    destruct (_ || _); reflexivity. }
  split; [intros; apply Wrap_fresh|].
  split.
  - unfold t. rewrite frame_layout. fold digest. rewrite Hdrop.
    vm_compute. reflexivity.
  - unfold t. rewrite frame_layout. fold digest. rewrite Hdrop.
    vm_compute. reflexivity.
Qed.

(** C5: a name of 255 bytes round-trips, but for a name of 256 bytes
    [Wrap] does not fail: it returns nil after sending a frame whose length
    byte is 0 (256 truncated to a byte) with all 256 bytes of the name
    behind it, and [Unwrap] reads that frame as the empty name with port
    0x6161 (the first two bytes of the name). *)
Theorem Wrap_long_name_truncates :
  let name255 := replicate 255 "a"%byte in
  let sent := trojan.frame sample.t sample.long_name 80 in
  (trojan.Wrap sample.t (net.fresh [] []) name255 80).1 = None
  /\ (trojan.Unwrap sample.t
        (teeconn.accept [Data (trojan.frame sample.t name255 80)])).1
     = Some (trojan.Domain (trojan.domain.Mk name255 80 (make 2)))
  /\ length sample.long_name = 256%nat
  /\ trojan.Wrap sample.t (net.fresh [] []) sample.long_name 80
     = (None, net.MkConn [] [] sent false)
  /\ take 2 (drop 59 sent) = [x03; x00]
  /\ drop 61 sent = sample.long_name ++ [x00; byte_of 80; x0d; x0a]
  /\ (trojan.Unwrap sample.t (teeconn.accept [Data sent])).1
     = Some (trojan.Domain (trojan.domain.Mk [] 24929 (make 2))).
Proof.
  intros name255 sent.
  split; [rewrite Wrap_fresh; reflexivity|].
  split; [vm_compute; reflexivity|].
  split; [reflexivity|].
  split; [apply Wrap_fresh|].
  repeat split; vm_compute; reflexivity.
Qed.

(** ** Fragments *)

(** The domain variant in general: after the head, one read takes the
    length byte [l] from the arrival ahead, and one read of [l + 4] bytes
    takes what the next arrival [b2] holds. *)
Lemma Unwrap_domain_reads t bs evs (l : byte) r evs1 b2 e evs2 :
  (60 <= length bs)%nat ->
  take 56 bs = trojan.headPasswd t ->
  at_ bs 59 = x03 ->
  (if decide (length bs <= 60)%nat then evs else Data (drop 60 bs) :: evs)
    = Data (l :: r) :: evs1 ->
  (if decide (length r = 0)%nat then evs1 else Data r :: evs1)
    = net.Ev b2 e :: evs2 ->
  let len := Z.to_nat (u8 l) in
  exists c2,
    teeconn.ahead c2 (if decide (length b2 <= len + 4)%nat then evs2
                      else net.Ev (drop (len + 4) b2) e :: evs2)
    /\ trojan.Unwrap t (teeconn.accept (Data bs :: evs)) =
       if decide (len + 4 <= length b2)%nat then
         if decide (length b2 = len + 4 /\ e <> None)%nat then (None, c2)
         else (Some (trojan.Domain
                       (trojan.domain.Mk (take len b2)
                          (port_of (at_ b2 len) (at_ b2 (len + 1))) (make 2))),
               c2)
       else (match e with
             | Some _ => None
             | None => Some (trojan.Domain trojan.domain.zero)
             end, c2).
Proof.
  intros Hlen Hpw Hty H1 H2 len.
  destruct (Unwrap_head_arrival t _ bs evs (ahead_accept _) Hlen Hpw)
    as (c' & Hc' & ->).
  rewrite Hty. destruct (decide (x03 = x01)) as [|_]; [discriminate|].
  destruct (decide (x03 = x04)) as [|_]; [discriminate|].
  destruct (decide (x03 = x03)) as [_|]; [|congruence].
  rewrite H1 in Hc'.
  destruct (Read_arrival c' 1 _ _ _ Hc') as (c1 & Hrd1 & Hc1).
  assert (Hrd1' : io.Read c' 1 = (([l], None), c1)).
  { rewrite Hrd1.
    destruct (decide (length (l :: r) <= 1)%nat); simpl; rewrite take_0;
      reflexivity. }
  assert (Hc1' : teeconn.ahead c1 (net.Ev b2 e :: evs2)).
  { rewrite <- H2. clear H1 H2. destruct r as [|r0 r]; simpl in *; exact Hc1. }
  destruct (Fulfill_reads c' c1 l _ _ _ Hrd1' Hc1') as (c2 & Hc2 & ->).
  exists c2. split; [exact Hc2|]. fold len.
  destruct (decide (len + 4 <= length b2)%nat).
  - destruct (decide (length b2 = (len + 4)%nat /\ e <> None)) as [[_ He]|_];
      [destruct e; [reflexivity|congruence]|reflexivity].
  - destruct e; reflexivity.
Qed.

(** The short read of [Fulfill]: when the read of the name delivers fewer
    than length+4 bytes and no error, [errors.Wrap(nil, ...)] is nil, so
    [Fulfill] returns nil with the address untouched, and [Unwrap] returns
    the empty domain, port 0, instead of nil. *)
Example Unwrap_short_domain_read :
  (trojan.Unwrap sample.t
     (teeconn.accept [Data (take 60 sample.frame_domain); Data [byte_of 11];
                      Data (str "examp"); Data (str "le.com")])).1
  = Some (trojan.Domain trojan.domain.zero).
Proof. vm_compute. reflexivity. Qed.




(** ** The dialer *)

(** C8: the function that [GenProxyDial] returns fails without dialing
    when the host is empty or the port is zero (no connection is added to
    the world); when [Wrap] fails on the connection just dialed it closes
    that connection and returns the error of [Wrap]; and whenever it
    returns an error, the connections that are open are those that were
    open before the call. *)
Theorem ProxyDial_failure_paths proxy dialFn network host port w :
  let r := main.ProxyDial proxy dialFn network host port w in
  (host = [] \/ port = 0 -> r = (inr (ErrAddr host port), w))
  /\ (host <> [] -> port <> 0 -> forall conn err conn',
        dialFn host port = inl conn ->
        transport.Wrap proxy conn host port = (Some err, conn') ->
        r = (inr err, w ++ [net.Close conn']))
  /\ (forall e, r.1 = inr e -> main.open_conns r.2 = main.open_conns w).
Proof.
  intros r. subst r. unfold main.ProxyDial. repeat split.
  - intros [-> | ->].
    + reflexivity.
    + rewrite (bool_decide_eq_true_2 (0 = 0)) by reflexivity.
      rewrite orb_true_r. reflexivity.
  - intros Hh Hp conn err conn' Hd Hw.
    rewrite (bool_decide_eq_false_2 _ Hh), (bool_decide_eq_false_2 _ Hp).
    simpl. rewrite Hd, Hw. reflexivity.
  - intros e. destruct (_ || _); [reflexivity|].
    destruct (dialFn host port) as [conn|err]; [|reflexivity].
    destruct (transport.Wrap proxy conn host port) as [[err|] conn'];
      simpl; [|discriminate].
    intros _. unfold main.open_conns. rewrite filter_app.
    rewrite filter_cons_False, filter_nil by (simpl; discriminate).
    apply app_nil_r.
Qed.

(** The Trojan transport over a connection that resets after 10 bytes:
    [Wrap] fails, and the connection is left closed. *)
Lemma ProxyDial_failure_paths_witness :
  let proxy := transport.of_trojan sample.t in
  main.ProxyDial proxy sample.dial_flaky (str "tcp") [] 443 []
    = (inr (ErrAddr [] 443), [])
  /\ main.ProxyDial proxy sample.dial_flaky (str "tcp") (str "example.com") 0 []
    = (inr (ErrAddr (str "example.com") 0), [])
  /\ main.ProxyDial proxy sample.dial_flaky (str "tcp") (str "example.com") 443 []
    = (inr (ErrWrite 10),
       [net.MkConn [] [] (take 10 sample.frame_domain) true])
  /\ main.open_conns
       (main.ProxyDial proxy sample.dial_flaky (str "tcp") (str "example.com")
          443 []).2 = [].
Proof.
  intros proxy.
  split; [|split; [|split]].
  - destruct (ProxyDial_failure_paths proxy sample.dial_flaky (str "tcp") [] 443 [])
      as (P & _). exact (P (or_introl eq_refl)).
  - destruct (ProxyDial_failure_paths proxy sample.dial_flaky (str "tcp")
                (str "example.com") 0 []) as (P & _).
    exact (P (or_intror eq_refl)).
  - destruct (ProxyDial_failure_paths proxy sample.dial_flaky (str "tcp")
                (str "example.com") 443 []) as (_ & P & _).
    rewrite (P ltac:(discriminate) ltac:(discriminate)
               (net.fresh [] [(10%nat, Some (ErrNet "connection reset"))])
               (ErrWrite 10)
               (net.MkConn [] [] (take 10 sample.frame_domain) false)
               eq_refl ltac:(vm_compute; reflexivity)).
    vm_compute. reflexivity.
  - destruct (ProxyDial_failure_paths proxy sample.dial_flaky (str "tcp")
                (str "example.com") 443 []) as (_ & _ & P).
    exact (P (ErrWrite 10) ltac:(vm_compute; reflexivity)).
Defined.

(** ** The fuel of [ReadFull] *)

(** A [Read] into a buffer of [n > 0] bytes that returns no error either
    fills the buffer or uses up part of what the connection holds. *)
Lemma Read_progress (c : teeconn.Conn) (n : nat) bs c' :
  (0 < n)%nat ->
  io.Read c n = ((bs, None), c') ->
  (io.backlog c' < io.backlog c)%nat \/ length bs = n.
Proof.
  intros Hn. destruct c as [[rx wx tx cl] buf pk rp].
  cbn. unfold teeconn.Read. cbn.
  destruct rp as [|r rp].
  - destruct cl; cbn; [discriminate|].
    destruct rx as [|[bs0 e] evs]; cbn; [discriminate|].
    destruct (decide (length bs0 <= n)%nat).
    + intros H. injection H as <- -> <-. left. cbn. lia.
    + intros H. injection H as <- <-. right. rewrite length_take. lia.
  - intros H. injection H as <- <-. cbn.
    destruct (decide (n <= length (r :: rp))%nat).
    + right. rewrite length_take. lia.
    + left. rewrite drop_ge by lia. cbn. lia.
Qed.

(** The fuel that [ReadFull] starts with is never used up on a connection:
    more fuel changes nothing. *)
Lemma ReadAtLeast_fuel fuel : forall (c : teeconn.Conn) acc size min,
  (min <= size)%nat ->
  (io.backlog c < fuel)%nat ->
  io.ReadAtLeast_loop (S fuel) c acc size min
  = io.ReadAtLeast_loop fuel c acc size min.
Proof.
  induction fuel as [|fuel IH]; intros c acc size min Hms Hb; [lia|].
  destruct (decide (min <= length acc)%nat) as [Hd|Hd].
  { rewrite !ReadAtLeast_done by exact Hd. reflexivity. }
  destruct (io.Read c (size - length acc)) as [[bs err] c'] eqn:Hrd.
  rewrite (ReadAtLeast_step (S fuel) c acc size min _ _ _ Hd Hrd).
  rewrite (ReadAtLeast_step fuel c acc size min _ _ _ Hd Hrd).
  destruct err as [e|]; [reflexivity|].
  destruct (Read_progress c (size - length acc) bs c' ltac:(lia) Hrd)
    as [Hlt|Hfull].
  - apply IH; [exact Hms|lia].
  - rewrite !ReadAtLeast_done by (rewrite length_app; lia). reflexivity.
Qed.

(** ** The HTTP front-end *)

(** What one connection asks of the router. *)
Lemma serve_dials ReadRequest r_ProxyDial Relay conn w :
  match ReadRequest (teeconn.New conn) with
  | (inl req, _) =>
      exists rest,
        (main.serve ReadRequest r_ProxyDial Relay conn w).1.1
        = main.CallProxyDial (str "tcp") (main.Host req) 80 :: rest
        /\ Forall (fun ev => ~ main.is_dial ev) rest
  | (inr _, _) =>
      Forall (fun ev => ~ main.is_dial ev)
             (main.serve ReadRequest r_ProxyDial Relay conn w).1.1
  end.
Proof.
  unfold main.serve.
  destruct (ReadRequest (teeconn.New conn)) as [[req|err] tee].
  - destruct (r_ProxyDial _ _ _ _) as [[rc|err] w'].
    + destruct (Relay _ _ _) as [tee' w'']. eexists. split; [reflexivity|].
      repeat constructor; simpl; tauto.
    + eexists. split; [reflexivity|]. repeat constructor; simpl; tauto.
  - repeat constructor; simpl; tauto.
Qed.

(** The body of [ServeHTTP] asks the dialer at one point only. *)
Lemma serve_agree ReadRequest (d d' : main.ProxyDialFn) Relay conn w :
  (forall req tee,
     ReadRequest (teeconn.New conn) = (inl req, tee) ->
     d' (str "tcp") (main.Host req) 80 w = d (str "tcp") (main.Host req) 80 w) ->
  main.serve ReadRequest d' Relay conn w = main.serve ReadRequest d Relay conn w.
Proof.
  intros H. unfold main.serve.
  destruct (ReadRequest (teeconn.New conn)) as [[req|err] tee]; [|reflexivity].
  rewrite (H req tee eq_refl). reflexivity.
Qed.

(** C10: the HTTP front-end calls the router's [ProxyDial] with network
    "tcp", the Host of the parsed request as it stands, and port 80, also
    when the Host holds a port of its own.  For a connection whose
    request parses, what the body does next is what this one call
    returned, in the world as the call left it: the error is logged, or
    the connection it gave is relayed to and closed; the same holds for
    the first connection of a listener, whatever follows.  The dialer is
    called with nothing else: a dialer that answers these calls alike
    gives the same run.  And the calls that the run lists are these
    calls. *)
Theorem ServeHTTP_dials_Host_port_80 ReadRequest r_ProxyDial Relay :
  (forall conn w req tee,
     ReadRequest (teeconn.New conn) = (inl req, tee) ->
     main.serve ReadRequest r_ProxyDial Relay conn w
     = match r_ProxyDial (str "tcp") (main.Host req) 80 w with
       | (inr _, w1) =>
           ([main.CallProxyDial (str "tcp") (main.Host req) 80;
             main.LogError "dial proxy"],
            teeconn.Close tee, w1)
       | (inl rc, w1) =>
           let '(tee2, w2) :=
             Relay (teeconn.Reread (teeconn.Stop tee)) rc w1 in
           ([main.CallProxyDial (str "tcp") (main.Host req) 80;
             main.CallRelay rc; main.LogDebug "serve http"],
            teeconn.Close tee2, main.close_fd rc w2)
       end)
  /\ (forall conn ln w req tee,
     ReadRequest (teeconn.New conn) = (inl req, tee) ->
     main.ServeHTTP ReadRequest r_ProxyDial Relay (inl conn :: ln) w
     = let '(evs, w1) :=
         match r_ProxyDial (str "tcp") (main.Host req) 80 w with
         | (inr _, w1) =>
             ([main.CallProxyDial (str "tcp") (main.Host req) 80;
               main.LogError "dial proxy"], w1)
         | (inl rc, w1) =>
             ([main.CallProxyDial (str "tcp") (main.Host req) 80;
               main.CallRelay rc; main.LogDebug "serve http"],
              main.close_fd rc
                (Relay (teeconn.Reread (teeconn.Stop tee)) rc w1).2)
         end in
       let '(evs', w2) := main.ServeHTTP ReadRequest r_ProxyDial Relay ln w1 in
       (evs ++ evs', w2))
  /\ (forall (other : main.ProxyDialFn) ln w,
     (forall conn req tee w',
        inl conn ∈ ln ->
        ReadRequest (teeconn.New conn) = (inl req, tee) ->
        other (str "tcp") (main.Host req) 80 w'
        = r_ProxyDial (str "tcp") (main.Host req) 80 w') ->
     main.ServeHTTP ReadRequest other Relay ln w
     = main.ServeHTTP ReadRequest r_ProxyDial Relay ln w)
  /\ (forall conn w req tee,
     ReadRequest (teeconn.New conn) = (inl req, tee) ->
     exists rest,
       (main.serve ReadRequest r_ProxyDial Relay conn w).1.1
       = main.CallProxyDial (str "tcp") (main.Host req) 80 :: rest
       /\ Forall (fun ev => ~ main.is_dial ev) rest)
  /\ (forall ln w network host port,
     main.CallProxyDial network host port
       ∈ (main.ServeHTTP ReadRequest r_ProxyDial Relay ln w).1 ->
     network = str "tcp" /\ port = 80
     /\ exists conn req tee,
          inl conn ∈ ln
          /\ ReadRequest (teeconn.New conn) = (inl req, tee)
          /\ host = main.Host req).
Proof.
  assert (Hbody : forall conn w req tee,
            ReadRequest (teeconn.New conn) = (inl req, tee) ->
            main.serve ReadRequest r_ProxyDial Relay conn w
            = match r_ProxyDial (str "tcp") (main.Host req) 80 w with
              | (inr _, w1) =>
                  ([main.CallProxyDial (str "tcp") (main.Host req) 80;
                    main.LogError "dial proxy"],
                   teeconn.Close tee, w1)
              | (inl rc, w1) =>
                  let '(tee2, w2) :=
                    Relay (teeconn.Reread (teeconn.Stop tee)) rc w1 in
                  ([main.CallProxyDial (str "tcp") (main.Host req) 80;
                    main.CallRelay rc; main.LogDebug "serve http"],
                   teeconn.Close tee2, main.close_fd rc w2)
              end).
  { intros conn w req tee Hrq. unfold main.serve. rewrite Hrq.
    destruct (r_ProxyDial (str "tcp") (main.Host req) 80 w) as [[rc|e] w1];
      reflexivity. }
  split; [exact Hbody|]. split; [|split; [|split]].
  - intros conn ln w req tee Hrq. cbn [main.ServeHTTP].
    rewrite (Hbody conn w req tee Hrq).
    destruct (r_ProxyDial (str "tcp") (main.Host req) 80 w) as [[rc|e] w1];
      [|reflexivity].
    destruct (Relay (teeconn.Reread (teeconn.Stop tee)) rc w1) as [tee2 w2].
    reflexivity.
  - intros other ln. induction ln as [|[conn|err] ln IH]; intros w Hsame;
      [reflexivity| |reflexivity].
    cbn [main.ServeHTTP].
    rewrite (serve_agree ReadRequest r_ProxyDial other Relay conn w)
      by (intros req tee Hrq; apply (Hsame conn req tee w); [left|exact Hrq]).
    destruct (main.serve ReadRequest r_ProxyDial Relay conn w)
      as [[evs tee] w1].
    rewrite (IH w1)
      by (intros c req tee' w' Hc Hrq;
          apply (Hsame c req tee' w'); [right; exact Hc | exact Hrq]).
    reflexivity.
  - intros conn w req tee Hrq.
    pose proof (serve_dials ReadRequest r_ProxyDial Relay conn w) as H.
    rewrite Hrq in H. exact H.
  - intros ln. induction ln as [|[conn|err] ln IH]; intros w network host port Hin.
    + simpl in Hin. inversion Hin.
    + simpl in Hin.
      pose proof (serve_dials ReadRequest r_ProxyDial Relay conn w) as Hs.
      destruct (main.serve ReadRequest r_ProxyDial Relay conn w)
        as [[evs tee] w'] eqn:Es. simpl in Hs.
      destruct (main.ServeHTTP ReadRequest r_ProxyDial Relay ln w')
        as [evs' w''] eqn:Er. simpl in Hin.
      apply elem_of_app in Hin. destruct Hin as [Hin|Hin].
      * destruct (ReadRequest (teeconn.New conn)) as [[req|e] tee0] eqn:Hrq.
        -- destruct Hs as (rest & -> & Hrest).
           apply elem_of_cons in Hin. destruct Hin as [Heq|Hin].
           ++ injection Heq as -> -> ->. repeat split.
              exists conn, req, tee0. repeat split; [left|exact Hrq].
           ++ rewrite Forall_forall in Hrest.
              exfalso. apply (Hrest _ Hin). exact I.
        -- rewrite Forall_forall in Hs. exfalso. apply (Hs _ Hin). exact I.
      * destruct (IH w' network host port)
          as (Hn & Hp & conn' & req & tee0 & Hc & Hrq & Hh).
        { rewrite Er. exact Hin. }
        repeat split; auto. exists conn', req, tee0.
        repeat split; auto. right. exact Hc.
    + simpl in Hin. apply list_elem_of_singleton in Hin. discriminate.
Qed.

(** Three connections over a dialer that records what it is asked: a
    request whose Host is "example.com:8080", a connection that ends
    before a request, and a request for "b.example".  The dialer was
    asked twice, for "tcp", that very Host and port 80, and both
    connections it gave were closed. *)
Lemma ServeHTTP_dials_Host_port_80_witness :
  let ln := [inl (net.fresh [Data (str "example.com:8080")] []);
             inl (net.fresh [] []);
             inl (net.fresh [Data (str "b.example")] [])] in
  main.ServeHTTP sample.read_host sample.dial_record sample.relay ln []
  = ([main.CallProxyDial (str "tcp") (str "example.com:8080") 80;
      main.CallRelay 0%nat; main.LogDebug "serve http";
      main.LogError "read http request";
      main.CallProxyDial (str "tcp") (str "b.example") 80;
      main.CallRelay 1%nat; main.LogDebug "serve http"],
     [net.MkConn [] [] (str "tcp example.com:8080 80") true;
      net.MkConn [] [] (str "tcp b.example 80") true]).
Proof.
  intros ln. subst ln.
  destruct (ServeHTTP_dials_Host_port_80 sample.read_host sample.dial_record
              sample.relay) as (_ & Hhead & _).
  rewrite (Hhead (net.fresh [Data (str "example.com:8080")] []) _ []
             (main.MkRequest (str "example.com:8080"))
             (teeconn.New (net.fresh [Data (str "example.com:8080")] []))
             eq_refl).
  vm_compute. reflexivity.
Defined.


(** * Further properties *)

(** ** What [Unwrap] returns *)

(** A [Read] stores no more bytes than the buffer holds. *)
Lemma Conn_Read_length (c : net.Conn) (n : nat) :
  (length (net.Conn_Read c n).1.1 <= n)%nat.
Proof.
  unfold net.Conn_Read. destruct (net.closed c); [simpl; lia|].
  destruct (net.rx c) as [|[bs e] evs]; [simpl; lia|].
  destruct (decide (length bs <= n)%nat); simpl; [lia|].
  rewrite length_take. lia.
Qed.

Lemma Read_length (c : teeconn.Conn) (n : nat) :
  (length (io.Read c n).1.1 <= n)%nat.
Proof.
  unfold io.Read. cbn. unfold teeconn.Read.
  destruct (teeconn.replay c) as [|b bs].
  - pose proof (Conn_Read_length (teeconn.under c) n) as H.
    change (io.Read (teeconn.under c) n)
      with (net.Conn_Read (teeconn.under c) n).
    destruct (net.Conn_Read (teeconn.under c) n) as [[got e] c'].
    simpl in *. lia.
  - simpl. rewrite length_take. lia.
Qed.

(** [ReadAtLeast] never holds more than [size] bytes, and holds [min] of
    them when it returns no error. *)
Lemma ReadAtLeast_length fuel : forall (c : teeconn.Conn) acc size min,
  (length acc <= size)%nat ->
  (length (io.ReadAtLeast_loop fuel c acc size min).1.1 <= size)%nat
  /\ ((io.ReadAtLeast_loop fuel c acc size min).1.2 = None ->
      (min <= length (io.ReadAtLeast_loop fuel c acc size min).1.1)%nat).
Proof.
  induction fuel as [|fuel IH]; intros c acc size min Hacc.
  - simpl. destruct (decide (min <= length acc)%nat); simpl; [lia|].
    split; [lia | discriminate].
  - destruct (decide (min <= length acc)%nat) as [Hd|Hd].
    + rewrite ReadAtLeast_done by exact Hd. simpl. lia.
    + pose proof (Read_length c (size - length acc)) as Hlen.
      destruct (io.Read c (size - length acc)) as [[bs err] c'] eqn:Hrd.
      rewrite (ReadAtLeast_step fuel c acc size min bs err c' Hd Hrd).
      simpl in Hlen.
      assert (Hacc' : (length (acc ++ bs) <= size)%nat)
        by (rewrite length_app; lia).
      destruct err as [e|]; [|apply IH; exact Hacc'].
      repeat case_decide; simpl; (split; [lia | try discriminate; lia]).
Qed.

Lemma ReadFull_exact (c : teeconn.Conn) size got c' :
  io.ReadFull c size = ((got, None), c') -> length got = size.
Proof.
  unfold io.ReadFull. intros H.
  pose proof (ReadAtLeast_length (S (io.backlog c)) c [] size size) as [H1 H2];
    [simpl; lia|].
  rewrite H in H1, H2. simpl in H1, H2. specialize (H2 eq_refl). lia.
Qed.

Lemma Uint16_range (b : list byte) : 0 <= binary.Uint16 b < 65536.
Proof.
  unfold binary.Uint16, wrap16.
  pose proof (u8_range (at_ b 1)) as H1.
  pose proof (Z.mod_pos_bound (Z.shiftl (u8 (at_ b 0)) 8) 65536 ltac:(lia))
    as H0.
  set (x := u8 (at_ b 1)) in *.
  set (y := Z.shiftl (u8 (at_ b 0)) 8 mod 65536) in *.
  split; [apply Z.lor_nonneg; lia|].
  destruct (Z.eq_dec (Z.lor x y) 0) as [->|Hne]; [lia|].
  apply (Z.log2_lt_pow2 _ 16);
    [pose proof (proj2 (Z.lor_nonneg x y)); lia|].
  rewrite Z.log2_lor by lia.
  apply Z.max_lub_lt.
  - destruct (Z.eq_dec x 0) as [->|]; [simpl; lia|].
    apply Z.log2_lt_pow2; lia.
  - destruct (Z.eq_dec y 0) as [->|]; [simpl; lia|].
    apply Z.log2_lt_pow2; lia.
Qed.

Lemma port_of_range (hi lo : byte) : 0 <= port_of hi lo < 65536.
Proof. unfold port_of, wrap16. apply Z.mod_pos_bound. lia. Qed.

Lemma Fulfill_well_formed (c : teeconn.Conn) a c' :
  trojan.Fulfill trojan.domain.zero c = ((None, a), c') ->
  (length (trojan.domain.ADDR a) <= 255)%nat
  /\ 0 <= trojan.domain.PORT a < 65536
  /\ trojan.domain.CRLF a = [x00; x00].
Proof.
  unfold trojan.Fulfill.
  destruct (io.Read c 1) as [[buf err] c1].
  case_match; [discriminate|].
  pose proof (u8_range (at_ buf 0)) as Hl.
  destruct (io.Read c1 (Z.to_nat (u8 (at_ buf 0)) + 4)) as [[got err'] c2].
  case_match eqn:Hc.
  - intros [= Hw <- <-]. simpl. repeat split; simpl; lia.
  - intros [= <- <-]. simpl.
    split; [rewrite length_take; lia|].
    split; [apply port_of_range | reflexivity].
Qed.

(** X1: whatever the connection delivers, an address that [Unwrap]
    returns is well formed: an IPv4 address has 4 address bytes, an IPv6
    address 16, each with two trailing bytes; a domain name has at most
    255 bytes and its two trailing bytes are left zero; the port is a
    [uint16]. *)
Theorem Unwrap_address_well_formed t (c : teeconn.Conn) addr c' :
  trojan.Unwrap t c = (Some addr, c') ->
  match addr with
  | trojan.IPv4 a =>
      length (trojan.ipv4Addr.ADDR a) = 4%nat
      /\ 0 <= trojan.ipv4Addr.PORT a < 65536
      /\ length (trojan.ipv4Addr.CRLF a) = 2%nat
  | trojan.IPv6 a =>
      length (trojan.ipv6Addr.ADDR a) = 16%nat
      /\ 0 <= trojan.ipv6Addr.PORT a < 65536
      /\ length (trojan.ipv6Addr.CRLF a) = 2%nat
  | trojan.Domain a =>
      (length (trojan.domain.ADDR a) <= 255)%nat
      /\ 0 <= trojan.domain.PORT a < 65536
      /\ trojan.domain.CRLF a = [x00; x00]
  end.
Proof.
  destruct (io.Read c trojan.headLen) as [[got err] c1] eqn:Hrd.
  rewrite (Unwrap_head t c got err c1 Hrd).
  case_match; [discriminate|].
  case_match; [discriminate|].
  destruct (decide (at_ got 59 = x01));
    [|destruct (decide (at_ got 59 = x04));
      [|destruct (decide (at_ got 59 = x03)); [|discriminate]]].
  - unfold binary.Read.
    destruct (io.ReadFull c1 binary.dataSize) as [[buf [e0|]] c2] eqn:Hfull;
      [discriminate|].
    intros [= <- <-]. apply ReadFull_exact in Hfull.
    change (@binary.dataSize _ trojan.ipv4Addr_Fixed) with 8%nat in Hfull.
    simpl. rewrite !length_take, length_drop.
    pose proof (Uint16_range (drop 4 buf)). repeat split; lia.
  - unfold binary.Read.
    destruct (io.ReadFull c1 binary.dataSize) as [[buf [e0|]] c2] eqn:Hfull;
      [discriminate|].
    intros [= <- <-]. apply ReadFull_exact in Hfull.
    change (@binary.dataSize _ trojan.ipv6Addr_Fixed) with 20%nat in Hfull.
    simpl. rewrite !length_take, length_drop.
    pose proof (Uint16_range (drop 16 buf)). repeat split; lia.
  - destruct (trojan.Fulfill trojan.domain.zero c1) as [[[e0|] a] c2] eqn:Hf;
      [discriminate|].
    intros [= <- <-]. exact (Fulfill_well_formed c1 a c2 Hf).
Qed.

(** The frame for "example.com", port 8080, cut after the first 3 bytes
    of the name: [Unwrap] returns an address, and it is well formed. *)
Lemma Unwrap_address_well_formed_witness :
  let c := teeconn.accept [Data (take 64 sample.frame_domain);
                           Data (drop 64 sample.frame_domain)] in
  (trojan.Unwrap sample.t c).1 = Some (trojan.Domain trojan.domain.zero)
  /\ (length (trojan.domain.ADDR trojan.domain.zero) <= 255)%nat
  /\ 0 <= trojan.domain.PORT trojan.domain.zero < 65536
  /\ trojan.domain.CRLF trojan.domain.zero = [x00; x00].
Proof.
  intros c. split; [vm_compute; reflexivity|].
  assert (H : trojan.Unwrap sample.t c
              = (Some (trojan.Domain trojan.domain.zero),
                 (trojan.Unwrap sample.t c).2))
    by (vm_compute; reflexivity).
  exact (Unwrap_address_well_formed sample.t c _ _ H).
Defined.

(** ** What [Unwrap] does to the connection *)

Section OnlyReading.

Import teeconn.

Lemma only_read_refl (c : Conn) : only_read c c.
Proof. repeat split; auto. Qed.

Lemma only_read_trans (a b c : Conn) :
  only_read a b -> only_read b c -> only_read a c.
Proof.
  intros (T1 & W1 & C1 & P1 & K1) (T2 & W2 & C2 & P2 & K2).
  do 4 (split; [congruence|]).
  intros Hp Hr. destruct (K1 Hp Hr) as [Hr1 E1].
  assert (Hp1 : peeking b = true) by congruence.
  destruct (K2 Hp1 Hr1) as [Hr2 E2]. split; congruence.
Qed.

Lemma Read_only_read (c : Conn) (n : nat) : only_read c (io.Read c n).2.
Proof.
  destruct c as [[rx wx tx cl] b pk rp].
  unfold io.Read. cbn. unfold Read. cbn.
  destruct rp as [|r rp].
  - unfold net.Conn_Read. cbn.
    assert (Hnil : only_read (MkConn (net.MkConn rx wx tx cl) b pk [])
                     (MkConn (net.MkConn rx wx tx cl)
                        (if pk then b ++ [] else b) pk [])).
    { do 4 (split; [reflexivity|]). cbn. intros -> _.
      rewrite app_nil_r. split; reflexivity. }
    destruct cl; [exact Hnil|].
    destruct rx as [|[bs e] evs]; [exact Hnil|].
    destruct (decide (length bs <= n)%nat); cbn.
    + do 4 (split; [reflexivity|]). cbn. intros -> _. split; [reflexivity|].
      unfold net.pending. cbn. rewrite app_assoc. reflexivity.
    + do 4 (split; [reflexivity|]). cbn. intros -> _. split; [reflexivity|].
      unfold net.pending. cbn.
      rewrite <- !app_assoc, (app_assoc (take n bs)), take_drop. reflexivity.
  - cbn. do 4 (split; [reflexivity|]). cbn. discriminate.
Qed.

Lemma ReadAtLeast_only_read fuel : forall (c : Conn) acc size min,
  only_read c (io.ReadAtLeast_loop fuel c acc size min).2.
Proof.
  induction fuel as [|fuel IH]; intros c acc size min.
  - simpl. destruct (decide _); apply only_read_refl.
  - destruct (decide (min <= length acc)%nat) as [Hd|Hd].
    + rewrite ReadAtLeast_done by exact Hd. apply only_read_refl.
    + pose proof (Read_only_read c (size - length acc)) as Hrd.
      destruct (io.Read c (size - length acc)) as [[bs err] c'] eqn:E.
      rewrite (ReadAtLeast_step fuel c acc size min bs err c' Hd E).
      simpl in Hrd. destruct err as [e|].
      * repeat case_decide; exact Hrd.
      * eapply only_read_trans; [exact Hrd | apply IH].
Qed.

Lemma binary_Read_only_read A `{binary.Fixed A} (c : Conn) :
  only_read c (binary.Read A c).2.
Proof.
  unfold binary.Read, io.ReadFull.
  pose proof (ReadAtLeast_only_read (S (io.backlog c)) c [] binary.dataSize
                binary.dataSize) as Hr.
  destruct (io.ReadAtLeast_loop _ c [] _ _) as [[buf [e|]] c']; exact Hr.
Qed.

Lemma Fulfill_only_read a (c : Conn) : only_read c (trojan.Fulfill a c).2.
Proof.
  unfold trojan.Fulfill.
  pose proof (Read_only_read c 1) as H1.
  destruct (io.Read c 1) as [[buf err] c1]. simpl in H1.
  destruct (_ || _); [exact H1|].
  pose proof (Read_only_read c1 (Z.to_nat (u8 (at_ buf 0)) + 4)) as H2.
  destruct (io.Read c1 _) as [[got err'] c2]. simpl in H2.
  destruct (_ || _); simpl; eapply only_read_trans; eassumption.
Qed.

Lemma Unwrap_only_read t (c : Conn) : only_read c (trojan.Unwrap t c).2.
Proof.
  pose proof (Read_only_read c trojan.headLen) as H1.
  destruct (io.Read c trojan.headLen) as [[got err] c1] eqn:Hrd.
  rewrite (Unwrap_head t c got err c1 Hrd). simpl in H1.
  destruct (_ || _); [exact H1|].
  destruct (negb _); [exact H1|].
  destruct (decide (at_ got 59 = x01)).
  { pose proof (binary_Read_only_read trojan.ipv4Addr.t c1) as H2.
    destruct (binary.Read trojan.ipv4Addr.t c1) as [[a|e'] c2];
      eapply only_read_trans; eassumption. }
  destruct (decide (at_ got 59 = x04)).
  { pose proof (binary_Read_only_read trojan.ipv6Addr.t c1) as H2.
    destruct (binary.Read trojan.ipv6Addr.t c1) as [[a|e'] c2];
      eapply only_read_trans; eassumption. }
  destruct (decide (at_ got 59 = x03)); [|exact H1].
  pose proof (Fulfill_only_read trojan.domain.zero c1) as H2.
  destruct (trojan.Fulfill trojan.domain.zero c1) as [[[e'|] a] c2];
    eapply only_read_trans; eassumption.
Qed.

End OnlyReading.

(** X2: [Unwrap] only reads.  Whatever it returns, it has written nothing
    to the peer and has not closed the connection; and on a connection
    that is peeking and replays nothing no byte is lost: the bytes
    recorded, followed by the bytes that have arrived and are not read
    yet, are the same after the call as before it. *)
Theorem Unwrap_only_reads t (c : teeconn.Conn) :
  let c' := (trojan.Unwrap t c).2 in
  net.tx (teeconn.under c') = net.tx (teeconn.under c)
  /\ net.wx (teeconn.under c') = net.wx (teeconn.under c)
  /\ net.closed (teeconn.under c') = net.closed (teeconn.under c)
  /\ teeconn.peeking c' = teeconn.peeking c
  /\ (teeconn.peeking c = true -> teeconn.replay c = [] ->
      teeconn.replay c' = []
      /\ teeconn.buf c' ++ net.pending (teeconn.under c')
         = teeconn.buf c ++ net.pending (teeconn.under c)).
Proof. exact (Unwrap_only_read t c). Qed.

(** ** What [Unwrap] takes from the stream *)

Section Recording.

Import teeconn.

(** One [Read] when an arrival is ahead, with what a peeking connection
    records. *)
Lemma Read_recorded (c : Conn) (n : nat) bs e evs :
  ahead c (net.Ev bs e :: evs) ->
  peeking c = true ->
  exists c',
    io.Read c n =
      ((take n bs, if decide (length bs <= n)%nat then e else None), c')
    /\ ahead c' (if decide (length bs <= n)%nat then evs
                 else net.Ev (drop n bs) e :: evs)
    /\ peeking c' = true
    /\ buf c' = buf c ++ take n bs.
Proof.
  intros (Hr & Hc & Hx) Hp. destruct c as [[rx wx tx cl] b pk rp].
  simpl in *. subst. unfold Read. cbn.
  destruct (decide (length bs <= n)%nat) as [Hle|Hgt].
  - rewrite firstn_all2 by lia. eexists. split; [reflexivity|].
    repeat split.
  - eexists. split; [reflexivity|]. repeat split.
Qed.

(** [ReadFull] when the first arrival holds all it wants. *)
Lemma ReadFull_recorded (c : Conn) (size : nat) bs evs :
  ahead c (Data bs :: evs) ->
  peeking c = true ->
  (0 < size <= length bs)%nat ->
  exists c',
    io.ReadFull c size = ((take size bs, None), c')
    /\ ahead c' (if decide (length bs <= size)%nat then evs
                 else Data (drop size bs) :: evs)
    /\ peeking c' = true
    /\ buf c' = buf c ++ take size bs.
Proof.
  intros Ha Hp Hsize.
  destruct (Read_recorded c size bs None evs Ha Hp) as (c' & Hrd & Ha' & Hp' & Hb).
  exists c'. split; [|auto].
  unfold io.ReadFull.
  assert (Hrd' : io.Read c (size - length (@nil byte))
                 = ((take size bs, None), c')).
  { replace (size - length (@nil byte))%nat with size by (simpl; lia).
    rewrite Hrd. destruct (decide _); reflexivity. }
  rewrite (ReadAtLeast_step _ c [] size size _ _ _ ltac:(simpl; lia) Hrd').
  simpl. apply ReadAtLeast_done. rewrite length_take. lia.
Qed.


(** The head read by [Unwrap], with what the connection has recorded. *)
Lemma Unwrap_head_recorded t (c : Conn) bs evs :
  ahead c (Data bs :: evs) ->
  peeking c = true ->
  (60 < length bs)%nat ->
  take 56 bs = trojan.headPasswd t ->
  exists c',
    ahead c' (Data (drop 60 bs) :: evs)
    /\ peeking c' = true
    /\ buf c' = buf c ++ take 60 bs
    /\ (trojan.Unwrap t c).2 =
       if decide (at_ bs 59 = x01) then (binary.Read trojan.ipv4Addr.t c').2
       else if decide (at_ bs 59 = x04) then (binary.Read trojan.ipv6Addr.t c').2
       else if decide (at_ bs 59 = x03)
       then (trojan.Fulfill trojan.domain.zero c').2
       else c'.
Proof.
  intros Hc Hp Hlen Hpw.
  destruct (Read_recorded c trojan.headLen _ _ _ Hc Hp)
    as (c' & Hrd & Hc' & Hp' & Hb).
  change trojan.headLen with 60%nat in Hrd, Hc', Hb.
  destruct (decide (length bs <= 60)%nat) as [|_]; [lia|].
  exists c'. repeat split; try assumption; try apply Hc'.
  rewrite (Unwrap_head t c _ _ _ Hrd).
  rewrite length_take, Nat.min_l by lia.
  rewrite take_take. change (56 `min` 60)%nat with 56%nat.
  rewrite Hpw. unfold bytes.Equal.
  rewrite (bool_decide_eq_true_2
             (trojan.headPasswd t = trojan.headPasswd t)) by reflexivity.
  assert (E : at_ (take 60 bs) 59 = at_ bs 59).
  { rewrite !at_lookup, lookup_take_lt by lia. reflexivity. }
  rewrite E.
  rewrite (bool_decide_eq_false_2 (None ≠ None))
    by (intros H; apply H; reflexivity).
  rewrite (bool_decide_eq_false_2 (60%nat ≠ trojan.headLen))
    by (intros H; apply H; reflexivity).
  cbn [orb negb].
  destruct (decide (at_ bs 59 = x01)).
  { destruct (binary.Read trojan.ipv4Addr.t c') as [[? | ?] ?]; reflexivity. }
  destruct (decide (at_ bs 59 = x04)).
  { destruct (binary.Read trojan.ipv6Addr.t c') as [[? | ?] ?]; reflexivity. }
  destruct (decide (at_ bs 59 = x03)); [|reflexivity].
  destruct (trojan.Fulfill trojan.domain.zero c') as [[[?|] ?] ?]; reflexivity.
Qed.

(** The connection after [binary.Read] and after [Fulfill]. *)
Lemma binary_Read_recorded A `{binary.Fixed A} (c : Conn) bs evs :
  ahead c (Data bs :: evs) ->
  peeking c = true ->
  (0 < binary.dataSize <= length bs)%nat ->
  let c' := (binary.Read A c).2 in
  ahead c' (if decide (length bs <= binary.dataSize)%nat then evs
            else Data (drop binary.dataSize bs) :: evs)
  /\ peeking c' = true
  /\ buf c' = buf c ++ take binary.dataSize bs.
Proof.
  intros Hc Hp Hsz.
  destruct (ReadFull_recorded c binary.dataSize bs evs Hc Hp Hsz)
    as (c' & Hrf & Hres).
  unfold binary.Read. rewrite Hrf. exact Hres.
Qed.

Lemma Fulfill_recorded (c : Conn) (l : byte) rest evs :
  ahead c (Data (l :: rest) :: evs) ->
  peeking c = true ->
  let n := (Z.to_nat (u8 l) + 4)%nat in
  (n <= length rest)%nat ->
  let c' := (trojan.Fulfill trojan.domain.zero c).2 in
  ahead c' (if decide (length rest <= n)%nat then evs
            else Data (drop n rest) :: evs)
  /\ peeking c' = true
  /\ buf c' = buf c ++ l :: take n rest.
Proof.
  intros Hc Hp n Hn.
  destruct (Read_recorded c 1 _ _ _ Hc Hp) as (c1 & Hrd1 & Hc1 & Hp1 & Hb1).
  assert (Hgt : ~ (length (l :: rest) <= 1)%nat) by (simpl; lia).
  destruct (decide (length (l :: rest) <= 1)%nat); [contradiction|].
  change (take 1 (l :: rest)) with [l] in Hrd1, Hb1.
  change (drop 1 (l :: rest)) with rest in Hc1.
  destruct (Read_recorded c1 n _ _ _ Hc1 Hp1) as (c2 & Hrd2 & Hc2 & Hp2 & Hb2).
  assert (E : (trojan.Fulfill trojan.domain.zero c).2 = c2).
  { unfold trojan.Fulfill. rewrite Hrd1. cbn [length at_ nth].
    rewrite (bool_decide_eq_false_2 (None ≠ None))
      by (intros H; apply H; reflexivity).
    rewrite (bool_decide_eq_false_2 (1%nat ≠ 1%nat))
      by (intros H; apply H; reflexivity).
    cbn [orb]. fold n. rewrite Hrd2.
    destruct (_ || _); reflexivity. }
  simpl. rewrite E. repeat split; try apply Hc2; try assumption.
  rewrite Hb2, Hb1, <- app_assoc. reflexivity.
Qed.

End Recording.

(** The size of a frame. *)
Lemma length_frame password host port :
  let ip := net.ParseIP host in
  length (trojan.frame (trojan.New password) host port)
  = if decide (length (net.To4 ip) ≠ 0%nat) then 68%nat
    else if decide (length ip ≠ 0%nat) then 80%nat
    else (65 + length host)%nat.
Proof.
  intros ip. rewrite frame_layout. fold ip.
  pose proof (length_ParseIP host) as Hip. fold ip in Hip.
  pose proof (length_To4 ip Hip) as H4.
  rewrite !length_app, length_Encode, length_Sum224.
  destruct (decide (length (net.To4 ip) ≠ 0%nat)) as [Hv4|Hv4].
  - destruct H4 as [E|H4]; [rewrite E in Hv4; contradiction|].
    simpl. rewrite H4. reflexivity.
  - destruct (decide (length ip ≠ 0%nat)) as [Hv6|Hdom].
    + destruct Hip as [E|Hip]; [rewrite E in Hv6; contradiction|].
      simpl. rewrite Hip. reflexivity.
    + simpl. lia.
Qed.

Lemma Unwrap_frame_recorded password host port payload evs :
  (length host <= 255)%nat ->
  let t := trojan.New password in
  let c' := (trojan.Unwrap t
               (teeconn.accept
                  (Data (trojan.frame t host port ++ payload) :: evs))).2 in
  teeconn.ahead c' (if decide (payload = []) then evs else Data payload :: evs)
  /\ teeconn.peeking c' = true
  /\ teeconn.buf c' = trojan.frame t host port.
Proof.
  intros Hhost t.
  pose proof (length_frame password host port) as Hlen. fold t in Hlen.
  pose proof (frame_layout password host port) as Hlay. fold t in Hlay.
  cbv zeta in Hlen, Hlay.
  rewrite <- headPasswd_New in Hlay. fold t in Hlay.
  pose proof (length_headPasswd password) as Hhp. fold t in Hhp.
  set (f := trojan.frame t host port) in *.
  set (hp := trojan.headPasswd t) in *.
  set (ip := net.ParseIP host) in *.
  assert (Hdrop : forall n, n = length f ->
            (if decide (length (drop 60 (f ++ payload)) <= n - 60)%nat then evs
             else Data (drop (n - 60) (drop 60 (f ++ payload))) :: evs)
            = if decide (payload = []) then evs else Data payload :: evs).
  { intros n ->. rewrite drop_drop, length_drop, length_app.
    assert (60 <= length f)%nat by (rewrite Hlen; repeat case_decide; lia).
    replace (60 + (length f - 60))%nat with (length f) by lia.
    rewrite drop_app_length.
    destruct payload; simpl; repeat case_decide; try reflexivity;
      try congruence; simpl in *; lia. }
  assert (Htake : forall n, n = length f ->
            take 60 (f ++ payload) ++ take (n - 60) (drop 60 (f ++ payload)) = f).
  { intros n ->.
    assert (60 <= length f)%nat by (rewrite Hlen; repeat case_decide; lia).
    rewrite take_app_le, drop_app_le by lia.
    rewrite take_app_le by (rewrite length_drop; lia).
    rewrite (take_ge (drop 60 f)) by (rewrite length_drop; lia).
    apply take_drop. }
  assert (Hpw : take 56 (f ++ payload) = hp).
  { rewrite Hlay, <- app_assoc. apply take_app_length'. symmetry. exact Hhp. }
  assert (H59 : at_ (f ++ payload) 59
                = if decide (length (net.To4 ip) ≠ 0%nat) then x01
                  else if decide (length ip ≠ 0%nat) then x04 else x03).
  { rewrite at_lookup, Hlay, <- app_assoc. rewrite lookup_app_r by lia. rewrite Hhp.
    repeat case_decide; reflexivity. }
  assert (Hlong : (60 < length (f ++ payload))%nat).
  { rewrite length_app, Hlen. repeat case_decide; lia. }
  destruct (Unwrap_head_recorded t (teeconn.accept (Data (f ++ payload) :: evs))
              (f ++ payload) evs (ahead_accept _) eq_refl Hlong Hpw)
    as (c1 & Hc1 & Hp1 & Hb1 & ->).
  simpl in Hb1. rewrite H59. clear H59 Hlong. revert Hlen Hlay.
  destruct (decide (length (net.To4 ip) ≠ 0%nat)) as [Hv4|Hv4].
  - intros Hlen Hlay.
    destruct (decide (x01 = x01)) as [_|]; [|congruence].
    destruct (binary_Read_recorded trojan.ipv4Addr.t c1 _ _ Hc1 Hp1)
      as (Ha & Hp2 & Hb2).
    { change (@binary.dataSize trojan.ipv4Addr.t _) with 8%nat.
      rewrite length_drop, length_app, Hlen. lia. }
    change (@binary.dataSize trojan.ipv4Addr.t _) with (68 - 60)%nat in Ha, Hb2.
    rewrite (Hdrop 68%nat) in Ha by (symmetry; exact Hlen).
    rewrite Hb1, (Htake 68%nat) in Hb2 by (symmetry; exact Hlen).
    auto.
  - destruct (decide (length ip ≠ 0%nat)) as [Hv6|Hdom]; intros Hlen Hlay.
    + destruct (decide (x04 = x01)) as [|_]; [discriminate|].
      destruct (decide (x04 = x04)) as [_|]; [|congruence].
      destruct (binary_Read_recorded trojan.ipv6Addr.t c1 _ _ Hc1 Hp1)
        as (Ha & Hp2 & Hb2).
      { change (@binary.dataSize trojan.ipv6Addr.t _) with 20%nat.
        rewrite length_drop, length_app, Hlen. lia. }
      change (@binary.dataSize trojan.ipv6Addr.t _) with (80 - 60)%nat in Ha, Hb2.
      rewrite (Hdrop 80%nat) in Ha by (symmetry; exact Hlen).
      rewrite Hb1, (Htake 80%nat) in Hb2 by (symmetry; exact Hlen).
      auto.
    + destruct (decide (x03 = x01)) as [|_]; [discriminate|].
      destruct (decide (x03 = x04)) as [|_]; [discriminate|].
      destruct (decide (x03 = x03)) as [_|]; [|congruence].
      set (l := byte_of (Z.of_nat (length host))) in *.
      pose proof (u8_length host Hhost) as Hl. fold l in Hl.
      set (ph := byte_of (Z.shiftr port 8)) in *. set (pl := byte_of port) in *.
      set (rest := (host ++ [ph; pl; x0d; x0a]) ++ payload).
      assert (Hd : drop 60 (f ++ payload) = l :: rest).
      { destruct (head_split hp x0d x0a x01 x03 (l :: rest) Hhp)
          as (_ & _ & _ & D).
        rewrite <- D. f_equal. rewrite Hlay. unfold rest.
        rewrite <- !app_assoc. reflexivity. }
      assert (Hn : (length f - 60 = S (Z.to_nat (u8 l) + 4))%nat)
        by (rewrite Hlen, Hl; lia).
      specialize (Hdrop _ eq_refl). specialize (Htake _ eq_refl).
      rewrite Hn, Hd in Hdrop, Htake. rewrite Hd in Hc1.
      destruct (Fulfill_recorded c1 l rest evs Hc1 Hp1) as (Ha & Hp2 & Hb2).
      { unfold rest. rewrite Hl, !length_app. simpl. lia. }
      split; [|split; [exact Hp2|]].
      * rewrite <- Hdrop. simpl length. simpl drop.
        destruct (decide (length rest <= _)%nat);
          destruct (decide (S (length rest) <= _)%nat); try lia; exact Ha.
      * rewrite Hb2, Hb1. exact Htake.
Qed.

(** X3: [Unwrap] takes the frame and nothing more.  When the frame that
    [Wrap] builds for a host of at most 255 bytes arrives with payload
    behind it in the same segment, the connection after [Unwrap] has
    recorded exactly the frame, still peeks, and has the payload ahead:
    the next [Read] returns the start of the payload. *)
Theorem Unwrap_consumes_frame password host port payload evs :
  (length host <= 255)%nat ->
  let t := trojan.New password in
  let c' := (trojan.Unwrap t
               (teeconn.accept
                  (Data (trojan.frame t host port ++ payload) :: evs))).2 in
  teeconn.buf c' = trojan.frame t host port
  /\ teeconn.peeking c' = true
  /\ teeconn.ahead c' (if decide (payload = []) then evs
                       else Data payload :: evs)
  /\ (payload <> [] ->
      forall n, (io.Read c' n).1 = (take n payload, None)).
Proof.
  intros Hhost t c'.
  destruct (Unwrap_frame_recorded password host port payload evs Hhost)
    as (Ha & Hp & Hb).
  fold t in Ha, Hp, Hb. fold c' in Ha, Hp, Hb.
  split; [exact Hb|]. split; [exact Hp|]. split; [exact Ha|].
  intros Hne n. destruct (decide (payload = [])) as [|_]; [contradiction|].
  destruct (Read_arrival c' n _ _ _ Ha) as (c2 & -> & _).
  destruct (decide _); reflexivity.
Qed.

(** The frame for "example.com", port 8080, with the start of a request
    behind it. *)
Lemma Unwrap_consumes_frame_witness :
  let c' := (trojan.Unwrap sample.t
               (teeconn.accept
                  [Data (sample.frame_domain ++ str "GET / HTTP/1.1")])).2 in
  (length (str "example.com") <= 255)%nat
  /\ teeconn.buf c' = sample.frame_domain
  /\ (io.Read c' 5).1 = (str "GET /", None).
Proof.
  intros c'. split; [vm_compute; lia|].
  destruct (Unwrap_consumes_frame (str "password") (str "example.com") 8080
              (str "GET / HTTP/1.1") [] ltac:(vm_compute; lia))
    as (Hb & _ & _ & Hr).
  split; [exact Hb|]. exact (Hr ltac:(discriminate) 5%nat).
Defined.

(** ** The bytes after the address *)

(** The port as a number, in both decoders. *)
Lemma port_of_value (hi lo : byte) : port_of hi lo = u8 hi * 256 + u8 lo.
Proof.
  pose proof (u8_range hi). pose proof (u8_range lo).
  unfold port_of, wrap16. rewrite Z.shiftl_mul_pow2 by lia.
  change (2 ^ 8) with 256. rewrite (Z.mod_small (u8 hi * 256)) by lia.
  apply Z.mod_small. lia.
Qed.

Lemma Uint16_value (hi lo : byte) rest :
  binary.Uint16 (hi :: lo :: rest) = u8 hi * 256 + u8 lo.
Proof.
  pose proof (u8_range hi). pose proof (u8_range lo).
  set (p := u8 hi * 256 + u8 lo).
  assert (Hhi : byte_of (Z.shiftr p 8) = hi).
  { rewrite Z.shiftr_div_pow2 by lia. change (2 ^ 8) with 256.
    replace (p / 256) with (u8 hi)
      by (unfold p; apply Z.div_unique with (u8 lo); lia).
    apply byte_of_u8. }
  assert (Hlo : byte_of p = lo).
  { rewrite <- (byte_of_u8 lo). unfold byte_of. f_equal. f_equal. f_equal.
    unfold p. rewrite Z.add_comm, Z.mod_add by lia. reflexivity. }
  rewrite <- Hhi at 1. rewrite <- Hlo at 1.
  apply Uint16_port. unfold p. lia.
Qed.

(** A stream that starts with a head of 60 bytes. *)
Lemma head_prefix (head rest : list byte) :
  length head = 60%nat ->
  (60 <= length (head ++ rest))%nat
  /\ take 56 (head ++ rest) = take 56 head
  /\ at_ (head ++ rest) 59 = at_ head 59
  /\ drop 60 (head ++ rest) = rest.
Proof.
  intros H. repeat split.
  - rewrite length_app. lia.
  - apply take_app_le. lia.
  - rewrite !at_lookup, lookup_app_l by lia. reflexivity.
  - apply drop_app_length'. symmetry. exact H.
Qed.

(** X4: [Unwrap] wants the two bytes after the port to be there and
    never looks at them.  After a head with the right secret, any two
    bytes [z1], [z2] in place of the trailing CRLF are accepted: they are
    stored in the CRLF field of an IPv4 or IPv6 address and dropped for a
    domain name, and the port is [hi * 256 + lo] in all three cases. *)
Theorem Unwrap_trailing_crlf_unchecked t head (hi lo z1 z2 : byte) payload evs :
  length head = 60%nat ->
  take 56 head = trojan.headPasswd t ->
  let port := u8 hi * 256 + u8 lo in
  let tail := [hi; lo; z1; z2] ++ payload in
  let unwrap bs := (trojan.Unwrap t (teeconn.accept (Data bs :: evs))).1 in
  (forall a, at_ head 59 = x01 -> length a = 4%nat ->
     unwrap (head ++ a ++ tail)
     = Some (trojan.IPv4 (trojan.ipv4Addr.Mk a port [z1; z2])))
  /\ (forall a, at_ head 59 = x04 -> length a = 16%nat ->
     unwrap (head ++ a ++ tail)
     = Some (trojan.IPv6 (trojan.ipv6Addr.Mk a port [z1; z2])))
  /\ (forall name, at_ head 59 = x03 -> (length name <= 255)%nat ->
     unwrap (head ++ byte_of (Z.of_nat (length name)) :: name ++ tail)
     = Some (trojan.Domain (trojan.domain.Mk name port [x00; x00]))).
Proof.
  intros Hlen Hpw port tail unwrap. subst unwrap. cbv beta.
  split; [|split].
  - intros a Hty Ha.
    destruct (head_prefix head (a ++ tail) Hlen) as (L & T & A & D).
    rewrite Hpw in T. rewrite Hty in A.
    change evs with (map (fun f => Data f) [] ++ evs).
    rewrite (Unwrap_ipv4_stream t _ [] evs L T A); rewrite D, app_nil_r.
    + destruct a as [|a0 [|a1 [|a2 [|a3 [|? ?]]]]]; try discriminate.
      simpl. rewrite Uint16_value. reflexivity.
    + rewrite length_app, Ha. simpl. lia.
  - intros a Hty Ha.
    destruct (head_prefix head (a ++ tail) Hlen) as (L & T & A & D).
    rewrite Hpw in T. rewrite Hty in A.
    change evs with (map (fun f => Data f) [] ++ evs).
    rewrite (Unwrap_ipv6_stream t _ [] evs L T A); rewrite D, app_nil_r.
    + do 16 (destruct a as [|? a]; [discriminate|]).
      destruct a; [|discriminate].
      simpl. rewrite Uint16_value. reflexivity.
    + rewrite length_app, Ha. simpl. lia.
  - intros name Hty Hname.
    set (l := byte_of (Z.of_nat (length name))).
    assert (E : l :: name ++ tail = l :: (name ++ [hi; lo; z1; z2]) ++ payload).
    { unfold tail. rewrite <- app_assoc. reflexivity. }
    rewrite E.
    destruct (head_prefix head (l :: (name ++ [hi; lo; z1; z2]) ++ payload)
                Hlen) as (L & T & A & D).
    rewrite Hpw in T. rewrite Hty in A.
    pose proof (u8_length name Hname) as Hl. fold l in Hl.
    rewrite (Unwrap_domain_stream t _ l (name ++ [hi; lo; z1; z2]) payload
               evs L T A D)
      by (rewrite Hl, length_app; reflexivity).
    rewrite Hl, take_app_length.
    rewrite !at_lookup, !lookup_app_r by lia.
    rewrite Nat.sub_diag.
    replace (length name + 1 - length name)%nat with 1%nat by lia.
    simpl. rewrite port_of_value. reflexivity.
Qed.

(** The IPv4 frame of the sample with "XY" in place of its last two
    bytes. *)
Lemma Unwrap_trailing_crlf_unchecked_witness :
  let head := take 60 sample.frame_ipv4 in
  let a := [byte_of 93; byte_of 184; byte_of 216; byte_of 34] in
  length head = 60%nat
  /\ take 56 head = trojan.headPasswd sample.t
  /\ (trojan.Unwrap sample.t
        (teeconn.accept
           [Data (head ++ a ++ [x01; xbb; "X"%byte; "Y"%byte] ++ [])])).1
     = Some (trojan.IPv4 (trojan.ipv4Addr.Mk a (u8 x01 * 256 + u8 xbb)
                            ["X"%byte; "Y"%byte])).
Proof.
  intros head a.
  assert (Hlen : length head = 60%nat) by (vm_compute; reflexivity).
  assert (Hpw : take 56 head = trojan.headPasswd sample.t)
    by (vm_compute; reflexivity).
  split; [exact Hlen|]. split; [exact Hpw|].
  destruct (Unwrap_trailing_crlf_unchecked sample.t head x01 xbb
              "X"%byte "Y"%byte [] [] Hlen Hpw) as [P _].
  apply (P a); [vm_compute; reflexivity | reflexivity].
Defined.

(** X5: a domain frame whose name is cut short is taken for an empty
    name.  After a head of type 3 with the right secret and the length
    byte [l], when the same segment holds some but fewer than [l + 4]
    more bytes, the second read of [Fulfill] is short without an error,
    [errors.Wrap(nil, ...)] is nil, and [Unwrap] returns a domain address
    with the empty name and port 0 instead of nil. *)
Theorem Unwrap_truncated_domain_is_empty t head (l : byte) r evs :
  length head = 60%nat ->
  take 56 head = trojan.headPasswd t ->
  at_ head 59 = x03 ->
  (0 < length r < Z.to_nat (u8 l) + 4)%nat ->
  exists c',
    trojan.Unwrap t (teeconn.accept (Data (head ++ l :: r) :: evs))
    = (Some (trojan.Domain (trojan.domain.Mk [] 0 [x00; x00])), c')
    /\ teeconn.ahead c' evs.
Proof.
  intros Hlen Hpw Hty Hr.
  destruct (head_prefix head (l :: r) Hlen) as (L & T & A & D).
  rewrite Hpw in T. rewrite Hty in A.
  destruct (Unwrap_domain_reads t (head ++ l :: r) evs l r evs r None evs L T A)
    as (c2 & Hc2 & ->).
  - destruct (decide (length (head ++ l :: r) <= 60)%nat) as [H|_].
    + rewrite length_app in H. simpl in H. lia.
    + rewrite D. reflexivity.
  - destruct (decide (length r = 0)%nat) as [H|_]; [lia | reflexivity].
  - exists c2.
    destruct (decide (Z.to_nat (u8 l) + 4 <= length r)%nat) as [H|_]; [lia|].
    destruct (decide (length r <= Z.to_nat (u8 l) + 4)%nat) as [_|H]; [|lia].
    split; [reflexivity | exact Hc2].
Qed.

(** The frame for "example.com", port 8080, without its last 6 bytes. *)
Lemma Unwrap_truncated_domain_is_empty_witness :
  let head := take 60 sample.frame_domain in
  exists c',
    trojan.Unwrap sample.t
      (teeconn.accept [Data (head ++ byte_of 11 :: str "example.c")])
    = (Some (trojan.Domain (trojan.domain.Mk [] 0 [x00; x00])), c')
    /\ teeconn.ahead c' [].
Proof.
  intros head.
  apply (Unwrap_truncated_domain_is_empty sample.t head (byte_of 11)
           (str "example.c") []);
    [vm_compute; reflexivity | vm_compute; reflexivity
     | vm_compute; reflexivity | vm_compute; lia].
Defined.

(** ** What [Wrap] sends *)

(** X6: [Wrap] makes one write and nothing else.  It reads nothing and
    does not close the connection; what it sends is a prefix of the
    frame; it returns nil only when the whole frame was taken, and else
    an error that carries the number of bytes taken, with those bytes of
    the frame left on the wire.  On a closed connection nothing is
    sent. *)
Theorem Wrap_sends_prefix t (conn : net.Conn) host port :
  let f := trojan.frame t host port in
  let r := trojan.Wrap t conn host port in
  net.rx r.2 = net.rx conn /\ net.closed r.2 = net.closed conn
  /\ exists n,
       (n <= length f)%nat
       /\ net.tx r.2 = net.tx conn ++ take n f
       /\ (r.1 = None /\ n = length f \/ r.1 = Some (ErrWrite n))
       /\ (net.closed conn = true -> n = 0%nat /\ r.1 = Some (ErrWrite 0)).
Proof.
  intros f r. subst r. unfold trojan.Wrap. fold f.
  change (io.Write conn f) with (net.Conn_Write conn f).
  unfold net.Conn_Write. destruct (net.closed conn) eqn:Hc.
  - simpl. repeat split; try assumption. exists 0%nat.
    rewrite take_0, app_nil_r. repeat split; [lia | right; reflexivity].
  - destruct (net.wx conn) as [|[k e] ws].
    + rewrite (bool_decide_eq_false_2 (None ≠ None))
        by (intros H; apply H; reflexivity).
      rewrite (bool_decide_eq_false_2 (length f ≠ length f))
        by (intros H; apply H; reflexivity).
      simpl. repeat split; try assumption. exists (length f).
      rewrite firstn_all. repeat split; [lia | left; split; reflexivity | | ];
        discriminate.
    + set (n := (k `min` length f)%nat).
      destruct (bool_decide (e ≠ None) || bool_decide (n ≠ length f)) eqn:Hb;
        simpl; (split; [reflexivity|]; split; [reflexivity|]); exists n;
        (split; [lia|]); (split; [reflexivity|]);
        (split; [|discriminate]).
      * right. reflexivity.
      * left. split; [reflexivity|].
        apply orb_false_iff in Hb as [_ Hb]. apply bool_decide_eq_false in Hb.
        destruct (decide (n = length f)); [assumption|contradiction].
Qed.


(** X7: on a connection that takes what is written, [Wrap] succeeds and
    sends 68 bytes for an IPv4 literal (also one in IPv4-mapped IPv6
    form), 80 bytes for any other IPv6 literal, and 65 bytes plus the
    length of the host for every other host, whatever that length is. *)
Theorem Wrap_frame_size password arrivals host port :
  let ip := net.ParseIP host in
  let r := trojan.Wrap (trojan.New password) (net.fresh arrivals []) host port in
  r.1 = None
  /\ length (net.tx r.2)
     = if decide (length (net.To4 ip) ≠ 0%nat) then 68%nat
       else if decide (length ip ≠ 0%nat) then 80%nat
       else (65 + length host)%nat.
Proof.
  intros ip r. subst r. rewrite Wrap_fresh. split; [reflexivity|].
  apply length_frame.
Qed.

(** [hex.Encode] writes characters of its table only. *)
Lemma hex_digits (v : byte) :
  at_ hex.hextable (Z.to_nat (Z.shiftr (u8 v) 4)) ∈ hex.hextable
  /\ at_ hex.hextable (Z.to_nat (Z.land (u8 v) 0x0f)) ∈ hex.hextable.
Proof.
  destruct v; split; refine (bool_decide_unpack _ _); vm_compute; exact I.
Qed.

Lemma Encode_hex (src : list byte) :
  Forall (fun b => b ∈ hex.hextable) (hex.Encode src).
Proof.
  unfold hex.Encode. induction src as [|v src IH]; [constructor|].
  destruct (hex_digits v) as [H1 H2].
  cbn [flat_map app]. apply Forall_cons. split; [exact H1|].
  apply Forall_cons. split; [exact H2 | exact IH].
Qed.

(** X8: for every password, also the empty one, [New] computes a secret
    of 56 characters out of "0123456789abcdef", so that neither CR nor LF
    occurs in it, and three heads of 60 bytes each. *)
Theorem New_secret_is_hex password :
  let t := trojan.New password in
  length (trojan.headPasswd t) = 56%nat
  /\ Forall (fun b => b ∈ str "0123456789abcdef") (trojan.headPasswd t)
  /\ (x0d ∉ trojan.headPasswd t) /\ (x0a ∉ trojan.headPasswd t)
  /\ length (trojan.headIPv4 t) = 60%nat
  /\ length (trojan.headIPv6 t) = 60%nat
  /\ length (trojan.headDomain t) = 60%nat.
Proof.
  intros t. pose proof (length_headPasswd password) as Hlen. fold t in Hlen.
  pose proof (Encode_hex (sha256.Sum224 password)) as Hhex.
  rewrite <- headPasswd_New in Hhex. fold t in Hhex.
  assert (Hnot : forall c, c ∉ hex.hextable -> c ∉ trojan.headPasswd t).
  { intros c Hc Hin. rewrite Forall_forall in Hhex. exact (Hc (Hhex c Hin)). }
  split; [exact Hlen|]. split; [exact Hhex|].
  split; [apply Hnot; refine (bool_decide_unpack _ _); vm_compute; exact I|].
  split; [apply Hnot; refine (bool_decide_unpack _ _); vm_compute; exact I|].
  destruct (heads_New password) as (E4 & E6 & Ed). fold t in E4, E6, Ed.
  rewrite E4, E6, Ed, !length_app, Hlen. repeat split.
Qed.

(** ** Hosts that are sent as domain names *)

Lemma ParseIP_scan_no_colon (s rest : list byte) :
  ":"%byte ∉ rest ->
  net.ParseIP_scan s rest = [] \/ net.ParseIP_scan s rest = net.parseIPv4 s.
Proof.
  induction rest as [|c rest IH]; intros Hc; [left; reflexivity|].
  rewrite not_elem_of_cons in Hc. destruct Hc as [Hne Hc].
  cbn [net.ParseIP_scan].
  destruct (decide (c = "."%byte)); [right; reflexivity|].
  destruct (decide (c = ":"%byte)); [congruence|].
  apply IH. exact Hc.
Qed.

Lemma parseIPv4_not_digit (s : list byte) :
  (forall c, head s = Some c -> net.between "0" c "9" = false) ->
  net.parseIPv4 s = [].
Proof.
  intros Hs. unfold net.parseIPv4.
  destruct s as [|c s]; [reflexivity|].
  specialize (Hs c eq_refl).
  change net.IPv4len with 4%nat.
  cbn [net.parseIPv4_loop].
  destruct (decide (length (c :: s) = 0%nat)); [discriminate|].
  change net.IPv4len with 4%nat.
  change (bool_decide (0 < 4 - 4)%nat) with false.
  cbn [andb].
  destruct (decide (0 < 4 - 4)%nat) as [H|_]; [simpl in H; lia|].
  unfold net.dtoi. cbn [net.dtoi_loop]. rewrite Hs.
  destruct (decide (0%nat = 0%nat)); [reflexivity | congruence].
Qed.

(** X9: a host that has no colon and does not start with a decimal
    digit (the empty host too) is no IP literal for [net.ParseIP], and
    [Wrap] sends it as a domain name: type 3, the length as one byte, the
    bytes of the host, the port, CRLF. *)
Theorem Wrap_names_as_domain password host port :
  ":"%byte ∉ host ->
  (forall c, head host = Some c -> net.between "0" c "9" = false) ->
  net.ParseIP host = []
  /\ trojan.frame (trojan.New password) host port
     = hex.Encode (sha256.Sum224 password)
       ++ [x0d; x0a; x01; x03; byte_of (Z.of_nat (length host))] ++ host
       ++ [byte_of (Z.shiftr port 8); byte_of port; x0d; x0a].
Proof.
  intros Hcolon Hdigit.
  assert (Hip : net.ParseIP host = []).
  { destruct (ParseIP_scan_no_colon host host Hcolon) as [H|H];
      [exact H|].
    unfold net.ParseIP. rewrite H. apply parseIPv4_not_digit. exact Hdigit. }
  split; [exact Hip|].
  rewrite frame_layout. cbv zeta. rewrite Hip.
  change (net.To4 []) with (@nil byte).
  destruct (decide (length (@nil byte) ≠ 0%nat)) as [H|_]; [contradiction|].
  reflexivity.
Qed.


Lemma Wrap_names_as_domain_witness :
  net.ParseIP (str "localhost") = []
  /\ trojan.frame (trojan.New (str "password")) (str "localhost") 8080
     = hex.Encode (sha256.Sum224 (str "password"))
       ++ [x0d; x0a; x01; x03; byte_of 9] ++ str "localhost"
       ++ [byte_of (Z.shiftr 8080 8); byte_of 8080; x0d; x0a].
Proof.
  apply (Wrap_names_as_domain (str "password") (str "localhost") 8080).
  - refine (bool_decide_unpack _ _). vm_compute. exact I.
  - intros c [= <-]. reflexivity.
Defined.

(** ** The addresses as text *)

(** [dtoi] reads back what [ubtoa] prints, up to the end of the text or
    the next dot; and [ubtoa] prints no leading zero. *)
Lemma dtoi_ubtoa (v : byte) (rest : list byte) :
  rest = [] \/ (exists r, rest = "."%byte :: r) ->
  net.dtoi (net.ubtoa v ++ rest) = (u8 v, length (net.ubtoa v), true)
  /\ bool_decide (1 < length (net.ubtoa v))%nat
     && bool_decide (at_ (net.ubtoa v ++ rest) 0 = "0"%byte) = false
  /\ (0 < length (net.ubtoa v))%nat
  /\ Forall (fun c => c <> "."%byte /\ c <> ":"%byte) (net.ubtoa v).
Proof.
  intros [->|[r ->]]; destruct v;
    (split; [reflexivity|]); (split; [reflexivity|]);
    (split; [vm_compute; lia|]); repeat constructor; discriminate.
Qed.

(** One turn of the loop of [parseIPv4] over such an octet. *)
Lemma parseIPv4_octet (todo' : nat) (v : byte) (rest p : list byte) :
  (todo' < 4)%nat ->
  rest = [] \/ (exists r, rest = "."%byte :: r) ->
  let i := (3 - todo')%nat in
  net.parseIPv4_loop (S todo')
    ((if decide (0 < i)%nat then ["."%byte] else []) ++ net.ubtoa v ++ rest) p
  = net.parseIPv4_loop todo' rest (<[i := v]> p).
Proof.
  intros Htodo Hrest i.
  destruct (dtoi_ubtoa v rest Hrest) as (Hd & Hz & Hpos & _).
  cbn [net.parseIPv4_loop].
  change (net.IPv4len - S todo')%nat with i.
  set (s := (if decide (0 < i)%nat then ["."%byte] else []) ++ net.ubtoa v ++ rest).
  assert (Hs : (if decide (0 < i)%nat then drop 1 s else s) = net.ubtoa v ++ rest).
  { unfold s. destruct (decide (0 < i)%nat); reflexivity. }
  assert (Hlen : length s <> 0%nat).
  { unfold s. rewrite !length_app. lia. }
  destruct (decide (length s = 0%nat)) as [|_]; [contradiction|].
  assert (Hdot : bool_decide (0 < i)%nat && negb (bool_decide (at_ s 0 = "."%byte))
                 = false).
  { unfold s. destruct (decide (0 < i)%nat) as [H|H].
    - rewrite andb_false_iff. right. reflexivity.
    - rewrite andb_false_iff. left. apply bool_decide_eq_false. exact H. }
  rewrite Hdot, Hs, Hd. cbn [negb orb].
  pose proof (u8_range v) as Hv.
  replace (255 <? u8 v) with false by (symmetry; apply Z.ltb_ge; lia).
  rewrite Hz, drop_app_length, byte_of_u8. reflexivity.
Qed.

Lemma ParseIP_scan_dot (s ds r : list byte) :
  Forall (fun c => c <> "."%byte /\ c <> ":"%byte) ds ->
  net.ParseIP_scan s (ds ++ "."%byte :: r) = net.parseIPv4 s.
Proof.
  induction 1 as [|c ds [H1 H2] _ IH]; cbn [app net.ParseIP_scan].
  - destruct (decide ("."%byte = "."%byte)); [reflexivity | congruence].
  - destruct (decide (c = "."%byte)); [contradiction|].
    destruct (decide (c = ":"%byte)); [contradiction|]. exact IH.
Qed.

(** [net.ParseIP] of four octets printed by [ubtoa]. *)
Lemma ParseIP_dotted (a b c d : byte) :
  net.ParseIP (net.ubtoa a ++ "."%byte :: net.ubtoa b ++ "."%byte
               :: net.ubtoa c ++ "."%byte :: net.ubtoa d)
  = net.IPv4 a b c d.
Proof.
  unfold net.ParseIP.
  rewrite ParseIP_scan_dot by (apply (dtoi_ubtoa a []); left; reflexivity).
  unfold net.parseIPv4. change net.IPv4len with 4%nat.
  pose proof (parseIPv4_octet 3 a
                ("."%byte :: net.ubtoa b ++ "."%byte :: net.ubtoa c
                 ++ "."%byte :: net.ubtoa d) (make 4)
                ltac:(lia) ltac:(right; eexists; reflexivity)) as H0.
  pose proof (parseIPv4_octet 2 b
                ("."%byte :: net.ubtoa c ++ "."%byte :: net.ubtoa d)
                (<[0%nat := a]> (make 4))
                ltac:(lia) ltac:(right; eexists; reflexivity)) as H1.
  pose proof (parseIPv4_octet 1 c ("."%byte :: net.ubtoa d)
                (<[1%nat := b]> (<[0%nat := a]> (make 4)))
                ltac:(lia) ltac:(right; eexists; reflexivity)) as H2.
  pose proof (parseIPv4_octet 0 d []
                (<[2%nat := c]> (<[1%nat := b]> (<[0%nat := a]> (make 4))))
                ltac:(lia) ltac:(left; reflexivity)) as H3.
  cbv zeta in H0, H1, H2, H3.
  change (3 - 3)%nat with 0%nat in H0. change (3 - 2)%nat with 1%nat in H1.
  change (3 - 1)%nat with 2%nat in H2. change (3 - 0)%nat with 3%nat in H3.
  rewrite app_nil_r in H3.
  change (net.parseIPv4_loop 4
            (net.ubtoa a ++ "."%byte :: net.ubtoa b ++ "."%byte
             :: net.ubtoa c ++ "."%byte :: net.ubtoa d) (make 4))
    with (net.parseIPv4_loop 4
            ((if decide (0 < 0)%nat then ["."%byte] else []) ++ net.ubtoa a
             ++ "."%byte :: net.ubtoa b ++ "."%byte :: net.ubtoa c
             ++ "."%byte :: net.ubtoa d) (make 4)).
  rewrite H0.
  change (net.parseIPv4_loop 3
            ("."%byte :: net.ubtoa b ++ "."%byte :: net.ubtoa c
             ++ "."%byte :: net.ubtoa d) (<[0%nat := a]> (make 4)))
    with (net.parseIPv4_loop 3
            ((if decide (0 < 1)%nat then ["."%byte] else []) ++ net.ubtoa b
             ++ "."%byte :: net.ubtoa c ++ "."%byte :: net.ubtoa d)
            (<[0%nat := a]> (make 4))).
  rewrite H1.
  change (net.parseIPv4_loop 2
            ("."%byte :: net.ubtoa c ++ "."%byte :: net.ubtoa d)
            (<[1%nat := b]> (<[0%nat := a]> (make 4))))
    with (net.parseIPv4_loop 2
            ((if decide (0 < 2)%nat then ["."%byte] else []) ++ net.ubtoa c
             ++ "."%byte :: net.ubtoa d)
            (<[1%nat := b]> (<[0%nat := a]> (make 4)))).
  rewrite H2.
  change (net.parseIPv4_loop 1 ("."%byte :: net.ubtoa d)
            (<[2%nat := c]> (<[1%nat := b]> (<[0%nat := a]> (make 4)))))
    with (net.parseIPv4_loop 1
            ((if decide (0 < 3)%nat then ["."%byte] else []) ++ net.ubtoa d)
            (<[2%nat := c]> (<[1%nat := b]> (<[0%nat := a]> (make 4))))).
  rewrite H3. reflexivity.
Qed.

Lemma To4_IPv4 (a b c d : byte) : net.To4 (net.IPv4 a b c d) = [a; b; c; d].
Proof. reflexivity. Qed.

Lemma IP_String_dotted (a b c d : byte) :
  net.IP_String [a; b; c; d]
  = net.ubtoa a ++ "."%byte :: net.ubtoa b ++ "."%byte
    :: net.ubtoa c ++ "."%byte :: net.ubtoa d.
Proof. reflexivity. Qed.

Lemma IP_String_no_colon (a : list byte) :
  length a = 4%nat -> ":"%byte ∉ net.IP_String a.
Proof.
  intros Ha. destruct a as [|a0 [|a1 [|a2 [|a3 [|? ?]]]]]; try discriminate.
  rewrite IP_String_dotted.
  assert (Hd : forall v, Forall (fun c => c <> ":"%byte) (net.ubtoa v)).
  { intros v. destruct (dtoi_ubtoa v [] (or_introl eq_refl)) as (_ & _ & _ & H).
    eapply Forall_impl; [exact H|]. intros c [_ Hc]. exact Hc. }
  assert (H : Forall (fun c => c <> ":"%byte)
                (net.ubtoa a0 ++ "."%byte :: net.ubtoa a1 ++ "."%byte
                 :: net.ubtoa a2 ++ "."%byte :: net.ubtoa a3)).
  { repeat (apply Forall_app; split; [apply Hd|];
            apply Forall_cons; split; [discriminate|]).
    apply Hd. }
  intros Hin. rewrite Forall_forall in H. exact (H _ Hin eq_refl).
Qed.

(** X10: the text of an IPv4 address goes back into the same frame.
    [String()] of an [ipv4Addr] is the dotted decimal text of its four
    bytes, a colon and the port, without brackets; [net.ParseIP] reads
    that text back as the same four bytes, so that [Wrap] of it builds
    the IPv4 frame of these bytes. *)
Theorem ipv4Addr_String_rewraps password (a : list byte) port crlf :
  length a = 4%nat ->
  let t := trojan.New password in
  addr.String (trojan.IPv4 (trojan.ipv4Addr.Mk a port crlf))
    = net.IP_String a ++ ":"%byte :: strconv.Itoa port
  /\ net.To4 (net.ParseIP (net.IP_String a)) = a
  /\ trojan.frame t (net.IP_String a) port
     = trojan.headIPv4 t ++ a
       ++ [byte_of (Z.shiftr port 8); byte_of port; x0d; x0a].
Proof.
  intros Ha t.
  pose proof (IP_String_no_colon a Ha) as Hcolon.
  assert (Hparse : net.To4 (net.ParseIP (net.IP_String a)) = a).
  { destruct a as [|a0 [|a1 [|a2 [|a3 [|? ?]]]]]; try discriminate.
    rewrite IP_String_dotted, ParseIP_dotted. apply To4_IPv4. }
  split; [|split; [exact Hparse|]].
  - cbn [addr.String]. unfold addr.ipv4Addr_String, main.JoinHostPort.
    cbn [trojan.ipv4Addr.ADDR trojan.ipv4Addr.PORT].
    rewrite bool_decide_eq_false_2 by exact Hcolon. reflexivity.
  - unfold trojan.frame. cbv zeta. rewrite Hparse, Ha.
    destruct (decide (4%nat ≠ 0%nat)) as [_|H]; [reflexivity|].
    exfalso. apply H. discriminate.
Qed.

Lemma ipv4Addr_String_rewraps_witness :
  addr.String (trojan.IPv4 (trojan.ipv4Addr.Mk
                 [byte_of 93; byte_of 184; byte_of 216; byte_of 34] 443
                 [x0d; x0a]))
  = str "93.184.216.34:443"
  /\ net.To4 (net.ParseIP (str "93.184.216.34"))
     = [byte_of 93; byte_of 184; byte_of 216; byte_of 34].
Proof.
  destruct (ipv4Addr_String_rewraps (str "password")
              [byte_of 93; byte_of 184; byte_of 216; byte_of 34] 443
              [x0d; x0a] ltac:(reflexivity)) as (Hs & Hp & _).
  split; [exact Hs | exact Hp].
Defined.

(** X11: an [ipv6Addr] whose 16 bytes are an IPv4-mapped address prints
    as the IPv4 address: [IP.String] tries [To4] first, so [String()] is
    the dotted decimal text and the port, without brackets, the same as
    for the [ipv4Addr] of the last four bytes. *)
Theorem mapped_ipv6Addr_prints_as_ipv4 (ip : list byte) port crlf crlf' :
  length (net.To4 ip) = 4%nat ->
  addr.String (trojan.IPv6 (trojan.ipv6Addr.Mk ip port crlf))
  = addr.String (trojan.IPv4 (trojan.ipv4Addr.Mk (net.To4 ip) port crlf'))
  /\ addr.String (trojan.IPv6 (trojan.ipv6Addr.Mk ip port crlf))
     = net.IP_String (net.To4 ip) ++ ":"%byte :: strconv.Itoa port.
Proof.
  intros H4.
  assert (E : net.IP_String ip = net.IP_String (net.To4 ip)).
  { unfold net.IP_String.
    assert (Hne : length ip <> 0%nat).
    { intros H0. destruct ip; [|discriminate]. discriminate. }
    destruct (decide (length ip = 0%nat)); [contradiction|].
    rewrite H4.
    destruct (decide (4%nat = 0%nat)); [discriminate|].
    assert (E4 : net.To4 (net.To4 ip) = net.To4 ip).
    { unfold net.To4 at 1. rewrite H4.
      destruct (decide (4%nat = net.IPv4len)) as [_|H]; [reflexivity|].
      exfalso. apply H. reflexivity. }
    rewrite E4, H4.
    destruct (decide (4%nat = net.IPv4len)) as [_|H]; [reflexivity|].
    exfalso. apply H. reflexivity. }
  assert (Hs : addr.String (trojan.IPv6 (trojan.ipv6Addr.Mk ip port crlf))
               = addr.String (trojan.IPv4
                                (trojan.ipv4Addr.Mk (net.To4 ip) port crlf'))).
  { cbn [addr.String]. unfold addr.ipv6Addr_String, addr.ipv4Addr_String.
    cbn [trojan.ipv6Addr.ADDR trojan.ipv6Addr.PORT
         trojan.ipv4Addr.ADDR trojan.ipv4Addr.PORT].
    rewrite E. reflexivity. }
  split; [exact Hs|]. rewrite Hs.
  cbn [addr.String]. unfold addr.ipv4Addr_String, main.JoinHostPort.
  cbn [trojan.ipv4Addr.ADDR trojan.ipv4Addr.PORT].
  rewrite bool_decide_eq_false_2 by (apply IP_String_no_colon; exact H4).
  reflexivity.
Qed.

Lemma mapped_ipv6Addr_prints_as_ipv4_witness :
  let ip := net.ParseIP (str "::ffff:1.2.3.4") in
  length (net.To4 ip) = 4%nat
  /\ addr.String (trojan.IPv6 (trojan.ipv6Addr.Mk ip 443 [x0d; x0a]))
     = str "1.2.3.4:443".
Proof.
  intros ip.
  assert (H4 : length (net.To4 ip) = 4%nat) by (vm_compute; reflexivity).
  split; [exact H4|].
  destruct (mapped_ipv6Addr_prints_as_ipv4 ip 443 [x0d; x0a] [x0d; x0a] H4)
    as [_ Hs].
  exact Hs.
Defined.

Lemma all_from_spec n : forall p f, numeral.all_from n p f = true ->
  forall q, p <= q < p + Z.of_nat n -> f q = true.
Proof.
  induction n as [|n IH]; intros p f H q Hq; [lia|].
  cbn [numeral.all_from] in H. apply andb_true_iff in H as [H1 H2].
  destruct (Z.eq_dec q p) as [->|Hne]; [exact H1|].
  apply (IH (p + 1) f H2). lia.
Qed.

(** [Itoa] of every [uint16], by running it on each of them. *)
Lemma Itoa_uint16 (p : Z) :
  0 <= p < 65536 -> numeral.canonical p (strconv.Itoa p) = true.
Proof.
  intros Hp.
  apply (all_from_spec (Z.to_nat 65536) 0
           (fun p => numeral.canonical p (strconv.Itoa p))).
  - vm_compute. reflexivity.
  - lia.
Qed.

Lemma canonical_spec p digits :
  numeral.canonical p digits = true ->
  Forall (fun c => net.between "0" c "9" = true) digits
  /\ numeral.decimal digits = p
  /\ (1 <= length digits <= 5)%nat
  /\ ((1 < length digits)%nat -> head digits <> Some "0"%byte).
Proof.
  unfold numeral.canonical. rewrite !andb_true_iff.
  intros ((((Hd & Hv) & H1) & H5) & Hz).
  split; [|split; [|split]].
  - rewrite forallb_forall in Hd. apply Forall_forall.
    intros c Hc. apply Hd. apply list_elem_of_In. exact Hc.
  - apply Z.eqb_eq. exact Hv.
  - apply Nat.leb_le in H1, H5. lia.
  - intros Hlen. apply orb_true_iff in Hz as [Hz|Hz].
    + apply Nat.leb_le in Hz. lia.
    + apply negb_true_iff, bool_decide_eq_false in Hz. exact Hz.
Qed.

(** X12: [String()] of an address is its host, in brackets when it has a
    colon, then a colon and the port in decimal: one to five digits, of
    the value of the port, without a leading zero. *)
Theorem String_host_port (a : trojan.Addr) :
  let host := match a with
              | trojan.IPv4 a => net.IP_String (trojan.ipv4Addr.ADDR a)
              | trojan.IPv6 a => net.IP_String (trojan.ipv6Addr.ADDR a)
              | trojan.Domain a => trojan.domain.ADDR a
              end in
  let port := match a with
              | trojan.IPv4 a => trojan.ipv4Addr.PORT a
              | trojan.IPv6 a => trojan.ipv6Addr.PORT a
              | trojan.Domain a => trojan.domain.PORT a
              end in
  0 <= port < 65536 ->
  exists digits,
    addr.String a
    = (if bool_decide (":"%byte ∈ host) then str "[" ++ host ++ str "]" else host)
      ++ ":"%byte :: digits
    /\ Forall (fun c => net.between "0" c "9" = true) digits
    /\ numeral.decimal digits = port
    /\ (1 <= length digits <= 5)%nat
    /\ ((1 < length digits)%nat -> head digits <> Some "0"%byte).
Proof.
  intros host port Hport. exists (strconv.Itoa port).
  split; [|apply canonical_spec, Itoa_uint16; exact Hport].
  destruct a as [a|a|a]; cbn [addr.String];
    unfold addr.ipv4Addr_String, addr.ipv6Addr_String, addr.domain_String,
           main.JoinHostPort; fold host; fold port;
    destruct (bool_decide (":"%byte ∈ host));
    rewrite <- ?app_assoc; reflexivity.
Qed.

Lemma String_host_port_witness :
  0 <= 8080 < 65536
  /\ exists digits,
       addr.String (trojan.Domain (trojan.domain.Mk (str "example.com") 8080
                                     (make 2)))
       = (if bool_decide (":"%byte ∈ str "example.com")
          then str "[" ++ str "example.com" ++ str "]" else str "example.com")
         ++ ":"%byte :: digits
       /\ numeral.decimal digits = 8080.
Proof.
  split; [lia|].
  destruct (String_host_port
              (trojan.Domain (trojan.domain.Mk (str "example.com") 8080
                                (make 2))) ltac:(simpl; lia))
    as (digits & Hs & _ & Hv & _).
  exists digits. split; [exact Hs | exact Hv].
Defined.

(** ** The dialer *)

(** X13: the function that [GenProxyDial] returns, when it succeeds.  It
    returns a connection only for a host that is not empty and a port
    that is not 0, after [dialFn] gave a connection and [Wrap] returned
    nil on it; that connection is the one [Wrap] wrote to, it is new in
    the world and is not closed by the dialer.  An error of [dialFn] is
    returned as it is, with the world unchanged.  In every case the
    connections that were there before are untouched, and the network
    argument makes no difference. *)
Theorem ProxyDial_success_path proxy dialFn network host port w :
  let r := main.ProxyDial proxy dialFn network host port w in
  (forall e, dialFn host port = inr e -> host <> [] -> port <> 0 ->
             r = (inr e, w))
  /\ (forall rc, r.1 = inl rc ->
        host <> [] /\ port <> 0 /\ rc = length w
        /\ exists conn conn',
             dialFn host port = inl conn
             /\ transport.Wrap proxy conn host port = (None, conn')
             /\ r.2 = w ++ [conn']
             /\ r.2 !! rc = Some conn')
  /\ (forall i c, w !! i = Some c -> r.2 !! i = Some c)
  /\ (forall network', main.ProxyDial proxy dialFn network' host port w = r).
Proof.
  intros r. subst r. unfold main.ProxyDial.
  destruct (bool_decide (host = [])) eqn:Hh;
    [|destruct (bool_decide (port = 0)) eqn:Hp].
  - apply bool_decide_eq_true in Hh. simpl.
    repeat split; try discriminate; try assumption; congruence.
  - apply bool_decide_eq_true in Hp. simpl.
    repeat split; try discriminate; try assumption; congruence.
  - apply bool_decide_eq_false in Hh, Hp. simpl.
    destruct (dialFn host port) as [conn|e] eqn:Hd.
    + destruct (transport.Wrap proxy conn host port) as [[e|] conn'] eqn:Hw;
        simpl.
      * repeat split; try discriminate.
        intros i c Hi. rewrite lookup_app_l; [exact Hi|].
        eapply lookup_lt_Some; exact Hi.
      * split; [discriminate|]. split; [|split; [|reflexivity]].
        -- intros rc [= <-]. repeat split; try assumption.
           exists conn, conn'. repeat split; [exact Hw|].
           rewrite lookup_app_r, Nat.sub_diag by lia. reflexivity.
        -- intros i c Hi. rewrite lookup_app_l; [exact Hi|].
           eapply lookup_lt_Some; exact Hi.
    + simpl. split; [intros e' [= <-] _ _; reflexivity|].
      split; [discriminate|]. split; [auto | reflexivity].
Qed.


(** X14: [GenProxyDial] stops the process ([log.Fatal]) exactly when
    [conf.Remote.Type] is none of "sower", "trojan", "socks5", or is
    "sshd" and the SSH connection fails; every other type but these four
    is fatal.  Its arguments [proxyType] and [proxyPassword] are never
    used: the type and the password are those of [conf.Remote]. *)
Theorem GenProxyDial_fatal
    conf_Remote sower_New socks5_New ssh_New tls_Dial net_Dial ssh_Dial
    proxyType proxyHost proxyPassword :
  let Gen := main.GenProxyDial conf_Remote sower_New socks5_New ssh_New
               tls_Dial net_Dial ssh_Dial in
  let ty := main.Type_ conf_Remote in
  (Gen proxyType proxyHost proxyPassword = None <->
     (ty <> str "sower" /\ ty <> str "trojan" /\ ty <> str "socks5"
      /\ (ty = str "sshd" -> ssh_Dial proxyHost = None)))
  /\ (forall proxyType' proxyPassword',
        Gen proxyType' proxyHost proxyPassword'
        = Gen proxyType proxyHost proxyPassword).
Proof.
  intros Gen ty. split; [|reflexivity].
  unfold Gen, main.GenProxyDial. fold ty.
  destruct (decide (ty = str "sower")) as [E|N1];
    [split; [discriminate | intros (H & _); contradiction]|].
  destruct (decide (ty = str "trojan")) as [E|N2];
    [split; [discriminate | intros (_ & H & _); contradiction]|].
  destruct (decide (ty = str "socks5")) as [E|N3];
    [split; [discriminate | intros (_ & _ & H & _); contradiction]|].
  destruct (decide (ty = str "sshd")) as [E|N4].
  - destruct (ssh_Dial proxyHost) as [d|].
    + split; [discriminate|]. intros (_ & _ & _ & H). specialize (H E).
      discriminate.
    + split; [|reflexivity]. intros _. repeat split; assumption.
  - split; [|reflexivity]. intros _. repeat split; try assumption.
    intros E. contradiction.
Qed.

(** X15: the Trojan dialer end to end.  With [conf.Remote.Type] "trojan",
    when the TLS dial to [proxyHost], port 443, gives a connection that
    takes what is written, the function that [GenProxyDial] returns makes
    for a host of 1 to 255 bytes and a port in [1,65535] a new connection
    on which exactly the frame for that host and port was sent, built
    with [conf.Remote.Password]; and a server that [Unwrap]s these bytes
    with the same password, with or without payload behind them, gets
    the host and the port. *)
Theorem GenProxyDial_trojan_end_to_end
    conf sower_New socks5_New ssh_New tls_Dial net_Dial ssh_Dial
    proxyType proxyHost proxyPassword network host port w arrivals payload evs :
  main.Type_ conf = str "trojan" ->
  tls_Dial (main.JoinHostPort proxyHost (str "443"))
    = inl (net.fresh arrivals []) ->
  host <> [] -> (length host <= 255)%nat -> 1 <= port <= 65535 ->
  let t := trojan.New (main.Password conf) in
  let sent := trojan.frame t host port in
  let ip := net.ParseIP host in
  exists dial,
    main.GenProxyDial conf sower_New socks5_New ssh_New tls_Dial net_Dial
      ssh_Dial proxyType proxyHost proxyPassword = Some dial
    /\ dial network host port w
       = (inl (length w), w ++ [net.MkConn arrivals [] sent false])
    /\ (trojan.Unwrap t (teeconn.accept (Data (sent ++ payload) :: evs))).1
       = Some (if decide (length (net.To4 ip) ≠ 0%nat)
               then trojan.IPv4 (trojan.ipv4Addr.Mk (net.To4 ip) port [x0d; x0a])
               else if decide (length ip ≠ 0%nat)
               then trojan.IPv6 (trojan.ipv6Addr.Mk ip port [x0d; x0a])
               else trojan.Domain (trojan.domain.Mk host port (make 2))).
Proof.
  intros Hty Hdial Hhost Hlen Hport t sent ip.
  unfold main.GenProxyDial. rewrite Hty.
  destruct (decide (str "trojan" = str "sower")) as [E|_]; [discriminate|].
  destruct (decide (str "trojan" = str "trojan")) as [_|N]; [|congruence].
  eexists. split; [reflexivity|]. split.
  - unfold main.ProxyDial.
    rewrite (bool_decide_eq_false_2 (host = [])) by exact Hhost.
    rewrite (bool_decide_eq_false_2 (port = 0)) by lia.
    cbn [orb]. rewrite Hdial. cbn [transport.Wrap transport.of_trojan].
    rewrite Wrap_fresh. reflexivity.
  - apply Unwrap_frame; [lia | exact Hlen].
Qed.


Lemma GenProxyDial_trojan_end_to_end_witness :
  let t := trojan.New (str "password") in
  exists dial,
    main.GenProxyDial sample.remote (fun _ => transport.of_trojan t)
      (transport.of_trojan t) (transport.of_trojan t)
      (fun _ => inl (net.fresh [] [])) (fun _ => inr EOF) (fun _ => None)
      (str "ignored") (str "proxy.example.org") (str "ignored") = Some dial
    /\ dial (str "tcp") (str "example.com") 8080 []
       = (inl 0%nat, [net.MkConn [] [] sample.frame_domain false])
    /\ (trojan.Unwrap t (teeconn.accept [Data (sample.frame_domain ++ [])])).1
       = Some (trojan.Domain (trojan.domain.Mk (str "example.com") 8080
                                (make 2))).
Proof.
  intros t.
  destruct (GenProxyDial_trojan_end_to_end sample.remote
              (fun _ => transport.of_trojan t)
              (transport.of_trojan t) (transport.of_trojan t)
              (fun _ => inl (net.fresh [] [])) (fun _ => inr EOF)
              (fun _ => None)
              (str "ignored") (str "proxy.example.org") (str "ignored")
              (str "tcp") (str "example.com") 8080 [] [] [] []
              ltac:(reflexivity) ltac:(reflexivity) ltac:(discriminate)
              ltac:(vm_compute; lia) ltac:(lia))
    as (dial & Hg & Hd & Hu).
  exists dial. split; [exact Hg|]. split; [exact Hd | exact Hu].
Defined.

(** ** The front-ends *)

(** X16: the body of [ServeHTTP] closes the client connection on every
    path.  It relays only after the dialer returned a connection for the
    Host of the request, to that connection, and closes it when the relay
    returns; when the request cannot be read it logs one error and
    leaves the world as it was. *)
Theorem serve_closes_connections ReadRequest r_ProxyDial Relay conn w :
  let r := main.serve ReadRequest r_ProxyDial Relay conn w in
  net.closed (teeconn.under r.1.2) = true
  /\ (forall rc, main.CallRelay rc ∈ r.1.1 ->
        (exists req tee w1,
           ReadRequest (teeconn.New conn) = (inl req, tee)
           /\ r_ProxyDial (str "tcp") (main.Host req) 80 w = (inl rc, w1))
        /\ forall c, r.2 !! rc = Some c -> net.closed c = true)
  /\ (forall e tee, ReadRequest (teeconn.New conn) = (inr e, tee) ->
        r.1.1 = [main.LogError "read http request"] /\ r.2 = w).
Proof.
  intros r. subst r. unfold main.serve.
  destruct (ReadRequest (teeconn.New conn)) as [[req|e] tee] eqn:Hreq.
  - destruct (r_ProxyDial (str "tcp") (main.Host req) 80 w) as [[rc|e] w1] eqn:Hd.
    + destruct (Relay (teeconn.Reread (teeconn.Stop tee)) rc w1) as [tee2 w2].
      simpl. split; [reflexivity|]. split; [|discriminate].
      intros rc' Hin.
      assert (rc' = rc) as ->.
      { rewrite !elem_of_cons in Hin.
        destruct Hin as [H|[H|[H|H]]]; try discriminate;
          [congruence | inversion H]. }
      split; [eauto|].
      intros c. unfold main.close_fd.
      destruct (w2 !! rc) as [c0|] eqn:Hl; [|congruence].
      rewrite list_lookup_insert_eq by (eapply lookup_lt_Some; exact Hl).
      intros [= <-]. reflexivity.
    + simpl. split; [reflexivity|]. split; [|discriminate].
      intros rc Hin. rewrite !elem_of_cons in Hin.
      destruct Hin as [H|[H|H]]; try discriminate. inversion H.
  - simpl. split; [reflexivity|]. split.
    + intros rc Hin. rewrite !elem_of_cons in Hin.
      destruct Hin as [H|H]; try discriminate. inversion H.
    + intros e' tee' [= <- <-]. split; reflexivity.
Qed.

(** One dial per accepted connection in [ServeHTTPS]. *)
Lemma serveHTTPS_dials Handshake r_ProxyDial Relay conn w :
  exists rest,
    (main.serveHTTPS Handshake r_ProxyDial Relay conn w).1.1
    = main.CallProxyDial (str "tcp")
        (match (Handshake (teeconn.New conn)).1.1 with
         | Some hello => main.ServerName hello
         | None => []
         end) 443 :: rest
    /\ Forall (fun ev => ~ main.is_dial ev) rest.
Proof.
  unfold main.serveHTTPS.
  destruct (Handshake (teeconn.New conn)) as [[hello err] tee]. simpl.
  set (domain := match hello with
                 | Some hello => main.ServerName hello
                 | None => []
                 end).
  destruct (r_ProxyDial (str "tcp") domain 443 w) as [[rc|e] w1].
  - destruct (Relay (teeconn.Reread (teeconn.Stop tee)) rc w1) as [tee2 w2].
    simpl. eexists. split; [reflexivity|].
    repeat constructor; simpl; tauto.
  - simpl. eexists. split; [reflexivity|].
    repeat constructor; simpl; tauto.
Qed.

(** The body of [ServeHTTPS] asks the dialer at one point only. *)
Lemma serveHTTPS_agree Handshake (d d' : main.ProxyDialFn) Relay conn w :
  (forall hello err tee,
     Handshake (teeconn.New conn) = ((hello, err), tee) ->
     d' (str "tcp")
        (match hello with Some hello => main.ServerName hello | None => [] end)
        443 w
     = d (str "tcp")
         (match hello with Some hello => main.ServerName hello | None => [] end)
         443 w) ->
  main.serveHTTPS Handshake d' Relay conn w
  = main.serveHTTPS Handshake d Relay conn w.
Proof.
  intros H. unfold main.serveHTTPS.
  destruct (Handshake (teeconn.New conn)) as [[hello err] tee].
  rewrite (H hello err tee eq_refl). reflexivity.
Qed.

(** X17: the HTTPS front-end calls the router's [ProxyDial] with network
    "tcp", port 443 and the server name that the handshake handed to
    [GetConfigForClient], or the empty string when the handshake did not
    get that far; it does so for every accepted connection, whatever
    error the handshake returned.  What the body does next is what this
    one call returned, in the world as the call left it: the error is
    logged, or the connection it gave is relayed to and closed; the same
    holds for the first connection of a listener, whatever follows.  The
    dialer is called with nothing else: a dialer that answers these
    calls alike gives the same run.  And the calls that the run lists
    are these calls. *)
Theorem ServeHTTPS_dials_server_name_port_443 Handshake r_ProxyDial Relay :
  let domain (hello : option main.ClientHelloInfo) :=
    match hello with Some hello => main.ServerName hello | None => [] end in
  let name conn := domain (Handshake (teeconn.New conn)).1.1 in
  (forall conn w hello err tee,
     Handshake (teeconn.New conn) = ((hello, err), tee) ->
     main.serveHTTPS Handshake r_ProxyDial Relay conn w
     = match r_ProxyDial (str "tcp") (domain hello) 443 w with
       | (inr _, w1) =>
           ([main.CallProxyDial (str "tcp") (domain hello) 443;
             main.LogError "dial proxy"],
            teeconn.Close tee, w1)
       | (inl rc, w1) =>
           let '(tee2, w2) :=
             Relay (teeconn.Reread (teeconn.Stop tee)) rc w1 in
           ([main.CallProxyDial (str "tcp") (domain hello) 443;
             main.CallRelay rc; main.LogDebug "serve http"],
            teeconn.Close tee2, main.close_fd rc w2)
       end)
  /\ (forall conn ln w hello err tee,
     Handshake (teeconn.New conn) = ((hello, err), tee) ->
     main.ServeHTTPS Handshake r_ProxyDial Relay (inl conn :: ln) w
     = let '(evs, w1) :=
         match r_ProxyDial (str "tcp") (domain hello) 443 w with
         | (inr _, w1) =>
             ([main.CallProxyDial (str "tcp") (domain hello) 443;
               main.LogError "dial proxy"], w1)
         | (inl rc, w1) =>
             ([main.CallProxyDial (str "tcp") (domain hello) 443;
               main.CallRelay rc; main.LogDebug "serve http"],
              main.close_fd rc
                (Relay (teeconn.Reread (teeconn.Stop tee)) rc w1).2)
         end in
       let '(evs', w2) :=
         main.ServeHTTPS Handshake r_ProxyDial Relay ln w1 in
       (evs ++ evs', w2))
  /\ (forall (other : main.ProxyDialFn) ln w,
     (forall conn w',
        inl conn ∈ ln ->
        other (str "tcp") (name conn) 443 w'
        = r_ProxyDial (str "tcp") (name conn) 443 w') ->
     main.ServeHTTPS Handshake other Relay ln w
     = main.ServeHTTPS Handshake r_ProxyDial Relay ln w)
  /\ (forall conn w,
     exists rest,
       (main.serveHTTPS Handshake r_ProxyDial Relay conn w).1.1
       = main.CallProxyDial (str "tcp") (name conn) 443 :: rest
       /\ Forall (fun ev => ~ main.is_dial ev) rest)
  /\ (forall ln w network host port,
     main.CallProxyDial network host port
       ∈ (main.ServeHTTPS Handshake r_ProxyDial Relay ln w).1 ->
     network = str "tcp" /\ port = 443
     /\ exists conn, inl conn ∈ ln /\ host = name conn).
Proof.
  intros domain name.
  assert (Hbody : forall conn w hello err tee,
            Handshake (teeconn.New conn) = ((hello, err), tee) ->
            main.serveHTTPS Handshake r_ProxyDial Relay conn w
            = match r_ProxyDial (str "tcp") (domain hello) 443 w with
              | (inr _, w1) =>
                  ([main.CallProxyDial (str "tcp") (domain hello) 443;
                    main.LogError "dial proxy"],
                   teeconn.Close tee, w1)
              | (inl rc, w1) =>
                  let '(tee2, w2) :=
                    Relay (teeconn.Reread (teeconn.Stop tee)) rc w1 in
                  ([main.CallProxyDial (str "tcp") (domain hello) 443;
                    main.CallRelay rc; main.LogDebug "serve http"],
                   teeconn.Close tee2, main.close_fd rc w2)
              end).
  { intros conn w hello err tee Hh. unfold main.serveHTTPS. rewrite Hh.
    fold (domain hello).
    destruct (r_ProxyDial (str "tcp") (domain hello) 443 w) as [[rc|e] w1];
      reflexivity. }
  split; [exact Hbody|]. split; [|split; [|split]].
  - intros conn ln w hello err tee Hh. cbn [main.ServeHTTPS].
    rewrite (Hbody conn w hello err tee Hh).
    destruct (r_ProxyDial (str "tcp") (domain hello) 443 w) as [[rc|e] w1];
      [|reflexivity].
    destruct (Relay (teeconn.Reread (teeconn.Stop tee)) rc w1) as [tee2 w2].
    reflexivity.
  - intros other ln. induction ln as [|[conn|err] ln IH]; intros w Hsame;
      [reflexivity| |reflexivity].
    cbn [main.ServeHTTPS].
    rewrite (serveHTTPS_agree Handshake r_ProxyDial other Relay conn w).
    + destruct (main.serveHTTPS Handshake r_ProxyDial Relay conn w)
        as [[evs tee] w1].
      rewrite (IH w1)
        by (intros c w' Hc; apply (Hsame c w'); right; exact Hc).
      reflexivity.
    + intros hello err tee Hh.
      pose proof (Hsame conn w ltac:(left)) as H.
      unfold name in H. rewrite Hh in H. exact H.
  - intros conn w. apply serveHTTPS_dials.
  - induction ln as [|[conn|err] ln IH]; intros w network host port Hin.
    + simpl in Hin. inversion Hin.
    + cbn [main.ServeHTTPS] in Hin.
      destruct (serveHTTPS_dials Handshake r_ProxyDial Relay conn w)
        as (rest & Hev & Hrest).
      destruct (main.serveHTTPS Handshake r_ProxyDial Relay conn w)
        as [[evs tee] w1].
      destruct (main.ServeHTTPS Handshake r_ProxyDial Relay ln w1)
        as [evs' w2] eqn:Hloop.
      simpl in Hin, Hev. subst evs.
      rewrite elem_of_app, elem_of_cons in Hin.
      destruct Hin as [[Hin|Hin]|Hin].
      * injection Hin as -> -> ->. repeat split.
        exists conn. split; [left|reflexivity].
      * rewrite Forall_forall in Hrest. exfalso.
        apply (Hrest _ Hin). exact I.
      * specialize (IH w1 network host port). rewrite Hloop in IH.
        destruct (IH Hin) as (-> & -> & c & Hc & ->). repeat split.
        exists c. split; [right; exact Hc | reflexivity].
    + simpl in Hin. rewrite elem_of_cons in Hin.
      destruct Hin as [H|H]; [discriminate | inversion H].
Qed.

(** Three connections over a dialer that records what it is asked: a
    ClientHello for "example.com", a connection that ends before one,
    and a ClientHello for "b.example"; every handshake fails.  The dialer
    was asked three times, for "tcp", the server name or the empty
    string, and port 443, and the connections it gave were closed. *)
Lemma ServeHTTPS_dials_server_name_port_443_witness :
  let ln := [inl (net.fresh [Data (str "example.com")] []);
             inl (net.fresh [] []);
             inl (net.fresh [Data (str "b.example")] [])] in
  main.ServeHTTPS sample.read_hello sample.dial_record sample.relay ln []
  = ([main.CallProxyDial (str "tcp") (str "example.com") 443;
      main.CallRelay 0%nat; main.LogDebug "serve http";
      main.CallProxyDial (str "tcp") [] 443;
      main.CallRelay 1%nat; main.LogDebug "serve http";
      main.CallProxyDial (str "tcp") (str "b.example") 443;
      main.CallRelay 2%nat; main.LogDebug "serve http"],
     [net.MkConn [] [] (str "tcp example.com 443") true;
      net.MkConn [] [] (str "tcp  443") true;
      net.MkConn [] [] (str "tcp b.example 443") true]).
Proof.
  intros ln. subst ln.
  destruct (ServeHTTPS_dials_server_name_port_443 sample.read_hello
              sample.dial_record sample.relay) as (_ & Hhead & _).
  rewrite (Hhead (net.fresh [Data (str "example.com")] []) _ []
             (Some (main.MkClientHelloInfo (str "example.com")))
             (Some (ErrNet "no certificates configured"))
             (teeconn.New (net.fresh [Data (str "example.com")] []))
             eq_refl).
  vm_compute. reflexivity.
Defined.

(** X18: over the dialer of [GenProxyDial], a request without a Host and
    a handshake without a server name end at the dialer's check: the
    front-end asks for the empty host, gets the error, logs it, opens no
    connection and closes the client connection. *)
Theorem front_ends_reject_empty_host proxy dialFn :
  let dial := main.ProxyDial proxy dialFn in
  (forall ReadRequest Relay conn w req tee,
     ReadRequest (teeconn.New conn) = (inl req, tee) ->
     main.Host req = [] ->
     main.serve ReadRequest dial Relay conn w
     = ([main.CallProxyDial (str "tcp") [] 80; main.LogError "dial proxy"],
        teeconn.Close tee, w))
  /\ (forall Handshake Relay conn w hello err tee,
     Handshake (teeconn.New conn) = ((hello, err), tee) ->
     match hello with Some h => main.ServerName h = [] | None => True end ->
     main.serveHTTPS Handshake dial Relay conn w
     = ([main.CallProxyDial (str "tcp") [] 443; main.LogError "dial proxy"],
        teeconn.Close tee, w)).
Proof.
  intros dial. split.
  - intros ReadRequest Relay conn w req tee Hreq Hhost.
    unfold main.serve. rewrite Hreq, Hhost. reflexivity.
  - intros Handshake Relay conn w hello err tee Hh Hname.
    unfold main.serveHTTPS. rewrite Hh.
    destruct hello as [h|]; [rewrite Hname|]; reflexivity.
Qed.

(** ** The connections that the front-ends open *)

(** The world after a call of the dialer. *)
Lemma ProxyDial_inl proxy dialFn network host port w rc w1 :
  main.ProxyDial proxy dialFn network host port w = (inl rc, w1) ->
  rc = length w /\ exists c, w1 = w ++ [c].
Proof.
  unfold main.ProxyDial.
  destruct (_ || _); [discriminate|].
  destruct (dialFn host port) as [conn|e]; [|discriminate].
  destruct (transport.Wrap proxy conn host port) as [[e|] conn'];
    [discriminate|].
  intros [= <- <-]. split; [reflexivity | eexists; reflexivity].
Qed.

Lemma ProxyDial_inr proxy dialFn network host port w e w1 :
  main.ProxyDial proxy dialFn network host port w = (inr e, w1) ->
  main.open_conns w1 = main.open_conns w.
Proof.
  unfold main.ProxyDial.
  destruct (_ || _); [intros [= _ <-]; reflexivity|].
  destruct (dialFn host port) as [conn|e']; [|intros [= _ <-]; reflexivity].
  destruct (transport.Wrap proxy conn host port) as [[e'|] conn'];
    [|discriminate].
  intros [= _ <-]. unfold main.open_conns.
  rewrite filter_app. simpl. apply app_nil_r.
Qed.

Section Leak.

Variable proxy : transport.Transport.
Variable dialFn : list byte -> Z -> net.Conn + error.
Variable Relay :
  teeconn.Conn -> nat -> list net.Conn -> teeconn.Conn * list net.Conn.

(** The relay uses no connection of the world but the one it is given. *)
Hypothesis Relay_local : forall tee rc w,
  length (Relay tee rc w).2 = length w
  /\ forall i, i <> rc -> (Relay tee rc w).2 !! i = w !! i.

Lemma dial_relay_close network host port w tee rc w1 :
  main.ProxyDial proxy dialFn network host port w = (inl rc, w1) ->
  main.open_conns (main.close_fd rc (Relay tee rc w1).2) = main.open_conns w.
Proof.
  intros Hdial. apply ProxyDial_inl in Hdial as (-> & c & ->).
  destruct (Relay_local tee (length w) (w ++ [c])) as [Hlen Hsame].
  set (w2 := (Relay tee (length w) (w ++ [c])).2) in *.
  rewrite length_app in Hlen. simpl in Hlen.
  assert (Hw2 : exists c2, w2 = w ++ [c2]).
  { destruct (w2 !! length w) as [c2|] eqn:Hl.
    - exists c2. apply list_eq. intros i.
      destruct (decide (i = length w)) as [->|Hi].
      + rewrite Hl, lookup_app_r, Nat.sub_diag by lia. reflexivity.
      + rewrite (Hsame i Hi).
        destruct (decide (i < length w)%nat).
        * rewrite !lookup_app_l by lia. reflexivity.
        * rewrite !lookup_app_r by lia.
          destruct (i - length w)%nat as [|k] eqn:E; [lia | reflexivity].
    - apply lookup_ge_None in Hl. lia. }
  destruct Hw2 as [c2 Hw2]. rewrite Hw2.
  unfold main.close_fd.
  rewrite lookup_app_r, Nat.sub_diag by lia. cbn [lookup list_lookup].
  rewrite insert_app_r_alt, Nat.sub_diag by lia. cbn [insert list_insert].
  unfold main.open_conns. rewrite filter_app. simpl. apply app_nil_r.
Qed.

Lemma serve_no_leak ReadRequest conn w :
  main.open_conns
    (main.serve ReadRequest (main.ProxyDial proxy dialFn) Relay conn w).2
  = main.open_conns w.
Proof.
  unfold main.serve.
  destruct (ReadRequest (teeconn.New conn)) as [[req|e] tee]; [|reflexivity].
  destruct (main.ProxyDial proxy dialFn (str "tcp") (main.Host req) 80 w)
    as [[rc|e] w1] eqn:Hd.
  - pose proof (dial_relay_close _ _ _ _ (teeconn.Reread (teeconn.Stop tee))
                  _ _ Hd) as H.
    destruct (Relay (teeconn.Reread (teeconn.Stop tee)) rc w1) as [tee2 w2].
    exact H.
  - simpl. eapply ProxyDial_inr. exact Hd.
Qed.

Lemma serveHTTPS_no_leak Handshake conn w :
  main.open_conns
    (main.serveHTTPS Handshake (main.ProxyDial proxy dialFn) Relay conn w).2
  = main.open_conns w.
Proof.
  unfold main.serveHTTPS.
  destruct (Handshake (teeconn.New conn)) as [[hello err] tee].
  set (domain := match hello with
                 | Some hello => main.ServerName hello
                 | None => []
                 end).
  destruct (main.ProxyDial proxy dialFn (str "tcp") domain 443 w)
    as [[rc|e] w1] eqn:Hd.
  - pose proof (dial_relay_close _ _ _ _ (teeconn.Reread (teeconn.Stop tee))
                  _ _ Hd) as H.
    destruct (Relay (teeconn.Reread (teeconn.Stop tee)) rc w1) as [tee2 w2].
    exact H.
  - simpl. eapply ProxyDial_inr. exact Hd.
Qed.

(** X19: the front-ends leave no dialed connection open.  Over the
    dialer of [GenProxyDial] and a relay that uses no connection of the
    world but the one it is given, when [ServeHTTP] or [ServeHTTPS] is
    done with the accepted connections, the open connections of the
    world are those that were open before: whatever the dialer opened was
    closed, on the error paths and after the relay. *)
Theorem front_ends_leak_no_connection ReadRequest Handshake ln w :
  main.open_conns
    (main.ServeHTTP ReadRequest (main.ProxyDial proxy dialFn) Relay ln w).2
  = main.open_conns w
  /\ main.open_conns
    (main.ServeHTTPS Handshake (main.ProxyDial proxy dialFn) Relay ln w).2
  = main.open_conns w.
Proof.
  split; revert w; induction ln as [|[conn|err] ln IH]; intros w;
    try reflexivity.
  - cbn [main.ServeHTTP].
    pose proof (serve_no_leak ReadRequest conn w) as H.
    destruct (main.serve ReadRequest (main.ProxyDial proxy dialFn) Relay conn w)
      as [[evs tee] w1].
    specialize (IH w1).
    destruct (main.ServeHTTP ReadRequest (main.ProxyDial proxy dialFn) Relay
                ln w1) as [evs' w2].
    simpl in *. congruence.
  - cbn [main.ServeHTTPS].
    pose proof (serveHTTPS_no_leak Handshake conn w) as H.
    destruct (main.serveHTTPS Handshake (main.ProxyDial proxy dialFn) Relay
                conn w) as [[evs tee] w1].
    specialize (IH w1).
    destruct (main.ServeHTTPS Handshake (main.ProxyDial proxy dialFn) Relay
                ln w1) as [evs' w2].
    simpl in *. congruence.
Qed.

End Leak.

Lemma front_ends_leak_no_connection_witness :
  let dial := main.ProxyDial (transport.of_trojan sample.t) sample.dial_good in
  let ln := [inl (net.fresh [Data (str "GET / HTTP/1.1")] []);
             inl (net.fresh [] [])] in
  main.open_conns (main.ServeHTTP sample.read_request dial sample.relay ln []).2
  = []
  /\ length (main.ServeHTTP sample.read_request dial sample.relay ln []).2
     = 2%nat.
Proof.
  intros dial ln. split; [|vm_compute; reflexivity].
  destruct (front_ends_leak_no_connection (transport.of_trojan sample.t)
              sample.dial_good sample.relay
              ltac:(intros tee rc w; split; [reflexivity | intros i _; reflexivity])
              sample.read_request sample.handshake ln []) as [H _].
  exact H.
Defined.

(** ** The dial of the rule loader *)

(** The first and the last index of a byte. *)
Lemma IndexByteString_from_absent (s : list byte) (c : byte) : forall i,
  c ∉ s -> net.IndexByteString_from s c i = -1.
Proof.
  induction s as [|b s IH]; intros i Hc; [reflexivity|].
  rewrite not_elem_of_cons in Hc. destruct Hc as [Hne Hc].
  cbn [net.IndexByteString_from].
  destruct (decide (b = c)); [congruence|]. apply IH. exact Hc.
Qed.

Lemma IndexByteString_from_first (s1 s2 : list byte) (c : byte) : forall i,
  c ∉ s1 ->
  net.IndexByteString_from (s1 ++ c :: s2) c i = i + Z.of_nat (length s1).
Proof.
  induction s1 as [|b s1 IH]; intros i Hc; cbn [app net.IndexByteString_from].
  - destruct (decide (c = c)); [simpl; lia | congruence].
  - rewrite not_elem_of_cons in Hc. destruct Hc as [Hne Hc].
    destruct (decide (b = c)); [congruence|].
    rewrite IH by exact Hc. simpl length. lia.
Qed.

Lemma last_from_absent (s : list byte) (c : byte) : forall i,
  c ∉ s -> net.last_from s c i = -1.
Proof.
  induction s as [|b s IH]; intros i Hc; [reflexivity|].
  rewrite not_elem_of_cons in Hc. destruct Hc as [Hne Hc].
  cbn [net.last_from]. rewrite IH by exact Hc. cbn.
  destruct (decide (b = c)); [congruence | reflexivity].
Qed.

Lemma last_from_last (s1 s2 : list byte) (c : byte) : forall i,
  0 <= i -> c ∉ s2 ->
  net.last_from (s1 ++ c :: s2) c i = i + Z.of_nat (length s1).
Proof.
  induction s1 as [|b s1 IH]; intros i Hi Hc; cbn [app net.last_from].
  - rewrite last_from_absent by exact Hc. cbn.
    destruct (decide (c = c)); [simpl; lia | congruence].
  - rewrite IH by (lia || exact Hc).
    replace (0 <=? i + 1 + Z.of_nat (length s1)) with true
      by (symmetry; apply Z.leb_le; lia).
    simpl length. lia.
Qed.

(** [Atoi] of one to 18 decimal digits is their value. *)
Lemma Atoi_loop_digits (ds : list byte) : forall n,
  Forall (fun c => net.between "0" c "9" = true) ds ->
  strconv.Atoi_loop ds n
  = Some (foldl (fun n c => n * 10 + (u8 c - u8 "0")) n ds).
Proof.
  induction ds as [|c ds IH]; intros n Hd; [reflexivity|].
  apply Forall_cons in Hd as [Hc Hd].
  cbn [strconv.Atoi_loop foldl].
  unfold net.between in Hc. apply andb_true_iff in Hc as [H0 H9].
  apply Z.leb_le in H0, H9.
  change (u8 "0") with 48 in *. change (u8 "9") with 57 in *.
  rewrite Z.mod_small by lia.
  replace (9 <? u8 c - 48) with false by (symmetry; apply Z.ltb_ge; lia).
  apply IH. exact Hd.
Qed.

Lemma Atoi_digits (ds : list byte) :
  Forall (fun c => net.between "0" c "9" = true) ds ->
  (0 < length ds < 19)%nat ->
  strconv.Atoi ds = (numeral.decimal ds, None).
Proof.
  intros Hd Hlen. unfold strconv.Atoi.
  rewrite (bool_decide_eq_true_2 (0 < length ds)%nat) by lia.
  rewrite (bool_decide_eq_true_2 (length ds < 19)%nat) by lia.
  cbn [andb].
  destruct ds as [|c ds]; [simpl in Hlen; lia|].
  assert (Hc : net.between "0" c "9" = true)
    by (apply Forall_cons in Hd as [Hc _]; exact Hc).
  assert (Hm : c <> "-"%byte) by (intros ->; discriminate).
  assert (Hp : c <> "+"%byte) by (intros ->; discriminate).
  cbn [at_ nth].
  rewrite (bool_decide_eq_false_2 (c = "-"%byte)) by exact Hm.
  rewrite (bool_decide_eq_false_2 (c = "+"%byte)) by exact Hp.
  cbn [orb andb]. rewrite Atoi_loop_digits by exact Hd. reflexivity.
Qed.

(** [net.SplitHostPort] undoes [net.JoinHostPort]. *)
Lemma SplitHostPort_plain (host port : list byte) :
  ":"%byte ∉ host -> "["%byte ∉ host -> "]"%byte ∉ host ->
  ":"%byte ∉ port -> "["%byte ∉ port -> "]"%byte ∉ port ->
  net.SplitHostPort (host ++ ":"%byte :: port) = (host, port, None).
Proof.
  intros Hc Hl Hr Pc Pl Pr. unfold net.SplitHostPort. cbv zeta.
  unfold net.last. rewrite last_from_last by (lia || exact Pc).
  rewrite Z.add_0_l.
  replace (Z.of_nat (length host) <? 0) with false
    by (symmetry; apply Z.ltb_ge; lia).
  assert (H0 : at_ (host ++ ":"%byte :: port) 0 <> "["%byte).
  { destruct host as [|b host]; [discriminate|].
    rewrite not_elem_of_cons in Hl. cbn. intros E. symmetry in E. tauto. }
  destruct (decide (at_ (host ++ ":"%byte :: port) 0 = "["%byte));
    [contradiction|].
  rewrite Nat2Z.id, take_app_length.
  unfold net.IndexByteString.
  rewrite (IndexByteString_from_absent host) by exact Hc.
  change (0 <=? -1) with false. cbv iota. rewrite drop_0.
  rewrite !IndexByteString_from_absent.
  - change (0 <=? -1) with false. cbv iota.
    replace (Z.to_nat (Z.of_nat (length host) + 1)) with (S (length host))
      by lia.
    change (host ++ ":"%byte :: port) with (host ++ [":"%byte] ++ port).
    rewrite app_assoc, drop_app_length'
      by (rewrite length_app; simpl; lia).
    reflexivity.
  - rewrite not_elem_of_app, not_elem_of_cons. repeat split; auto.
  - rewrite not_elem_of_app, not_elem_of_cons. repeat split; auto.
Qed.

Lemma SplitHostPort_bracketed (host port : list byte) :
  "["%byte ∉ host -> "]"%byte ∉ host ->
  ":"%byte ∉ port -> "["%byte ∉ port -> "]"%byte ∉ port ->
  net.SplitHostPort ("["%byte :: host ++ "]"%byte :: ":"%byte :: port)
  = (host, port, None).
Proof.
  intros Hl Hr Pc Pl Pr. unfold net.SplitHostPort. cbv zeta.
  set (s := "["%byte :: host ++ "]"%byte :: ":"%byte :: port).
  assert (Es : s = ("["%byte :: host ++ ["]"%byte]) ++ ":"%byte :: port).
  { unfold s. cbn [app]. rewrite <- app_assoc. reflexivity. }
  assert (Hlast : net.last s ":" = Z.of_nat (length host) + 2).
  { unfold net.last. rewrite Es, last_from_last by (lia || exact Pc).
    cbn [length]. rewrite length_app. simpl. lia. }
  assert (Hend : net.IndexByteString s "]" = Z.of_nat (length host) + 1).
  { unfold net.IndexByteString, s.
    change ("["%byte :: host ++ "]"%byte :: ":"%byte :: port)
      with (("["%byte :: host) ++ "]"%byte :: ":"%byte :: port).
    rewrite IndexByteString_from_first.
    - simpl length. lia.
    - rewrite not_elem_of_cons. split; [discriminate | exact Hr]. }
  assert (Hlen : Z.of_nat (length s)
                 = Z.of_nat (length host) + 3 + Z.of_nat (length port)).
  { unfold s. cbn [length]. rewrite length_app. cbn [length]. lia. }
  rewrite Hlast, Hend, Hlen.
  replace (Z.of_nat (length host) + 2 <? 0) with false
    by (symmetry; apply Z.ltb_ge; lia).
  destruct (decide (at_ s 0 = "["%byte)) as [_|N]; [|exfalso; apply N; reflexivity].
  replace (Z.of_nat (length host) + 1 <? 0) with false
    by (symmetry; apply Z.ltb_ge; lia).
  replace (Z.of_nat (length host) + 1 + 1
           =? Z.of_nat (length host) + 3 + Z.of_nat (length port)) with false
    by (symmetry; apply Z.eqb_neq; lia).
  replace (Z.of_nat (length host) + 1 + 1 =? Z.of_nat (length host) + 2)
    with true by (symmetry; apply Z.eqb_eq; lia).
  replace (Z.to_nat (Z.of_nat (length host) + 1) - 1)%nat with (length host)
    by lia.
  replace (Z.to_nat (Z.of_nat (length host) + 1 + 1)) with (length host + 2)%nat
    by lia.
  replace (Z.to_nat (Z.of_nat (length host) + 2 + 1)) with (length host + 3)%nat
    by lia.
  assert (D1 : drop 1 s = host ++ "]"%byte :: ":"%byte :: port)
    by reflexivity.
  assert (D2 : drop (length host + 2) s = ":"%byte :: port).
  { rewrite Es. apply drop_app_length'. cbn [length].
    rewrite length_app. simpl. lia. }
  assert (D3 : drop (length host + 3) s = port).
  { replace (length host + 3)%nat with (length host + 2 + 1)%nat by lia.
    rewrite <- drop_drop, D2. reflexivity. }
  rewrite D1, D2, D3, take_app_length.
  unfold net.IndexByteString.
  rewrite !IndexByteString_from_absent.
  - reflexivity.
  - rewrite not_elem_of_cons. split; [discriminate | exact Pr].
  - rewrite not_elem_of_app, !not_elem_of_cons.
    repeat split; auto; discriminate.
Qed.

Lemma SplitHostPort_JoinHostPort (host port : list byte) :
  "["%byte ∉ host -> "]"%byte ∉ host ->
  ":"%byte ∉ port -> "["%byte ∉ port -> "]"%byte ∉ port ->
  net.SplitHostPort (main.JoinHostPort host port) = (host, port, None).
Proof.
  intros Hl Hr Pc Pl Pr. unfold main.JoinHostPort.
  destruct (bool_decide (":"%byte ∈ host)) eqn:Hc.
  - change (str "[" ++ host ++ str "]:" ++ port)
      with ("["%byte :: host ++ "]"%byte :: ":"%byte :: port).
    apply SplitHostPort_bracketed; assumption.
  - apply bool_decide_eq_false in Hc.
    change (host ++ str ":" ++ port) with (host ++ ":"%byte :: port).
    apply SplitHostPort_plain; assumption.
Qed.

Lemma digits_plain (ds : list byte) (c : byte) :
  Forall (fun c => net.between "0" c "9" = true) ds ->
  net.between "0" c "9" = false -> c ∉ ds.
Proof.
  intros Hd Hc Hin. rewrite Forall_forall in Hd.
  specialize (Hd c Hin). congruence.
Qed.

(** The [Dial] of [loadRules] on a joined host and port. *)
Lemma SplitHostPort_Dial proxyDial network host ds :
  "["%byte ∉ host -> "]"%byte ∉ host ->
  Forall (fun c => net.between "0" c "9" = true) ds ->
  (0 < length ds < 19)%nat ->
  main.loadRules_Dial proxyDial network (main.JoinHostPort host ds)
  = proxyDial (str "tcp") host (numeral.decimal ds mod 65536).
Proof.
  intros Hl Hr Hd Hlen. unfold main.loadRules_Dial.
  rewrite SplitHostPort_JoinHostPort;
    try assumption; try (apply digits_plain; [exact Hd | reflexivity]).
  rewrite Atoi_digits by assumption. reflexivity.
Qed.

(** X20: the [Dial] that [loadRules] gives its HTTP client splits the
    address and asks the proxy dialer for network "tcp", whatever network
    it was called with.  For a host without brackets and a port of one to
    18 decimal digits, joined by [net.JoinHostPort], the proxy dialer
    gets that host and the value of the digits modulo 65536: the
    conversion to [uint16] wraps a port that is too large. *)
Theorem loadRules_Dial_host_port proxyDial network host ds :
  "["%byte ∉ host -> "]"%byte ∉ host ->
  Forall (fun c => net.between "0" c "9" = true) ds ->
  (0 < length ds < 19)%nat ->
  main.loadRules_Dial proxyDial network (main.JoinHostPort host ds)
  = proxyDial (str "tcp") host (numeral.decimal ds mod 65536)
  /\ (forall network',
        main.loadRules_Dial proxyDial network' (main.JoinHostPort host ds)
        = main.loadRules_Dial proxyDial network (main.JoinHostPort host ds)).
Proof.
  intros Hl Hr Hd Hlen. split.
  - apply SplitHostPort_Dial; assumption.
  - intros network'. rewrite !SplitHostPort_Dial by assumption. reflexivity.
Qed.

(** "example.com:80" is dialed as it is; "example.com:65616" is dialed at
    port 80. *)
Lemma loadRules_Dial_host_port_witness :
  let dial := main.ProxyDial (transport.of_trojan sample.t) sample.dial_good in
  main.loadRules_Dial dial (str "tcp4") (str "example.com:80")
  = dial (str "tcp") (str "example.com") 80
  /\ main.loadRules_Dial dial (str "tcp4") (str "example.com:65616")
     = dial (str "tcp") (str "example.com") 80.
Proof.
  intros dial. split.
  - refine (proj1 (loadRules_Dial_host_port dial (str "tcp4")
                      (str "example.com") (str "80") _ _ _ _)).
    + refine (bool_decide_unpack _ _). vm_compute. exact I.
    + refine (bool_decide_unpack _ _). vm_compute. exact I.
    + repeat constructor.
    + simpl. lia.
  - refine (proj1 (loadRules_Dial_host_port dial (str "tcp4")
                      (str "example.com") (str "65616") _ _ _ _)).
    + refine (bool_decide_unpack _ _). vm_compute. exact I.
    + refine (bool_decide_unpack _ _). vm_compute. exact I.
    + repeat constructor.
    + simpl. lia.
Defined.

(** The errors that the [Dial] drops. *)
Lemma SplitHostPort_error (addr : list byte) e :
  (net.SplitHostPort addr).2 = Some e ->
  net.SplitHostPort addr = ([], [], Some e).
Proof.
  unfold net.SplitHostPort. cbv zeta.
  repeat (case_match; try (simpl; intros [= <-]; reflexivity));
    simpl; discriminate.
Qed.

Lemma Atoi_syntax_zero (s : list byte) :
  (strconv.Atoi s).2 = Some strconv.ErrSyntax -> (strconv.Atoi s).1 = 0.
Proof.
  unfold strconv.Atoi, strconv.ParseInt.
  repeat (case_match; simpl; try reflexivity; try discriminate).
Qed.

(** X21: the [Dial] of [loadRules] drops the errors of
    [net.SplitHostPort] and [strconv.Atoi].  Over the dial function of
    [GenProxyDial], an address that does not split is answered with the
    dialer's "invalid addr" for the empty host and port 0; and an address
    whose port is no number, or a multiple of 65536, with "invalid addr"
    for its host and port 0.  Nothing is dialed in either case. *)
Theorem loadRules_Dial_drops_errors proxy dialFn network w :
  let dial := main.loadRules_Dial (main.ProxyDial proxy dialFn) network in
  (forall addr e,
     (net.SplitHostPort addr).2 = Some e ->
     dial addr w = (inr (ErrAddr [] 0), w))
  /\ (forall host port,
     "["%byte ∉ host -> "]"%byte ∉ host ->
     ":"%byte ∉ port -> "["%byte ∉ port -> "]"%byte ∉ port ->
     (strconv.Atoi port).2 = Some strconv.ErrSyntax
     \/ (strconv.Atoi port).1 mod 65536 = 0 ->
     dial (main.JoinHostPort host port) w = (inr (ErrAddr host 0), w)).
Proof.
  intros dial. subst dial. split.
  - intros addr e He. unfold main.loadRules_Dial.
    rewrite (SplitHostPort_error addr e He). reflexivity.
  - intros host port Hl Hr Pc Pl Pr Hport. unfold main.loadRules_Dial.
    rewrite SplitHostPort_JoinHostPort by assumption.
    assert (Hp : wrap16 (strconv.Atoi port).1 = 0).
    { unfold wrap16. destruct Hport as [Hs|Hm]; [|exact Hm].
      rewrite (Atoi_syntax_zero port Hs). reflexivity. }
    destruct (strconv.Atoi port) as [p err]. simpl in Hp. rewrite Hp.
    unfold main.ProxyDial.
    rewrite (bool_decide_eq_true_2 (0 = 0)) by reflexivity.
    rewrite orb_true_r. reflexivity.
Qed.


(** ** The lines of a rule file *)

Lemma loadRules_lines_good linePrefix (ls : list (list byte)) : forall tail acc,
  main.loadRules_lines (map (fun l => (l, None)) ls ++ tail) linePrefix acc
  = main.loadRules_lines tail linePrefix
      (acc ++ map (fun l => linePrefix ++ l)
                  (filter (fun l => strings.TrimSpace_empty l = false) ls)).
Proof.
  induction ls as [|l ls IH]; intros tail acc.
  - simpl. rewrite app_nil_r. reflexivity.
  - cbn [map app main.loadRules_lines].
    destruct (strings.TrimSpace_empty l) eqn:Hb.
    + rewrite IH, filter_cons_False by congruence. reflexivity.
    + rewrite IH, filter_cons_True by exact Hb.
      cbn [map]. rewrite <- app_assoc. reflexivity.
Qed.

(** X22: the rules that [loadRules] returns.  When the reader gives the
    lines [ls] and then the end of the file, the result is [linePrefix]
    followed by the line, for every line of [ls] that is not white space
    only, in the order of the file; the line handed over with [io.EOF] is
    not looked at.  When a read fails with another error, the result is
    nil, whatever was read before. *)
Theorem loadRules_lines_result linePrefix (ls : list (list byte)) :
  let reads := map (fun l => (l, @None error)) ls in
  let rules := map (fun l => linePrefix ++ l)
                   (filter (fun l => strings.TrimSpace_empty l = false) ls) in
  (forall line rest,
     main.loadRules_lines (reads ++ (line, Some EOF) :: rest) linePrefix []
     = rules)
  /\ main.loadRules_lines reads linePrefix [] = rules
  /\ (forall line e rest, is_EOF e = false ->
     main.loadRules_lines (reads ++ (line, Some e) :: rest) linePrefix []
     = []).
Proof.
  intros reads rules. subst reads rules. split; [|split].
  - intros line rest. rewrite loadRules_lines_good. reflexivity.
  - rewrite <- (app_nil_r (map _ ls)) at 1.
    rewrite loadRules_lines_good. reflexivity.
  - intros line e rest He. rewrite loadRules_lines_good.
    cbn [main.loadRules_lines]. rewrite He. reflexivity.
Qed.

(** ** The text of an address, split again *)

(** [IP.String] writes no bracket. *)
Lemma hexDigit_no_bracket (n : nat) :
  at_ net.hexDigit n <> "["%byte /\ at_ net.hexDigit n <> "]"%byte.
Proof.
  do 17 (destruct n as [|n]; [split; discriminate|]). split; discriminate.
Qed.

Lemma ubtoa_no_bracket (v : byte) :
  Forall (fun c => c <> "["%byte /\ c <> "]"%byte) (net.ubtoa v).
Proof. destruct v; repeat constructor; discriminate. Qed.

Lemma appendHex_no_bracket (dst : list byte) (i : Z) :
  Forall (fun c => c <> "["%byte /\ c <> "]"%byte) dst ->
  Forall (fun c => c <> "["%byte /\ c <> "]"%byte) (net.appendHex dst i).
Proof.
  intros Hd. unfold net.appendHex.
  destruct (decide (i = 0)).
  - apply Forall_app. split; [exact Hd|]. repeat constructor; discriminate.
  - generalize (reverse (seq 0 8)). intros l. revert dst Hd.
    induction l as [|j l IH]; intros dst Hd; [exact Hd|].
    cbn [foldl]. apply IH.
    destruct (0 <? Z.shiftr i (Z.of_nat j * 4)); [|exact Hd].
    apply Forall_app. split; [exact Hd|].
    apply Forall_cons. split; [apply hexDigit_no_bracket | constructor].
Qed.

Lemma print_groups_no_bracket turns (p : list byte) e0 e1 : forall i b,
  Forall (fun c => c <> "["%byte /\ c <> "]"%byte) b ->
  Forall (fun c => c <> "["%byte /\ c <> "]"%byte)
         (net.print_groups turns p e0 e1 i b).
Proof.
  induction turns as [|turns IH]; intros i b Hb; [exact Hb|].
  cbn [net.print_groups].
  destruct (decide (i < net.IPv6len)%nat); [|exact Hb].
  assert (Hc : Forall (fun c => c <> "["%byte /\ c <> "]"%byte)
                 (b ++ [":"%byte; ":"%byte])).
  { apply Forall_app. split; [exact Hb|]. repeat constructor; discriminate. }
  destruct (decide (Z.of_nat i = e0)).
  - destruct (decide (net.IPv6len <= Z.to_nat e1)%nat); [exact Hc|].
    apply IH, appendHex_no_bracket. exact Hc.
  - apply IH, appendHex_no_bracket.
    destruct (decide (0 < i)%nat); [|exact Hb].
    apply Forall_app. split; [exact Hb|]. repeat constructor; discriminate.
Qed.

Lemma hexString_no_bracket (b : list byte) :
  Forall (fun c => c <> "["%byte /\ c <> "]"%byte) (net.hexString b).
Proof.
  unfold net.hexString. induction b as [|tn b IH]; [constructor|].
  cbn [flat_map app].
  apply Forall_cons. split; [apply hexDigit_no_bracket|].
  apply Forall_cons. split; [apply hexDigit_no_bracket | exact IH].
Qed.

Lemma IP_String_no_bracket (ip : list byte) :
  Forall (fun c => c <> "["%byte /\ c <> "]"%byte) (net.IP_String ip).
Proof.
  unfold net.IP_String.
  destruct (decide (length ip = 0%nat)); [repeat constructor; discriminate|].
  destruct (decide (length (net.To4 ip) = net.IPv4len)).
  - repeat (apply Forall_app; split; [apply ubtoa_no_bracket|];
            apply Forall_app; split; [repeat constructor; discriminate|]).
    apply ubtoa_no_bracket.
  - destruct (decide (length ip ≠ net.IPv6len)).
    + apply Forall_cons. split; [split; discriminate|].
      apply hexString_no_bracket.
    + destruct (net.longest_run 8 ip 0 (-1) (-1)) as [e0 e1].
      destruct (e1 - e0 <=? 2); apply print_groups_no_bracket; constructor.
Qed.

(** X23: the text of an address goes back to its host and port.  For an
    address with a port in [0,65535] (and, for a domain name, no bracket
    in the name), the [Dial] of [loadRules] called with [String()] of the
    address asks the proxy dialer for the host as [String()] printed it
    and for the same port. *)
Theorem String_splits_back proxyDial network (a : trojan.Addr) :
  let host := match a with
              | trojan.IPv4 a => net.IP_String (trojan.ipv4Addr.ADDR a)
              | trojan.IPv6 a => net.IP_String (trojan.ipv6Addr.ADDR a)
              | trojan.Domain a => trojan.domain.ADDR a
              end in
  let port := match a with
              | trojan.IPv4 a => trojan.ipv4Addr.PORT a
              | trojan.IPv6 a => trojan.ipv6Addr.PORT a
              | trojan.Domain a => trojan.domain.PORT a
              end in
  0 <= port < 65536 ->
  match a with
  | trojan.Domain a =>
      ("["%byte ∉ trojan.domain.ADDR a) /\ ("]"%byte ∉ trojan.domain.ADDR a)
  | _ => True
  end ->
  main.loadRules_Dial proxyDial network (addr.String a)
  = proxyDial (str "tcp") host port.
Proof.
  intros host port Hport Hname.
  assert (Hhost : ("["%byte ∉ host) /\ ("]"%byte ∉ host)).
  { assert (Hip : forall ip, ("["%byte ∉ net.IP_String ip)
                             /\ ("]"%byte ∉ net.IP_String ip)).
    { intros ip. pose proof (IP_String_no_bracket ip) as H.
      rewrite Forall_forall in H.
      split; intros Hin; destruct (H _ Hin); congruence. }
    destruct a as [a|a|a]; [apply Hip | apply Hip | exact Hname]. }
  destruct (canonical_spec port (strconv.Itoa port) (Itoa_uint16 port Hport))
    as (Hd & Hv & Hl & _).
  assert (E : addr.String a = main.JoinHostPort host (strconv.Itoa port))
    by (destruct a; reflexivity).
  rewrite E.
  rewrite SplitHostPort_Dial by (tauto || lia).
  rewrite Hv, Z.mod_small by lia. reflexivity.
Qed.

(** The IPv6 address 2001:db8::68 at port 443: "[2001:db8::68]:443". *)
Lemma String_splits_back_witness :
  let a := trojan.IPv6 (trojan.ipv6Addr.Mk (net.ParseIP (str "2001:db8::68"))
                          443 [x0d; x0a]) in
  let dial := main.ProxyDial (transport.of_trojan sample.t) sample.dial_good in
  addr.String a = str "[2001:db8::68]:443"
  /\ main.loadRules_Dial dial (str "tcp") (addr.String a)
     = dial (str "tcp") (str "2001:db8::68") 443.
Proof.
  intros a dial. split; [vm_compute; reflexivity|].
  exact (String_splits_back dial (str "tcp") a ltac:(simpl; lia) I).
Defined.

(** ** The retries of the rule loader *)

(** X24: [loadRules] calls [loadFn] at most 10 times and sleeps at most
    28.5 seconds.  After [n] calls it has slept [100 * (1 + 4 + ... +
    (n-1) * (n-1))] milliseconds, every call but the last has failed, and
    the result is that of the last call: it stops at the first call that
    succeeds.  The result is an error, which is fatal, only after 10
    calls and 28500 milliseconds. *)
Theorem loadRules_retries RC (loadFn : nat -> RC + error) :
  let r := main.loadRules_load loadFn in
  (1 <= r.2 <= 10)%nat /\ 0 <= r.1.2 <= 28500
  /\ r.1.1 = loadFn (r.2 - 1)%nat
  /\ r.1.2 = 100 * (Z.of_nat r.2 - 1) * Z.of_nat r.2 * (2 * Z.of_nat r.2 - 1) / 6
  /\ (forall j, (j < r.2 - 1)%nat -> exists e, loadFn j = inr e)
  /\ ((r.2 < 10)%nat -> exists rc, r.1.1 = inl rc)
  /\ ((exists e, r.1.1 = inr e) -> r.2 = 10%nat /\ r.1.2 = 28500).
Proof.
  intros r. subst r. unfold main.loadRules_load.
  destruct (loadFn 0%nat) as [rc0|e0] eqn:E0;
  [|destruct (loadFn 1%nat) as [rc1|e1] eqn:E1;
  [|destruct (loadFn 2%nat) as [rc2|e2] eqn:E2;
  [|destruct (loadFn 3%nat) as [rc3|e3] eqn:E3;
  [|destruct (loadFn 4%nat) as [rc4|e4] eqn:E4;
  [|destruct (loadFn 5%nat) as [rc5|e5] eqn:E5;
  [|destruct (loadFn 6%nat) as [rc6|e6] eqn:E6;
  [|destruct (loadFn 7%nat) as [rc7|e7] eqn:E7;
  [|destruct (loadFn 8%nat) as [rc8|e8] eqn:E8]]]]]]]];
  repeat (simpl;
          progress repeat match goal with
                          | E : loadFn _ = _ |- _ => rewrite E
                          end);
  simpl;
  (split; [lia|]); (split; [lia|]); (split; [congruence|]);
  (split; [vm_compute; reflexivity|]);
  (split; [intros j Hj;
           do 9 (destruct j as [|j]; [eauto; lia|]); lia|]);
  (split; [intros Hlt; eauto; lia|]);
  intros [e He]; try discriminate; split; reflexivity.
Qed.
